(** * TrimURL: the in-memory short-code registry of [url_service.go]

    A shallow embedding of the URL service ([URLService] and its methods),
    of the models of [models.go] and of the parts of Go's standard library
    the service calls ([strings], [unicode/utf8], [encoding/hex], [net/url],
    [time]), followed by the properties of the registry.

    Conventions of the embedding:
    - a Go [string] is a sequence of bytes: Rocq's [string];
    - Go's [int] and [int64] are [Z] with the 64-bit wrap-around written out;
    - a Go [error] is the message it carries ([fmt.Errorf] builds nothing
      else), [nil] is [None];
    - [map[string]*ShortURL] is a [gmap string ShortURL]: a record is never
      replaced or removed while a pointer to it is in use for writing, so
      mutation through the pointer is an update of the entry; the pointer
      [GetOriginalURL] keeps after it has released the lock is read for
      fields that never change, and the slice [GetStats] returns is a view
      of elements that never change;
    - the clock ([time.Now]) and the random source ([crypto/rand]) are inputs
      of the operations;
    - calls to the logger do not touch the registry and are left out. *)

From Stdlib Require Import ZArith String Ascii List Lia Bool.
From stdpp Require Import gmap strings list fin_maps.
Import ListNotations.

Local Open Scope string_scope.
Local Open Scope Z_scope.

(** ** Go strings *)

Module GoString.

Definition byte_val (a : ascii) : Z := Z.of_N (N_of_ascii a).

Fixpoint bytes (s : string) : list Z :=
  match s with
  | EmptyString => []
  | String a s' => byte_val a :: bytes s'
  end.

(** [len(s)]: the number of bytes. *)
Definition len (s : string) : Z := Z.of_nat (String.length s).

(** [strings.HasPrefix(s, p)] *)
Definition HasPrefix (s p : string) : bool := String.prefix p s.

(** [s[i:]] for [0 <= i <= len(s)] *)
Fixpoint drop (n : nat) (s : string) : string :=
  match n, s with
  | O, _ => s
  | S n', String _ s' => drop n' s'
  | S _, EmptyString => EmptyString
  end.

(** [s[:i]] for [0 <= i <= len(s)] *)
Fixpoint take (n : nat) (s : string) : string :=
  match n, s with
  | O, _ => EmptyString
  | S n', String a s' => String a (take n' s')
  | S _, EmptyString => EmptyString
  end.

Definition is_empty (s : string) : bool :=
  match s with EmptyString => true | _ => false end.

(** [strings.IndexByte(s, c)]; [None] is Go's [-1]. *)
Fixpoint IndexByte (s : string) (c : ascii) : option nat :=
  match s with
  | EmptyString => None
  | String a s' =>
    if Ascii.eqb a c then Some O else option_map S (IndexByte s' c)
  end.

(** [strings.LastIndexByte(s, c)] *)
Fixpoint LastIndexByte (s : string) (c : ascii) : option nat :=
  match s with
  | EmptyString => None
  | String a s' =>
    match LastIndexByte s' c with
    | Some i => Some (S i)
    | None => if Ascii.eqb a c then Some O else None
    end
  end.

(** [strings.Index(s, sub)] *)
Definition Index (s sub : string) : option nat := String.index 0 sub s.

(** [strings.Contains(s, string(c))] *)
Definition ContainsByte (s : string) (c : ascii) : bool :=
  match IndexByte s c with Some _ => true | None => false end.

(** [strings.Count(s, string(c))] *)
Fixpoint CountByte (s : string) (c : ascii) : nat :=
  match s with
  | EmptyString => O
  | String a s' => ((if Ascii.eqb a c then 1 else 0) + CountByte s' c)%nat
  end.

(** [strings.Cut(s, string(c))]: before, after, found. *)
Definition Cut (s : string) (c : ascii) : string * string * bool :=
  match IndexByte s c with
  | Some i => (take i s, drop (S i) s, true)
  | None => (s, EmptyString, false)
  end.

(** [strings.HasSuffix(s, string(c))] *)
Fixpoint HasSuffixByte (s : string) (c : ascii) : bool :=
  match s with
  | EmptyString => false
  | String a EmptyString => Ascii.eqb a c
  | String _ s' => HasSuffixByte s' c
  end.

(** [strings.ToLower] on ASCII input. *)
Definition lower (a : ascii) : ascii :=
  let v := byte_val a in
  if (65 <=? v) && (v <=? 90) then ascii_of_N (Z.to_N (v + 32)) else a.

Fixpoint ToLower (s : string) : string :=
  match s with
  | EmptyString => EmptyString
  | String a s' => String (lower a) (ToLower s')
  end.

End GoString.

(** ** [unicode/utf8]: what [for _, char := range s] iterates over *)

Module Utf8.

Definition RuneError : Z := 65533.

(** The accepted range of the second byte and the size of the sequence,
    by first byte (the table [first] with [acceptRanges]); [None] for an
    invalid first byte. ASCII is handled before the table is used. *)
Definition lead (b0 : Z) : option (nat * Z * Z) :=
  if (194 <=? b0) && (b0 <=? 223) then Some (2%nat, 128, 191)
  else if b0 =? 224 then Some (3%nat, 160, 191)
  else if (225 <=? b0) && (b0 <=? 236) then Some (3%nat, 128, 191)
  else if b0 =? 237 then Some (3%nat, 128, 159)
  else if (238 <=? b0) && (b0 <=? 239) then Some (3%nat, 128, 191)
  else if b0 =? 240 then Some (4%nat, 144, 191)
  else if (241 <=? b0) && (b0 <=? 243) then Some (4%nat, 128, 191)
  else if b0 =? 244 then Some (4%nat, 128, 143)
  else None.

Definition cont (b : Z) : bool := (128 <=? b) && (b <=? 191).

(** [utf8.DecodeRuneInString]: the rune and its width in bytes. *)
Definition DecodeRune (bs : list Z) : Z * nat :=
  match bs with
  | [] => (RuneError, 0%nat)
  | b0 :: rest =>
    if b0 <? 128 then (b0, 1%nat)
    else
      match lead b0 with
      | None => (RuneError, 1%nat)
      | Some (sz, lo, hi) =>
        match rest with
        | [] => (RuneError, 1%nat)
        | b1 :: rest1 =>
          if (b1 <? lo) || (hi <? b1) then (RuneError, 1%nat)
          else if (sz <=? 2)%nat then
            (Z.lor (Z.shiftl (Z.land b0 31) 6) (Z.land b1 63), 2%nat)
          else
            match rest1 with
            | [] => (RuneError, 1%nat)
            | b2 :: rest2 =>
              if negb (cont b2) then (RuneError, 1%nat)
              else if (sz <=? 3)%nat then
                (Z.lor (Z.lor (Z.shiftl (Z.land b0 15) 12)
                              (Z.shiftl (Z.land b1 63) 6))
                       (Z.land b2 63), 3%nat)
              else
                match rest2 with
                | [] => (RuneError, 1%nat)
                | b3 :: _ =>
                  if negb (cont b3) then (RuneError, 1%nat)
                  else
                    (Z.lor (Z.lor (Z.lor (Z.shiftl (Z.land b0 7) 18)
                                         (Z.shiftl (Z.land b1 63) 12))
                                  (Z.shiftl (Z.land b2 63) 6))
                           (Z.land b3 63), 4%nat)
                end
            end
        end
      end
  end.

(** The runes a [range] loop visits, in order. Every step consumes at
    least one byte, so the number of bytes is fuel enough. *)
Fixpoint runes_from (fuel : nat) (bs : list Z) : list Z :=
  match fuel, bs with
  | O, _ => []
  | _, [] => []
  | S fuel', _ :: _ =>
    let '(r, w) := DecodeRune bs in
    r :: runes_from fuel' (skipn w bs)
  end.

Definition runes (s : string) : list Z :=
  let bs := GoString.bytes s in runes_from (List.length bs) bs.

End Utf8.

(** ** Errors

    Every error of the service is made by [fmt.Errorf] from a fixed message;
    the names are those of the error taxonomy. *)

Definition error := string.

Definition EmptyURL : error := "URL cannot be empty".
Definition MalformedURL : error := "invalid URL format".
Definition BadLength : error := "shortcode must be 4-20 characters".
Definition NonAlphanumeric : error := "shortcode must be alphanumeric".
Definition CodeCollision : error := "shortcode already exists".
Definition NotFound : error := "shortcode not found".
Definition Expired : error := "shortcode expired".
(** [fmt.Errorf("invalid URL: %v", err)] *)
Definition InvalidURL (e : error) : error := "invalid URL: " ++ e.
(** [fmt.Errorf("invalid shortcode: %v", err)] *)
Definition InvalidShortCode (e : error) : error := "invalid shortcode: " ++ e.

Inductive result (A : Type) : Type :=
| Ok (a : A)
| Err (e : error).
Arguments Ok {A} a.
Arguments Err {A} e.

(** ** validateShortCode *)

Definition isAlnum (char : Z) : bool :=
  ((97 <=? char) && (char <=? 122))
  || ((65 <=? char) && (char <=? 90))
  || ((48 <=? char) && (char <=? 57)).

(** The body of the [range] loop, over the runes of the code. *)
Fixpoint checkAlnum (rs : list Z) : option error :=
  match rs with
  | [] => None
  | char :: rs' =>
    if negb (isAlnum char) then Some NonAlphanumeric else checkAlnum rs'
  end.

Definition validateShortCode (shortCode : string) : option error :=
  if (GoString.len shortCode <? 4) || (GoString.len shortCode >? 20)
  then Some BadLength
  else checkAlnum (Utf8.runes shortCode).

(** ** [net/url]: [url.Parse]

    The parser of Go's standard library (as of Go 1.21, the version the
    project asks for), with [viaRequest = false]. The result keeps the
    fields that parsing decides; [RawPath] and [RawFragment], which are
    encoding hints computed after a successful parse, are left out. *)

Module url.

Import GoString.

Record URL := {
  Scheme : string;
  Opaque : string;
  User : option (string * option string);
  Host : string;
  Path : string;
  OmitHost : bool;
  ForceQuery : bool;
  RawQuery : string;
  Fragment : string
}.

Inductive encoding :=
| encodePath | encodeHost | encodeZone | encodeUserPassword | encodeFragment.

Definition is_host_mode (mode : encoding) : bool :=
  match mode with encodeHost | encodeZone => true | _ => false end.

(** [stringContainsCTLByte] *)
Fixpoint stringContainsCTLByte (s : string) : bool :=
  match s with
  | EmptyString => false
  | String a s' =>
    let b := byte_val a in
    if (b <? 32) || (b =? 127) then true else stringContainsCTLByte s'
  end.

Definition ishex (c : Z) : bool :=
  ((48 <=? c) && (c <=? 57)) || ((97 <=? c) && (c <=? 102))
  || ((65 <=? c) && (c <=? 70)).

Definition unhex (c : Z) : Z :=
  if (48 <=? c) && (c <=? 57) then c - 48
  else if (97 <=? c) && (c <=? 102) then c - 97 + 10
  else if (65 <=? c) && (c <=? 70) then c - 65 + 10
  else 0.

Definition alnum (c : Z) : bool :=
  ((97 <=? c) && (c <=? 122)) || ((65 <=? c) && (c <=? 90))
  || ((48 <=? c) && (c <=? 57)).

(** [shouldEscape(c, encodeHost)]: the unreserved characters, the
    sub-delimiters, the colon, the square and angle brackets and the
    double quote may stand in a host as they are. *)
Definition shouldEscapeHost (c : Z) : bool :=
  if alnum c then false
  else if existsb (Z.eqb c)
            [33; 36; 38; 39; 40; 41; 42; 43; 44; 59; 61; 58; 91; 93; 60; 62; 34]
  then false
  else if existsb (Z.eqb c) [45; 95; 46; 126] then false
  else true.

(** [unescape(s, mode)]: [None] for an [EscapeError] or an
    [InvalidHostError]. *)
Fixpoint unescape (s : string) (mode : encoding) : option string :=
  match s with
  | EmptyString => Some EmptyString
  | String c rest =>
    if Ascii.eqb c "%" then
      match rest with
      | String a1 (String a2 rest') =>
        let h1 := byte_val a1 in
        let h2 := byte_val a2 in
        let is25 := (h1 =? 50) && (h2 =? 53) in
        let v := Z.lor (Z.shiftl (unhex h1) 4) (unhex h2) in
        if negb (ishex h1) || negb (ishex h2) then None
        else if match mode with encodeHost => true | _ => false end
                && (unhex h1 <? 8) && negb is25 then None
        else if match mode with encodeZone => true | _ => false end
                && negb is25 && negb (v =? 32) && shouldEscapeHost v then None
        else option_map (String (ascii_of_N (Z.to_N v))) (unescape rest' mode)
      | _ => None
      end
    else if is_host_mode mode && (byte_val c <? 128)
            && shouldEscapeHost (byte_val c) then None
    else option_map (String c) (unescape rest mode)
  end.

(** [getScheme]: scheme and rest; [None] for "missing protocol scheme". *)
Fixpoint getScheme_from (i : nat) (s rawURL : string) : option (string * string) :=
  match s with
  | EmptyString => Some (EmptyString, rawURL)
  | String a s' =>
    let c := byte_val a in
    if ((97 <=? c) && (c <=? 122)) || ((65 <=? c) && (c <=? 90)) then
      getScheme_from (S i) s' rawURL
    else if ((48 <=? c) && (c <=? 57)) || (c =? 43) || (c =? 45) || (c =? 46) then
      match i with
      | O => Some (EmptyString, rawURL)
      | _ => getScheme_from (S i) s' rawURL
      end
    else if c =? 58 then
      match i with
      | O => None
      | _ => Some (take i rawURL, s')
      end
    else Some (EmptyString, rawURL)
  end.

Definition getScheme (rawURL : string) : option (string * string) :=
  getScheme_from O rawURL rawURL.

(** [validOptionalPort] *)
Fixpoint all_digits (s : string) : bool :=
  match s with
  | EmptyString => true
  | String a s' =>
    let b := byte_val a in
    if (b <? 48) || (b >? 57) then false else all_digits s'
  end.

Definition validOptionalPort (port : string) : bool :=
  match port with
  | EmptyString => true
  | String a rest => if Ascii.eqb a ":" then all_digits rest else false
  end.

(** [validUserinfo] *)
Definition userinfo_rune (r : Z) : bool :=
  alnum r
  || existsb (Z.eqb r)
       [45; 46; 95; 58; 126; 33; 36; 38; 39; 40; 41; 42; 43; 44; 59; 61; 37; 64].

Definition validUserinfo (s : string) : bool :=
  forallb userinfo_rune (Utf8.runes s).

(** [parseHost] *)
Definition parseHost (host : string) : option string :=
  if HasPrefix host "[" then
    match LastIndexByte host "]" with
    | None => None
    | Some i =>
      if negb (validOptionalPort (drop (S i) host)) then None
      else
        match Index (take i host) "%25" with
        | Some zone =>
          match unescape (take zone host) encodeHost,
                unescape (drop zone (take i host)) encodeZone,
                unescape (drop i host) encodeHost with
          | Some host1, Some host2, Some host3 => Some (host1 ++ host2 ++ host3)
          | _, _, _ => None
          end
        | None => unescape host encodeHost
        end
    end
  else
    match LastIndexByte host ":" with
    | Some i =>
      if negb (validOptionalPort (drop i host)) then None
      else unescape host encodeHost
    | None => unescape host encodeHost
    end.

(** [parseAuthority]: user and host. *)
Definition parseAuthority (authority : string)
  : option (option (string * option string) * string) :=
  match LastIndexByte authority "@" with
  | None =>
    match parseHost authority with
    | Some host => Some (None, host)
    | None => None
    end
  | Some i =>
    match parseHost (drop (S i) authority) with
    | None => None
    | Some host =>
      let userinfo := take i authority in
      if negb (validUserinfo userinfo) then None
      else if negb (ContainsByte userinfo ":") then
        match unescape userinfo encodeUserPassword with
        | Some username => Some (Some (username, None), host)
        | None => None
        end
      else
        let '(username, password, _) := Cut userinfo ":" in
        match unescape username encodeUserPassword,
              unescape password encodeUserPassword with
        | Some username', Some password' =>
          Some (Some (username', Some password'), host)
        | _, _ => None
        end
    end
  end.

(** [parse(rawURL, false)] *)
Definition parse (rawURL : string) : option URL :=
  if stringContainsCTLByte rawURL then None
  else if String.eqb rawURL "*" then
    Some {| Scheme := ""; Opaque := ""; User := None; Host := ""; Path := "*";
            OmitHost := false; ForceQuery := false; RawQuery := "";
            Fragment := "" |}
  else
    match getScheme rawURL with
    | None => None
    | Some (scheme0, rest0) =>
      let scheme := ToLower scheme0 in
      let '(rest1, rawQuery, forceQuery) :=
        if HasSuffixByte rest0 "?" && (CountByte rest0 "?" =? 1)%nat
        then (take (String.length rest0 - 1) rest0, EmptyString, true)
        else let '(before, after, _) := Cut rest0 "?" in (before, after, false) in
      if negb (HasPrefix rest1 "/") && negb (is_empty scheme) then
        Some {| Scheme := scheme; Opaque := rest1; User := None; Host := "";
                Path := ""; OmitHost := false; ForceQuery := forceQuery;
                RawQuery := rawQuery; Fragment := "" |}
      else if negb (HasPrefix rest1 "/")
              && ContainsByte (fst (fst (Cut rest1 "/"))) ":" then None
      else
        let with_path user host omit rest :=
          match unescape rest encodePath with
          | None => None
          | Some path =>
            Some {| Scheme := scheme; Opaque := ""; User := user; Host := host;
                    Path := path; OmitHost := omit; ForceQuery := forceQuery;
                    RawQuery := rawQuery; Fragment := "" |}
          end in
        if (negb (is_empty scheme) || negb (HasPrefix rest1 "///"))
           && HasPrefix rest1 "//" then
          let authority0 := drop 2 rest1 in
          let '(authority, rest2) :=
            match IndexByte authority0 "/" with
            | Some i => (take i authority0, drop i authority0)
            | None => (authority0, EmptyString)
            end in
          match parseAuthority authority with
          | None => None
          | Some (user, host) => with_path user host false rest2
          end
        else if negb (is_empty scheme) && HasPrefix rest1 "/" then
          with_path None EmptyString true rest1
        else with_path None EmptyString false rest1
    end.

(** [url.Parse]: [None] for an error. *)
Definition Parse (rawURL : string) : option URL :=
  let '(u, frag, _) := Cut rawURL "#" in
  match parse u with
  | None => None
  | Some url =>
    if is_empty frag then Some url
    else
      match unescape frag encodeFragment with
      | None => None
      | Some fragment =>
        Some {| Scheme := Scheme url; Opaque := Opaque url; User := User url;
                Host := Host url; Path := Path url; OmitHost := OmitHost url;
                ForceQuery := ForceQuery url; RawQuery := RawQuery url;
                Fragment := fragment |}
      end
  end.

End url.

(** ** [encoding/hex] *)

Module hex.

Definition hextable : string := "0123456789abcdef".

Definition digit (n : Z) : ascii :=
  match String.get (Z.to_nat n) hextable with
  | Some a => a
  | None => "0"%char
  end.

(** [hex.EncodeToString]: two digits per byte, high nibble first. *)
Fixpoint EncodeToString (src : list Byte.byte) : string :=
  match src with
  | [] => EmptyString
  | b :: src' =>
    let v := Z.of_N (Byte.to_N b) in
    String (digit (Z.shiftr v 4)) (String (digit (Z.land v 15)) (EncodeToString src'))
  end.

End hex.

(** ** Go integers

    [int] on the 64-bit platforms and [int64]: the result of an operation is
    the mathematical one brought back into the range by [wrap64]. *)

Definition wrap64 (x : Z) : Z := (x + 2 ^ 63) mod 2 ^ 64 - 2 ^ 63.

Definition max_int : Z := 2 ^ 63 - 1.
Definition min_int : Z := - 2 ^ 63.

(** ** [time]

    A [time.Time] is an instant on one time line, counted in nanoseconds
    (the readings of [time.Now] carry the monotonic clock, and [Add] and
    [After] go by it); a [time.Duration] is an [int64] count of
    nanoseconds. The instants a Go [Time] can hold reach far beyond any
    [int64] duration from the present, so [Add] is exact on instants; the
    arithmetic on durations wraps. *)

Module time.

Definition Time := Z.
Definition Duration := Z.

Definition Minute : Duration := 60 * 1000000000.

(** [time.Duration(n) * time.Minute] *)
Definition minutes (n : Z) : Duration := wrap64 (n * Minute).

(** [t.Add(d)] *)
Definition Add (t : Time) (d : Duration) : Time := t + d.

(** [t.After(u)] *)
Definition After (t u : Time) : bool := u <? t.

End time.

(** ** models.go *)

Record Click := {
  Timestamp : time.Time;
  Source : string;
  Location : string
}.

Record ShortURL := {
  ShortCode : string;
  OriginalURL : string;
  CreatedAt : time.Time;
  ExpiresAt : time.Time;
  ClickCount : Z;
  ClickHistory : list Click
}.

Record CreateShortURLRequest := {
  URL : string;
  Validity : Z;
  req_ShortCode : string
}.

Record CreateShortURLResponse := {
  ShortLink : string;
  Expiry : string
}.

Record ShortURLStats := {
  TotalClicks : Z;
  stats_CreatedAt : time.Time;
  stats_ExpiresAt : time.Time;
  Clicks : list Click
}.

(** ** url_service.go *)

(** The registry; the lock is part of the concurrent model further down,
    the logger is left out. *)
Record URLService := {
  urls : gmap string ShortURL
}.

Definition NewURLService : URLService := {| urls := ∅ |}.

(** The string [validateURL] hands to the parser: the protocol is added to
    the function's own copy of the argument. *)
Definition addProtocol (rawURL : string) : string :=
  if negb (GoString.HasPrefix rawURL "http://")
     && negb (GoString.HasPrefix rawURL "https://")
  then "https://" ++ rawURL
  else rawURL.

Definition validateURL (rawURL : string) : option error :=
  if GoString.is_empty rawURL then Some EmptyURL
  else
    match url.Parse (addProtocol rawURL) with
    | None => Some MalformedURL
    | Some _ => None
    end.

Definition shortCodeExists (s : URLService) (shortCode : string) : bool :=
  match urls s !! shortCode with
  | Some _ => true
  | None => false
  end.

(** The four bytes one [rand.Read] fills. *)
Definition draw : Type := Byte.byte * Byte.byte * Byte.byte * Byte.byte.

Definition draw_bytes (d : draw) : list Byte.byte :=
  let '(b0, b1, b2, b3) := d in [b0; b1; b2; b3].

(** [hex.EncodeToString(bytes)[:8]] *)
Definition draw_code (d : draw) : string :=
  GoString.take 8 (hex.EncodeToString (draw_bytes d)).

(** [generateShortCode]: the loop takes one draw per turn; [draws] are the
    values the random source delivers, in order. [None] when the loop is
    still running after all of them. *)
Fixpoint generateShortCode (draws : list draw) (s : URLService) : option string :=
  match draws with
  | [] => None
  | d :: draws' =>
    let shortCode := draw_code d in
    if negb (shortCodeExists s shortCode) then Some shortCode
    else generateShortCode draws' s
  end.

Section Service.

(** [t.Format(time.RFC3339)] *)
Variable rfc3339 : time.Time -> string.

(** The entry [CreateShortURL] stores. *)
Definition newShortURL (shortCode : string) (req : CreateShortURLRequest)
    (validity : Z) (now : time.Time) : ShortURL :=
  {| ShortCode := shortCode;
     OriginalURL := URL req;
     CreatedAt := now;
     ExpiresAt := time.Add now (time.minutes validity);
     ClickCount := 0;
     ClickHistory := [] |}.

Definition effectiveValidity (req : CreateShortURLRequest) : Z :=
  if Validity req <=? 0 then 30 else Validity req.

(** The short code of a request: generated or validated and checked. *)
Definition chooseShortCode (req : CreateShortURLRequest) (draws : list draw)
    (s : URLService) : option (result string) :=
  let shortCode := req_ShortCode req in
  if GoString.is_empty shortCode then
    option_map Ok (generateShortCode draws s)
  else
    match validateShortCode shortCode with
    | Some err => Some (Err (InvalidShortCode err))
    | None =>
      if shortCodeExists s shortCode then Some (Err CodeCollision)
      else Some (Ok shortCode)
    end.

(** [CreateShortURL], run without interference; [now] is the reading of
    the clock. [None]: the generation loop has not ended with the draws
    given. *)
Definition CreateShortURL (req : CreateShortURLRequest) (now : time.Time)
    (draws : list draw) (s : URLService)
  : option (result CreateShortURLResponse * URLService) :=
  match validateURL (URL req) with
  | Some err => Some (Err (InvalidURL err), s)
  | None =>
    let validity := effectiveValidity req in
    match chooseShortCode req draws s with
    | None => None
    | Some (Err e) => Some (Err e, s)
    | Some (Ok shortCode) =>
      let shortURL := newShortURL shortCode req validity now in
      Some (Ok {| ShortLink := "http://localhost:3000/" ++ shortCode;
                  Expiry := rfc3339 (ExpiresAt shortURL) |},
            {| urls := <[shortCode := shortURL]> (urls s) |})
    end
  end.

End Service.

Definition GetOriginalURL (shortCode : string) (now : time.Time)
    (s : URLService) : result string * URLService :=
  match urls s !! shortCode with
  | None => (Err NotFound, s)
  | Some shortURL =>
    if time.After now (ExpiresAt shortURL) then (Err Expired, s)
    else (Ok (OriginalURL shortURL), s)
  end.

Definition RecordClick (shortCode source location : string) (now : time.Time)
    (s : URLService) : option error * URLService :=
  match urls s !! shortCode with
  | None => (Some NotFound, s)
  | Some shortURL =>
    let click := {| Timestamp := now; Source := source; Location := location |} in
    let shortURL' :=
      {| ShortCode := ShortCode shortURL;
         OriginalURL := OriginalURL shortURL;
         CreatedAt := CreatedAt shortURL;
         ExpiresAt := ExpiresAt shortURL;
         ClickCount := wrap64 (ClickCount shortURL + 1);
         ClickHistory := ClickHistory shortURL ++ [click] |} in
    (None, {| urls := <[shortCode := shortURL']> (urls s) |})
  end.

Definition GetStats (shortCode : string) (s : URLService)
  : result ShortURLStats * URLService :=
  match urls s !! shortCode with
  | None => (Err NotFound, s)
  | Some shortURL =>
    (Ok {| TotalClicks := ClickCount shortURL;
           stats_CreatedAt := CreatedAt shortURL;
           stats_ExpiresAt := ExpiresAt shortURL;
           Clicks := ClickHistory shortURL |}, s)
  end.

(** The response [CreateShortURL] builds for the entry it has stored. *)
Definition response (rfc3339 : time.Time -> string) (shortURL : ShortURL)
  : CreateShortURLResponse :=
  {| ShortLink := "http://localhost:3000/" ++ ShortCode shortURL;
     Expiry := rfc3339 (ExpiresAt shortURL) |}.

(** The statistics of an entry. *)
Definition stats_of (shortURL : ShortURL) : ShortURLStats :=
  {| TotalClicks := ClickCount shortURL;
     stats_CreatedAt := CreatedAt shortURL;
     stats_ExpiresAt := ExpiresAt shortURL;
     Clicks := ClickHistory shortURL |}.

(** An entry after one more click. *)
Definition clicked (shortURL : ShortURL) (click : Click) : ShortURL :=
  {| ShortCode := ShortCode shortURL;
     OriginalURL := OriginalURL shortURL;
     CreatedAt := CreatedAt shortURL;
     ExpiresAt := ExpiresAt shortURL;
     ClickCount := wrap64 (ClickCount shortURL + 1);
     ClickHistory := ClickHistory shortURL ++ [click] |}.

(** The counter of an entry agrees with its history, in [int]. *)
Definition count_ok (shortURL : ShortURL) : Prop :=
  ClickCount shortURL = wrap64 (Z.of_nat (List.length (ClickHistory shortURL))).

Definition registry_ok (s : URLService) : Prop :=
  forall code shortURL, urls s !! code = Some shortURL -> count_ok shortURL.

(** ** The service under concurrent callers

    Every method is cut into steps, each with at most one access to the
    shared registry or to its lock, as the source orders them; what a
    method computes on its own locals goes with the step before. A caller
    is the point a call has reached, with its locals; a schedule picks the
    caller that moves next. *)

Module Conc.

(** [sync.RWMutex]: how many readers are inside, and whether a writer is. *)
Record RWMutex := {
  readers : nat;
  writer : bool
}.

Definition unlocked : RWMutex := {| readers := 0; writer := false |}.

(** [RLock] and [Lock] return [None] while the caller has to wait. *)
Definition RLock (mu : RWMutex) : option RWMutex :=
  if writer mu then None
  else Some {| readers := S (readers mu); writer := false |}.

Definition RUnlock (mu : RWMutex) : RWMutex :=
  {| readers := Nat.pred (readers mu); writer := writer mu |}.

Definition Lock (mu : RWMutex) : option RWMutex :=
  if writer mu || negb (readers mu =? 0)%nat then None
  else Some {| readers := 0; writer := true |}.

Definition Unlock (mu : RWMutex) : RWMutex :=
  {| readers := readers mu; writer := false |}.

(** The [URLService] the callers share. *)
Record shared := {
  service : URLService;
  mutex : RWMutex
}.

Definition with_mutex (m : shared) (mu : RWMutex) : shared :=
  {| service := service m; mutex := mu |}.

Definition with_urls (m : shared) (us : gmap string ShortURL) : shared :=
  {| service := {| urls := us |}; mutex := mutex m |}.

Definition incrCount (shortURL : ShortURL) : ShortURL :=
  {| ShortCode := ShortCode shortURL;
     OriginalURL := OriginalURL shortURL;
     CreatedAt := CreatedAt shortURL;
     ExpiresAt := ExpiresAt shortURL;
     ClickCount := wrap64 (ClickCount shortURL + 1);
     ClickHistory := ClickHistory shortURL |}.

Definition appendClick (click : Click) (shortURL : ShortURL) : ShortURL :=
  {| ShortCode := ShortCode shortURL;
     OriginalURL := OriginalURL shortURL;
     CreatedAt := CreatedAt shortURL;
     ExpiresAt := ExpiresAt shortURL;
     ClickCount := ClickCount shortURL;
     ClickHistory := ClickHistory shortURL ++ [click] |}.

Inductive caller :=
(* CreateShortURL *)
| AtCreate (req : CreateShortURLRequest) (now : time.Time) (draws : list draw)
| AtGenerate (req : CreateShortURLRequest) (now : time.Time) (draws : list draw)
| AtExistsRLock (req : CreateShortURLRequest) (now : time.Time)
    (draws : list draw) (shortCode : string)
| AtExistsRead (req : CreateShortURLRequest) (now : time.Time)
    (draws : list draw) (shortCode : string)
| AtExistsRUnlock (req : CreateShortURLRequest) (now : time.Time)
    (draws : list draw) (shortCode : string) (found : bool)
| AtStoreLock (shortURL : ShortURL)
| AtStore (shortURL : ShortURL)
| AtStoreUnlock (shortURL : ShortURL)
| CreateReturned (res : result CreateShortURLResponse)
(* GetOriginalURL *)
| AtResolve (shortCode : string) (now : time.Time)
| AtResolveRead (shortCode : string) (now : time.Time)
| AtResolveRUnlock (now : time.Time) (found : option ShortURL)
| ResolveReturned (res : result string)
(* RecordClick *)
| AtClick (shortCode source location : string) (now : time.Time)
| AtClickLookup (shortCode : string) (click : Click)
| AtClickIncr (shortCode : string) (click : Click)
| AtClickAppend (shortCode : string) (click : Click)
| AtClickUnlock (res : option error)
| ClickReturned (res : option error)
(* GetStats *)
| AtStats (shortCode : string)
| AtStatsRead (shortCode : string)
| AtStatsRUnlock (res : result ShortURLStats)
| StatsReturned (res : result ShortURLStats).

Section Steps.

Variable rfc3339 : time.Time -> string.

(** One step of a caller; [None] when it waits for the lock, when the
    generation loop waits for a draw, or when the call has returned. *)
Definition step (t : caller) (m : shared) : option (caller * shared) :=
  match t with
  | AtCreate req now draws =>
    match validateURL (URL req) with
    | Some err => Some (CreateReturned (Err (InvalidURL err)), m)
    | None =>
      if GoString.is_empty (req_ShortCode req) then Some (AtGenerate req now draws, m)
      else
        match validateShortCode (req_ShortCode req) with
        | Some err => Some (CreateReturned (Err (InvalidShortCode err)), m)
        | None => Some (AtExistsRLock req now draws (req_ShortCode req), m)
        end
    end
  | AtGenerate req now draws =>
    match draws with
    | [] => None
    | d :: draws' => Some (AtExistsRLock req now draws' (draw_code d), m)
    end
  | AtExistsRLock req now draws shortCode =>
    match RLock (mutex m) with
    | None => None
    | Some mu => Some (AtExistsRead req now draws shortCode, with_mutex m mu)
    end
  | AtExistsRead req now draws shortCode =>
    Some (AtExistsRUnlock req now draws shortCode
            (shortCodeExists (service m) shortCode), m)
  | AtExistsRUnlock req now draws shortCode found =>
    let m' := with_mutex m (RUnlock (mutex m)) in
    let shortURL := newShortURL shortCode req (effectiveValidity req) now in
    if GoString.is_empty (req_ShortCode req) then
      if negb found then Some (AtStoreLock shortURL, m')
      else Some (AtGenerate req now draws, m')
    else
      if found then Some (CreateReturned (Err CodeCollision), m')
      else Some (AtStoreLock shortURL, m')
  | AtStoreLock shortURL =>
    match Lock (mutex m) with
    | None => None
    | Some mu => Some (AtStore shortURL, with_mutex m mu)
    end
  | AtStore shortURL =>
    Some (AtStoreUnlock shortURL,
          with_urls m (<[ShortCode shortURL := shortURL]> (urls (service m))))
  | AtStoreUnlock shortURL =>
    Some (CreateReturned (Ok (response rfc3339 shortURL)),
          with_mutex m (Unlock (mutex m)))
  | CreateReturned _ => None
  | AtResolve shortCode now =>
    match RLock (mutex m) with
    | None => None
    | Some mu => Some (AtResolveRead shortCode now, with_mutex m mu)
    end
  | AtResolveRead shortCode now =>
    Some (AtResolveRUnlock now (urls (service m) !! shortCode), m)
  | AtResolveRUnlock now found =>
    let m' := with_mutex m (RUnlock (mutex m)) in
    match found with
    | None => Some (ResolveReturned (Err NotFound), m')
    | Some shortURL =>
      if time.After now (ExpiresAt shortURL)
      then Some (ResolveReturned (Err Expired), m')
      else Some (ResolveReturned (Ok (OriginalURL shortURL)), m')
    end
  | ResolveReturned _ => None
  | AtClick shortCode source location now =>
    match Lock (mutex m) with
    | None => None
    | Some mu =>
      Some (AtClickLookup shortCode
              {| Timestamp := now; Source := source; Location := location |},
            with_mutex m mu)
    end
  | AtClickLookup shortCode click =>
    match urls (service m) !! shortCode with
    | None => Some (AtClickUnlock (Some NotFound), m)
    | Some _ => Some (AtClickIncr shortCode click, m)
    end
  | AtClickIncr shortCode click =>
    Some (AtClickAppend shortCode click,
          with_urls m (alter incrCount shortCode (urls (service m))))
  | AtClickAppend shortCode click =>
    Some (AtClickUnlock None,
          with_urls m (alter (appendClick click) shortCode (urls (service m))))
  | AtClickUnlock res =>
    Some (ClickReturned res, with_mutex m (Unlock (mutex m)))
  | ClickReturned _ => None
  | AtStats shortCode =>
    match RLock (mutex m) with
    | None => None
    | Some mu => Some (AtStatsRead shortCode, with_mutex m mu)
    end
  | AtStatsRead shortCode =>
    match urls (service m) !! shortCode with
    | None => Some (AtStatsRUnlock (Err NotFound), m)
    | Some shortURL => Some (AtStatsRUnlock (Ok (stats_of shortURL)), m)
    end
  | AtStatsRUnlock res =>
    Some (StatsReturned res, with_mutex m (RUnlock (mutex m)))
  | StatsReturned _ => None
  end.

(** A caller running alone for [n] steps. *)
Fixpoint steps (n : nat) (t : caller) (m : shared) : caller * shared :=
  match n with
  | O => (t, m)
  | S n' =>
    match step t m with
    | None => (t, m)
    | Some (t', m') => steps n' t' m'
    end
  end.

Record config := {
  callers : list caller;
  mem : shared
}.

(** Caller [i] moves, if it can. *)
Definition sched_step (i : nat) (c : config) : config :=
  match callers c !! i with
  | None => c
  | Some t =>
    match step t (mem c) with
    | None => c
    | Some (t', m') => {| callers := <[i := t']> (callers c); mem := m' |}
    end
  end.

Definition run_sched (sched : list nat) (c : config) : config :=
  fold_left (fun c i => sched_step i c) sched c.

End Steps.

(** The registry with nobody inside. *)
Definition quiet (s : URLService) : shared :=
  {| service := s; mutex := unlocked |}.

Definition start (ts : list caller) (s : URLService) : config :=
  {| callers := ts; mem := quiet s |}.

(** A caller at the entry of a method. *)
Definition entering (t : caller) : bool :=
  match t with
  | AtCreate _ _ _ | AtResolve _ _ | AtClick _ _ _ _ | AtStats _ => true
  | _ => false
  end.

(** A caller between an [RLock] and its [RUnlock]. *)
Definition reading (t : caller) : bool :=
  match t with
  | AtExistsRead _ _ _ _ | AtExistsRUnlock _ _ _ _ _
  | AtResolveRead _ _ | AtResolveRUnlock _ _
  | AtStatsRead _ | AtStatsRUnlock _ => true
  | _ => false
  end.

(** A caller between a [Lock] and its [Unlock]. *)
Definition writing (t : caller) : bool :=
  match t with
  | AtStore _ | AtStoreUnlock _
  | AtClickLookup _ _ | AtClickIncr _ _ | AtClickAppend _ _ | AtClickUnlock _ => true
  | _ => false
  end.

Fixpoint count (p : caller -> bool) (ts : list caller) : nat :=
  match ts with
  | [] => O
  | t :: ts' => ((if p t then 1 else 0) + count p ts')%nat
  end.

(** The lock knows who is inside. *)
Record lock_inv (c : config) : Prop := {
  readers_counted : readers (mutex (mem c)) = count reading (callers c);
  writers_counted :
    count writing (callers c) = if writer (mutex (mem c)) then 1%nat else 0%nat;
  writer_alone : writer (mutex (mem c)) = true -> readers (mutex (mem c)) = 0%nat
}.

(** The entries agree with their histories, but for the entry a
    [RecordClick] is in the middle of; what callers carry is sound. *)
Record data_inv (c : config) : Prop := {
  found_stays : forall i code click,
    callers c !! i = Some (AtClickIncr code click) ->
    is_Some (urls (service (mem c)) !! code);
  half_done : forall i code click,
    callers c !! i = Some (AtClickAppend code click) ->
    exists u, urls (service (mem c)) !! code = Some u
      /\ ClickCount u = wrap64 (Z.of_nat (List.length (ClickHistory u)) + 1);
  entries_ok : forall code u,
    urls (service (mem c)) !! code = Some u ->
    (forall i click, callers c !! i <> Some (AtClickAppend code click)) ->
    count_ok u;
  stores_ok : forall i u,
    callers c !! i = Some (AtStoreLock u) \/ callers c !! i = Some (AtStore u) ->
    count_ok u;
  stats_ok : forall i st,
    callers c !! i = Some (AtStatsRUnlock (Ok st))
    \/ callers c !! i = Some (StatsReturned (Ok st)) ->
    TotalClicks st = wrap64 (Z.of_nat (List.length (Clicks st)))
}.

End Conc.

(** ** The service run on a sequence of calls *)

Inductive op :=
| OpCreate (req : CreateShortURLRequest) (now : time.Time) (draws : list draw)
| OpResolve (shortCode : string) (now : time.Time)
| OpRecordClick (shortCode source location : string) (now : time.Time)
| OpStats (shortCode : string).

Section Runs.

Variable rfc3339 : time.Time -> string.

(** The registry after one call. A [CreateShortURL] whose generation loop
    has not ended has stored nothing. *)
Definition apply_op (o : op) (s : URLService) : URLService :=
  match o with
  | OpCreate req now draws =>
    match CreateShortURL rfc3339 req now draws s with
    | Some (_, s') => s'
    | None => s
    end
  | OpResolve shortCode now => snd (GetOriginalURL shortCode now s)
  | OpRecordClick shortCode source location now =>
    snd (RecordClick shortCode source location now s)
  | OpStats shortCode => snd (GetStats shortCode s)
  end.

Definition run (ops : list op) (s : URLService) : URLService :=
  fold_left (fun s o => apply_op o s) ops s.

End Runs.

(** The clicks that the calls of [RecordClick] on [shortCode] carry, in the
    order of the calls. *)
Fixpoint clicks_on (shortCode : string) (ops : list op) : list Click :=
  match ops with
  | [] => []
  | OpRecordClick c source location now :: ops' =>
    if String.eqb c shortCode
    then {| Timestamp := now; Source := source; Location := location |}
         :: clicks_on shortCode ops'
    else clicks_on shortCode ops'
  | _ :: ops' => clicks_on shortCode ops'
  end.

(** ** Vocabulary of the statements *)

(** A lowercase hexadecimal digit. *)
Definition isLowerHex (a : ascii) : bool :=
  let c := GoString.byte_val a in
  ((48 <=? c) && (c <=? 57)) || ((97 <=? c) && (c <=? 102)).

Fixpoint string_forallb (p : ascii -> bool) (s : string) : bool :=
  match s with
  | EmptyString => true
  | String a s' => p a && string_forallb p s'
  end.

(** The reading of the specification's words for [validateURL], "parsed as
    a structurally valid URL (scheme + host present)": the parser accepts
    the string and the result has a scheme and a host. *)
Definition spec_structurallyValid (s : string) : bool :=
  match url.Parse s with
  | Some u => negb (GoString.is_empty (url.Scheme u))
              && negb (GoString.is_empty (url.Host u))
  | None => false
  end.

(** A rendering of instants, for the examples. *)
Definition sample_rfc3339 (t : time.Time) : string := "2024-01-20T15:30:00Z".

(** ** handlers.go

    A request is what the handlers read of an [*http.Request]; what a
    handler writes is the call it makes on the [http.ResponseWriter]. The
    decoding of the body ([json.Unmarshal]) is a parameter of the handler
    that uses it. *)

(** [strings.TrimPrefix(s, prefix)] *)
Definition TrimPrefix (s prefix : string) : string :=
  if GoString.HasPrefix s prefix
  then GoString.drop (String.length prefix) s
  else s.

(** [r.Method], [r.URL.Path], the result of [io.ReadAll(r.Body)] ([None]
    for an error) and [r.Header.Get("Referer")] (empty when there is no
    such header). *)
Record HttpRequest := {
  Method : string;
  URLPath : string;
  Body : option string;
  Referer : string
}.

Record ErrorResponse := {
  Error : string;
  Message : string
}.

(** What a handler encodes as JSON. *)
Inductive payload :=
| JsonError (e : ErrorResponse)
| JsonCreated (resp : CreateShortURLResponse)
| JsonStats (stats : ShortURLStats)
| JsonHealth (status message time : string).

(** What a handler writes: nothing, [http.Error(w, message, code)], a JSON
    body after [Content-Type: application/json] and [WriteHeader(code)], or
    [http.Redirect(w, r, target, code)]. *)
Inductive written :=
| Nothing
| HttpError (message : string) (code : Z)
| Json (code : Z) (body : payload)
| HttpRedirect (target : string) (code : Z).

(** [http.StatusText]: the text of a status code, empty for a code it does
    not know. *)
Definition StatusText (code : Z) : string :=
  match code with
  | 100 => "Continue"
  | 101 => "Switching Protocols"
  | 102 => "Processing"
  | 103 => "Early Hints"
  | 200 => "OK"
  | 201 => "Created"
  | 202 => "Accepted"
  | 203 => "Non-Authoritative Information"
  | 204 => "No Content"
  | 205 => "Reset Content"
  | 206 => "Partial Content"
  | 207 => "Multi-Status"
  | 208 => "Already Reported"
  | 226 => "IM Used"
  | 300 => "Multiple Choices"
  | 301 => "Moved Permanently"
  | 302 => "Found"
  | 303 => "See Other"
  | 304 => "Not Modified"
  | 305 => "Use Proxy"
  | 307 => "Temporary Redirect"
  | 308 => "Permanent Redirect"
  | 400 => "Bad Request"
  | 401 => "Unauthorized"
  | 402 => "Payment Required"
  | 403 => "Forbidden"
  | 404 => "Not Found"
  | 405 => "Method Not Allowed"
  | 406 => "Not Acceptable"
  | 407 => "Proxy Authentication Required"
  | 408 => "Request Timeout"
  | 409 => "Conflict"
  | 410 => "Gone"
  | 411 => "Length Required"
  | 412 => "Precondition Failed"
  | 413 => "Request Entity Too Large"
  | 414 => "Request URI Too Long"
  | 415 => "Unsupported Media Type"
  | 416 => "Requested Range Not Satisfiable"
  | 417 => "Expectation Failed"
  | 418 => "I'm a teapot"
  | 421 => "Misdirected Request"
  | 422 => "Unprocessable Entity"
  | 423 => "Locked"
  | 424 => "Failed Dependency"
  | 425 => "Too Early"
  | 426 => "Upgrade Required"
  | 428 => "Precondition Required"
  | 429 => "Too Many Requests"
  | 431 => "Request Header Fields Too Large"
  | 451 => "Unavailable For Legal Reasons"
  | 500 => "Internal Server Error"
  | 501 => "Not Implemented"
  | 502 => "Bad Gateway"
  | 503 => "Service Unavailable"
  | 504 => "Gateway Timeout"
  | 505 => "HTTP Version Not Supported"
  | 506 => "Variant Also Negotiates"
  | 507 => "Insufficient Storage"
  | 508 => "Loop Detected"
  | 510 => "Not Extended"
  | 511 => "Network Authentication Required"
  | _ => ""
  end.

Module URLHandler.

Definition sendErrorResponse (message : string) (statusCode : Z) : written :=
  Json statusCode
       (JsonError {| Error := StatusText statusCode; Message := message |}).

Section Handlers.

Variable rfc3339 : time.Time -> string.

(** [json.Unmarshal(body, &req)]; [None] for an error. *)
Variable Unmarshal : string -> option CreateShortURLRequest.

(** POST /shorturls. [None]: the generation loop of the service has not
    ended with the draws given. *)
Definition CreateShortURL (r : HttpRequest) (now : time.Time) (draws : list draw)
    (s : URLService) : option (written * URLService) :=
  if negb (String.eqb (Method r) "POST") then
    Some (HttpError "Method not allowed" 405, s)
  else
    match Body r with
    | None => Some (sendErrorResponse "Failed to read request body" 400, s)
    | Some body =>
      match Unmarshal body with
      | None => Some (sendErrorResponse "Invalid JSON" 400, s)
      | Some req =>
        if GoString.is_empty (URL req) then
          Some (sendErrorResponse "URL is required" 400, s)
        else
          match CreateShortURL rfc3339 req now draws s with
          | None => None
          | Some (Err err, s') => Some (sendErrorResponse err 400, s')
          | Some (Ok resp, s') => Some (Json 201 (JsonCreated resp), s')
          end
      end
    end.

(** GET /:shortcode. [now1] is the clock as [GetOriginalURL] reads it,
    [now2] as [RecordClick] does. *)
Definition RedirectURL (r : HttpRequest) (now1 now2 : time.Time) (s : URLService)
  : written * URLService :=
  let shortCode := TrimPrefix (URLPath r) "/" in
  if String.eqb shortCode "shorturls" || String.eqb shortCode "health" then
    (Nothing, s)
  else
    match GetOriginalURL shortCode now1 s with
    | (Err _, s1) => (sendErrorResponse "Short URL not found or expired" 404, s1)
    | (Ok originalURL, s1) =>
      let source := if GoString.is_empty (Referer r) then "direct" else Referer r in
      let location := "unknown" in
      let '(_, s2) := RecordClick shortCode source location now2 s1 in
      (HttpRedirect originalURL 301, s2)
    end.

(** GET /shorturls/:shortcode *)
Definition GetStats (r : HttpRequest) (s : URLService) : written * URLService :=
  let shortCode := TrimPrefix (URLPath r) "/shorturls/" in
  if GoString.is_empty shortCode then
    (sendErrorResponse "Shortcode is required" 400, s)
  else
    match GetStats shortCode s with
    | (Err err, s') => (sendErrorResponse err 404, s')
    | (Ok stats, s') => (Json 200 (JsonStats stats), s')
    end.

(** GET /health *)
Definition HealthCheck (now : time.Time) : written :=
  Json 200 (JsonHealth "healthy" "URL Shortener service is running" (rfc3339 now)).

End Handlers.

End URLHandler.

(** ** Vocabulary of the further statements *)

(** Every entry sits under its own code, and the code is one that
    [validateShortCode] accepts. *)
Definition keys_ok (s : URLService) : Prop :=
  forall code shortURL, urls s !! code = Some shortURL ->
    ShortCode shortURL = code /\ validateShortCode code = None.

(** The two words [RedirectURL] passes over. *)
Definition reserved (shortCode : string) : bool :=
  String.eqb shortCode "shorturls" || String.eqb shortCode "health".

(** The click [RedirectURL] records for a request. *)
Definition click_of (r : HttpRequest) (now : time.Time) : Click :=
  {| Timestamp := now;
     Source := if GoString.is_empty (Referer r) then "direct" else Referer r;
     Location := "unknown" |}.

(** The answer of [RedirectURL] to a code it does not resolve. *)
Definition not_found_or_expired : written :=
  Json 404 (JsonError {| Error := "Not Found";
                         Message := "Short URL not found or expired" |}).

(** A caller whose call has returned. *)
Definition returned (t : Conc.caller) : bool :=
  match t with
  | Conc.CreateReturned _ | Conc.ResolveReturned _
  | Conc.ClickReturned _ | Conc.StatsReturned _ => true
  | _ => false
  end.

(** A caller about to call [Lock], and one about to call [RLock]. In
    [sync.RWMutex] a call of [RLock] waits while a writer holds the lock
    and also while a call of [Lock] is waiting; [Conc.RLock] grants the
    read lock in the second case too, so the model has every schedule of
    the program and some more. *)
Definition at_lock (t : Conc.caller) : bool :=
  match t with
  | Conc.AtStoreLock _ | Conc.AtClick _ _ _ _ => true
  | _ => false
  end.

Definition at_rlock (t : Conc.caller) : bool :=
  match t with
  | Conc.AtExistsRLock _ _ _ _ | Conc.AtResolve _ _ | Conc.AtStats _ => true
  | _ => false
  end.

(** The generation loop at its head with no draw left to take. *)
Definition out_of_draws (t : Conc.caller) : bool :=
  match t with
  | Conc.AtGenerate _ _ [] => true
  | _ => false
  end.

(** A decoder for the examples: the body is the URL, the validity is 60
    and the custom code is [abcd]. *)
Definition sample_Unmarshal (body : string) : option CreateShortURLRequest :=
  Some {| URL := body; Validity := 60; req_ShortCode := "abcd" |}.


(** A sequence of calls of [RedirectURL], each with its request and its
    two readings of the clock. *)
Definition redirect_all (hits : list (HttpRequest * time.Time * time.Time))
    (s : URLService) : URLService :=
  fold_left (fun s '(r, now1, now2) => snd (URLHandler.RedirectURL r now1 now2 s))
            hits s.

(** The click a caller has still to append to the history of [code]: none
    once it has appended it, and none for a caller of another method or on
    another code. *)
Definition pending (code : string) (t : Conc.caller) : list Click :=
  match t with
  | Conc.AtClick shortCode source location now =>
    if String.eqb shortCode code
    then [{| Timestamp := now; Source := source; Location := location |}]
    else []
  | Conc.AtClickLookup shortCode click
  | Conc.AtClickIncr shortCode click
  | Conc.AtClickAppend shortCode click =>
    if String.eqb shortCode code then [click] else []
  | _ => []
  end.

(** A caller that is not about to store an entry under [code]. *)
Definition keeps (code : string) (t : Conc.caller) : bool :=
  match t with
  | Conc.AtExistsRUnlock _ _ _ shortCode found =>
    negb (String.eqb shortCode code) || found
  | Conc.AtStoreLock shortURL | Conc.AtStore shortURL =>
    negb (String.eqb (ShortCode shortURL) code)
  | _ => true
  end.

(** The value of a digit of [hex.hextable]. *)
Definition fromHexChar (a : ascii) : Z :=
  let c := GoString.byte_val a in
  if (48 <=? c) && (c <=? 57) then c - 48
  else if (97 <=? c) && (c <=? 102) then c - 97 + 10
  else 0.

(** * Properties *)

(** ** Arithmetic of [int64] *)

Lemma wrap64_small (x : Z) : min_int <= x <= max_int -> wrap64 x = x.
Proof.
  unfold wrap64, min_int, max_int. intros H.
  rewrite Z.mod_small by lia. lia.
Qed.

Lemma minutes_exact (v : Z) :
  0 <= v <= 153722867 -> time.minutes v = v * 60000000000.
Proof.
  intros H. unfold time.minutes, time.Minute.
  rewrite wrap64_small; unfold min_int, max_int; lia.
Qed.

(** ** Validation *)

Lemma is_empty_true (s : string) : GoString.is_empty s = true <-> s = "".
Proof. destruct s; simpl; split; congruence. Qed.

Lemma is_empty_false (s : string) : GoString.is_empty s = false <-> s <> "".
Proof. destruct s; simpl; split; congruence. Qed.

Lemma checkAlnum_None (rs : list Z) :
  checkAlnum rs = None <-> forallb isAlnum rs = true.
Proof.
  induction rs as [|c rs IH]; simpl; [tauto|].
  destruct (isAlnum c); simpl; [exact IH|].
  split; discriminate.
Qed.

Lemma checkAlnum_Some (rs : list Z) :
  forallb isAlnum rs = false -> checkAlnum rs = Some NonAlphanumeric.
Proof.
  induction rs as [|c rs IH]; simpl; [discriminate|].
  destruct (isAlnum c); simpl; auto.
Qed.

Lemma validateShortCode_length (code : string) :
  GoString.len code < 4 \/ 20 < GoString.len code ->
  validateShortCode code = Some BadLength.
Proof.
  intros H. unfold validateShortCode.
  destruct (GoString.len code <? 4) eqn:E1; [reflexivity|].
  destruct (GoString.len code >? 20) eqn:E2; [reflexivity|].
  apply Z.ltb_ge in E1. rewrite Z.gtb_ltb in E2. apply Z.ltb_ge in E2. lia.
Qed.

Lemma validateShortCode_in_range (code : string) :
  4 <= GoString.len code <= 20 ->
  validateShortCode code = checkAlnum (Utf8.runes code).
Proof.
  intros [H1 H2]. unfold validateShortCode.
  apply Z.ltb_ge in H1 as ->.
  replace (GoString.len code >? 20) with false; [reflexivity|].
  symmetry. rewrite Z.gtb_ltb. apply Z.ltb_ge. lia.
Qed.

Lemma validateURL_empty : validateURL "" = Some EmptyURL.
Proof. reflexivity. Qed.

Lemma validateURL_nonempty (rawURL : string) :
  rawURL <> "" ->
  validateURL rawURL =
    match url.Parse (addProtocol rawURL) with
    | None => Some MalformedURL
    | Some _ => None
    end.
Proof.
  intros H. unfold validateURL.
  apply is_empty_false in H. now rewrite H.
Qed.

(** ** Code generation *)

Lemma hex_digits_of_byte (b : Byte.byte) :
  isLowerHex (hex.digit (Z.shiftr (Z.of_N (Byte.to_N b)) 4)) = true
  /\ isLowerHex (hex.digit (Z.land (Z.of_N (Byte.to_N b)) 15)) = true.
Proof. destruct b; vm_compute; split; reflexivity. Qed.

Lemma draw_code_length (d : draw) : String.length (draw_code d) = 8%nat.
Proof. destruct d as [[[b0 b1] b2] b3]. reflexivity. Qed.

Lemma draw_code_hex (d : draw) : string_forallb isLowerHex (draw_code d) = true.
Proof.
  destruct d as [[[b0 b1] b2] b3]. unfold draw_code, draw_bytes.
  cbn [hex.EncodeToString GoString.take string_forallb].
  destruct (hex_digits_of_byte b0) as [-> ->].
  destruct (hex_digits_of_byte b1) as [-> ->].
  destruct (hex_digits_of_byte b2) as [-> ->].
  destruct (hex_digits_of_byte b3) as [-> ->].
  reflexivity.
Qed.

Lemma draw_code_nonempty (d : draw) : draw_code d <> "".
Proof.
  intros H. pose proof (draw_code_length d) as L. rewrite H in L. discriminate.
Qed.

Lemma shortCodeExists_false (s : URLService) (code : string) :
  shortCodeExists s code = false <-> urls s !! code = None.
Proof.
  unfold shortCodeExists. destruct (urls s !! code); split; congruence.
Qed.

Lemma shortCodeExists_true (s : URLService) (code : string) :
  shortCodeExists s code = true <-> is_Some (urls s !! code).
Proof.
  unfold shortCodeExists. destruct (urls s !! code) eqn:E; split;
    intros H; try reflexivity; try discriminate; eauto.
  destruct H as [x H]. discriminate.
Qed.

(** The loop returns the code of the first draw that is not in the map. *)
Lemma generateShortCode_first (s : URLService) (pre post : list draw) (d : draw) :
  Forall (fun d' => shortCodeExists s (draw_code d') = true) pre ->
  shortCodeExists s (draw_code d) = false ->
  generateShortCode (pre ++ d :: post)%list s = Some (draw_code d).
Proof.
  intros Hpre Hd. induction Hpre as [|d' pre' Hd' _ IH]; simpl.
  - now rewrite Hd.
  - now rewrite Hd'.
Qed.

Lemma generateShortCode_Some (s : URLService) (draws : list draw) (code : string) :
  generateShortCode draws s = Some code ->
  exists pre d post,
    draws = (pre ++ d :: post)%list /\ code = draw_code d
    /\ Forall (fun d' => shortCodeExists s (draw_code d') = true) pre
    /\ shortCodeExists s code = false.
Proof.
  induction draws as [|d draws IH]; simpl; [discriminate|].
  destruct (shortCodeExists s (draw_code d)) eqn:E; simpl.
  - intros H. destruct (IH H) as (pre & d0 & post & -> & -> & Hpre & Hd0).
    exists (d :: pre), d0, post. repeat split; auto.
  - intros [= <-]. exists [], d, draws. repeat split; auto.
Qed.

Lemma generateShortCode_None (s : URLService) (draws : list draw) :
  generateShortCode draws s = None <->
  Forall (fun d => shortCodeExists s (draw_code d) = true) draws.
Proof.
  induction draws as [|d draws IH]; simpl.
  - split; [constructor | reflexivity].
  - destruct (shortCodeExists s (draw_code d)) eqn:E; simpl.
    + rewrite IH. split; [now constructor | now inversion 1].
    + split; [discriminate | inversion 1; congruence].
Qed.

(** ** CreateShortURL *)

Section CreateFacts.

Variable rfc3339 : time.Time -> string.

Lemma chooseShortCode_fresh (req : CreateShortURLRequest) (draws : list draw)
    (s : URLService) (code : string) :
  chooseShortCode req draws s = Some (Ok code) -> urls s !! code = None.
Proof.
  unfold chooseShortCode.
  destruct (GoString.is_empty (req_ShortCode req)).
  - destruct (generateShortCode draws s) as [c|] eqn:G; simpl; [|discriminate].
    intros [= <-]. apply generateShortCode_Some in G.
    destruct G as (_ & _ & _ & _ & _ & _ & G). now apply shortCodeExists_false.
  - destruct (validateShortCode (req_ShortCode req)); [discriminate|].
    destruct (shortCodeExists s (req_ShortCode req)) eqn:E; [discriminate|].
    intros [= <-]. now apply shortCodeExists_false.
Qed.

Lemma chooseShortCode_Err (req : CreateShortURLRequest) (draws : list draw)
    (s : URLService) (e : error) :
  chooseShortCode req draws s = Some (Err e) ->
  req_ShortCode req <> ""
  /\ (e = CodeCollision /\ validateShortCode (req_ShortCode req) = None
        /\ is_Some (urls s !! req_ShortCode req)
      \/ exists e', validateShortCode (req_ShortCode req) = Some e'
                    /\ e = InvalidShortCode e').
Proof.
  unfold chooseShortCode.
  destruct (GoString.is_empty (req_ShortCode req)) eqn:E.
  - destruct (generateShortCode draws s); discriminate.
  - apply is_empty_false in E. intros H. split; [exact E|]. revert H.
    destruct (validateShortCode (req_ShortCode req)) as [e'|].
    + intros [= <-]. right. eauto.
    + destruct (shortCodeExists s (req_ShortCode req)) eqn:X; [|discriminate].
      intros [= <-]. left. repeat split. now apply shortCodeExists_true.
Qed.

(** What a successful [CreateShortURL] has done. *)
Lemma CreateShortURL_Ok (req : CreateShortURLRequest) (now : time.Time)
    (draws : list draw) (s s' : URLService) (resp : CreateShortURLResponse) :
  CreateShortURL rfc3339 req now draws s = Some (Ok resp, s') ->
  exists code,
    let shortURL := newShortURL code req (effectiveValidity req) now in
    validateURL (URL req) = None
    /\ chooseShortCode req draws s = Some (Ok code)
    /\ urls s !! code = None
    /\ resp = response rfc3339 shortURL
    /\ s' = {| urls := <[code := shortURL]> (urls s) |}.
Proof.
  unfold CreateShortURL.
  destruct (validateURL (URL req)); [discriminate|].
  destruct (chooseShortCode req draws s) as [[code|e]|] eqn:C; try discriminate.
  intros [= <- <-]. exists code. cbn zeta. repeat split; auto.
  eapply chooseShortCode_fresh; eauto.
Qed.

(** A failing [CreateShortURL] leaves the registry as it was. *)
Lemma CreateShortURL_Err (req : CreateShortURLRequest) (now : time.Time)
    (draws : list draw) (s s' : URLService) (e : error) :
  CreateShortURL rfc3339 req now draws s = Some (Err e, s') -> s' = s.
Proof.
  unfold CreateShortURL.
  destruct (validateURL (URL req)); [now intros [= _ <-]|].
  destruct (chooseShortCode req draws s) as [[code|e']|]; try discriminate.
  now intros [= _ <-].
Qed.

End CreateFacts.

(** ** Resolve, record a click, statistics *)

(** C2. [GetOriginalURL] fails with [NotFound] for a code that is not in
    the map; for a code in the map it fails with [Expired] when the clock
    is strictly after [ExpiresAt], and the entry then stays in the map as
    it is; otherwise it returns the stored [OriginalURL]. In every case
    the registry after the call is the registry before it, so no click is
    recorded. *)
Theorem GetOriginalURL_spec (shortCode : string) (now : time.Time) (s : URLService) :
  snd (GetOriginalURL shortCode now s) = s
  /\ (urls s !! shortCode = None ->
      GetOriginalURL shortCode now s = (Err NotFound, s))
  /\ (forall shortURL, urls s !! shortCode = Some shortURL ->
      (ExpiresAt shortURL < now ->
         GetOriginalURL shortCode now s = (Err Expired, s)
         /\ urls (snd (GetOriginalURL shortCode now s)) !! shortCode = Some shortURL)
      /\ (now <= ExpiresAt shortURL ->
         GetOriginalURL shortCode now s = (Ok (OriginalURL shortURL), s))).
Proof.
  unfold GetOriginalURL, time.After.
  destruct (urls s !! shortCode) as [u|] eqn:L.
  - split; [destruct (ExpiresAt u <? now); reflexivity|].
    split; [discriminate|].
    intros u' [= <-]. split; intros H.
    + apply Z.ltb_lt in H. rewrite H. simpl. auto.
    + apply Z.ltb_ge in H. now rewrite H.
  - split; [reflexivity|]. split; [reflexivity|]. discriminate.
Qed.

Lemma RecordClick_present (shortCode source location : string) (now : time.Time)
    (s : URLService) (shortURL : ShortURL) :
  urls s !! shortCode = Some shortURL ->
  RecordClick shortCode source location now s
  = (None, {| urls := <[shortCode :=
                 clicked shortURL {| Timestamp := now; Source := source;
                                     Location := location |}]> (urls s) |}).
Proof. intros L. unfold RecordClick. now rewrite L. Qed.

Lemma RecordClick_absent (shortCode source location : string) (now : time.Time)
    (s : URLService) :
  urls s !! shortCode = None ->
  RecordClick shortCode source location now s = (Some NotFound, s).
Proof. intros L. unfold RecordClick. now rewrite L. Qed.

Lemma GetStats_present (shortCode : string) (s : URLService) (shortURL : ShortURL) :
  urls s !! shortCode = Some shortURL ->
  GetStats shortCode s = (Ok (stats_of shortURL), s).
Proof. intros L. unfold GetStats. now rewrite L. Qed.

Section StatsFacts.

Variable rfc3339 : time.Time -> string.

(** C6. [GetStats] fails, with [NotFound], exactly for the codes that are
    not in the map; for a code in the map it returns the counter, the two
    instants and the history of the entry as they are, with no look at the
    clock, so also after [ExpiresAt]; the registry stays as it is. Right
    after a successful [CreateShortURL] the statistics of the new code show
    0 clicks. *)
Theorem GetStats_spec (shortCode : string) (s : URLService) :
  (urls s !! shortCode = None -> GetStats shortCode s = (Err NotFound, s))
  /\ (forall e, fst (GetStats shortCode s) = Err e ->
      urls s !! shortCode = None /\ e = NotFound)
  /\ (forall shortURL, urls s !! shortCode = Some shortURL ->
      GetStats shortCode s
      = (Ok {| TotalClicks := ClickCount shortURL;
               stats_CreatedAt := CreatedAt shortURL;
               stats_ExpiresAt := ExpiresAt shortURL;
               Clicks := ClickHistory shortURL |}, s))
  /\ snd (GetStats shortCode s) = s
  /\ (forall req now draws s0 resp,
      CreateShortURL rfc3339 req now draws s0 = Some (Ok resp, s) ->
      exists code st,
        ShortLink resp = "http://localhost:3000/" ++ code
        /\ GetStats code s = (Ok st, s)
        /\ TotalClicks st = 0
        /\ Clicks st = []).
Proof.
  repeat split.
  - intros L. unfold GetStats. now rewrite L.
  - unfold GetStats in H. destruct (urls s !! shortCode); [discriminate|reflexivity].
  - unfold GetStats in H. destruct (urls s !! shortCode); [discriminate|].
    simpl in H. congruence.
  - intros u L. unfold GetStats. now rewrite L.
  - unfold GetStats. destruct (urls s !! shortCode); reflexivity.
  - intros req now draws s0 resp H.
    apply CreateShortURL_Ok in H. destruct H as (code & _ & _ & _ & -> & ->).
    exists code. eexists. split; [reflexivity|].
    split; [|split].
    + apply GetStats_present. simpl. apply lookup_insert_eq.
    + reflexivity.
    + reflexivity.
Qed.

End StatsFacts.

(** ** Validation of URLs and of short codes *)

Lemma addProtocol_missing (rawURL : string) :
  GoString.HasPrefix rawURL "http://" = false ->
  GoString.HasPrefix rawURL "https://" = false ->
  addProtocol rawURL = "https://" ++ rawURL.
Proof. intros H1 H2. unfold addProtocol. now rewrite H1, H2. Qed.

Lemma addProtocol_present (rawURL : string) :
  GoString.HasPrefix rawURL "http://" = true
  \/ GoString.HasPrefix rawURL "https://" = true ->
  addProtocol rawURL = rawURL.
Proof.
  intros [H|H]; unfold addProtocol; rewrite H; simpl; [reflexivity|].
  now rewrite andb_false_r.
Qed.

(** *** The scheme of what the parser returns *)

Lemma prefix_app (p s : string) :
  String.prefix p s = true -> exists t, s = p ++ t.
Proof.
  revert s. induction p as [|a p IH]; intros s; simpl.
  - exists s. reflexivity.
  - destruct s as [|b s]; [discriminate|]. simpl.
    destruct (Ascii.ascii_dec a b) as [E|]; [subst b|discriminate].
    intros H. destruct (IH s H) as [t ->]. exists t. reflexivity.
Qed.

Lemma addProtocol_cases (rawURL : string) :
  exists t, addProtocol rawURL = "http://" ++ t \/ addProtocol rawURL = "https://" ++ t.
Proof.
  unfold addProtocol, GoString.HasPrefix.
  destruct (String.prefix "http://" rawURL) eqn:P1; simpl.
  - destruct (prefix_app _ _ P1) as [t ->]. eauto.
  - destruct (String.prefix "https://" rawURL) eqn:P2; simpl.
    + destruct (prefix_app _ _ P2) as [t ->]. eauto.
    + eauto.
Qed.

(** A URL that [parse] returns has the scheme [getScheme] found, in lower
    case; the string ["*"] apart. *)
Lemma parse_scheme (rawURL : string) (u : url.URL) :
  url.parse rawURL = Some u ->
  String.eqb rawURL "*" = false ->
  exists scheme0 rest0,
    url.getScheme rawURL = Some (scheme0, rest0)
    /\ url.Scheme u = GoString.ToLower scheme0.
Proof.
  unfold url.parse. intros H Hstar. rewrite Hstar in H.
  destruct (url.stringContainsCTLByte rawURL); [discriminate|].
  destruct (url.getScheme rawURL) as [[scheme0 rest0]|]; [|discriminate].
  exists scheme0, rest0. split; [reflexivity|].
  cbv zeta in H.
  destruct (if (GoString.HasSuffixByte rest0 "?" && (GoString.CountByte rest0 "?" =? 1)%nat)%bool
            then _ else _) as [[rest1 rawQuery] forceQuery].
  repeat match type of H with
  | (if ?b then _ else _) = _ => destruct b
  | match ?x with _ => _ end = _ => destruct x as [[? ?]|]
  | match ?x with _ => _ end = _ => destruct x as [?|]
  | match ?x with _ => _ end = _ => destruct x as [? ?]
  end; try discriminate; injection H as <-; reflexivity.
Qed.

Lemma parse_keeps_scheme (scheme rest : string) (u : url.URL) :
  (scheme = "http" \/ scheme = "https") ->
  url.parse (scheme ++ "://" ++ rest) = Some u -> url.Scheme u = scheme.
Proof.
  intros Hs P. apply parse_scheme in P.
  - destruct P as (scheme0 & rest0 & G & ->).
    destruct Hs as [-> | ->]; injection G as <- _; reflexivity.
  - destruct Hs as [-> | ->]; reflexivity.
Qed.

Lemma Cut_keeps_prefix (scheme rest : string) :
  (scheme = "http" \/ scheme = "https") ->
  exists rest', fst (fst (GoString.Cut (scheme ++ "://" ++ rest) "#"))
                = scheme ++ "://" ++ rest'.
Proof.
  intros [-> | ->]; unfold GoString.Cut;
    cbv beta iota fix delta [String.append]; simpl;
    destruct (GoString.IndexByte rest "#") as [i|]; simpl;
    eexists; reflexivity.
Qed.

Lemma Parse_keeps_scheme (scheme rest : string) (u : url.URL) :
  (scheme = "http" \/ scheme = "https") ->
  url.Parse (scheme ++ "://" ++ rest) = Some u -> url.Scheme u = scheme.
Proof.
  intros Hs. unfold url.Parse.
  destruct (Cut_keeps_prefix scheme rest Hs) as [rest' E].
  destruct (GoString.Cut (scheme ++ "://" ++ rest) "#") as [[before frag] found].
  simpl in E. subst before.
  destruct (url.parse (scheme ++ "://" ++ rest')) as [u0|] eqn:P; [|discriminate].
  apply parse_keeps_scheme in P; [|exact Hs].
  destruct (GoString.is_empty frag); [now intros [= <-]|].
  destruct (url.unescape frag url.encodeFragment); [|discriminate].
  intros [= <-]. exact P.
Qed.

(** Whatever [validateURL] accepts has the scheme [http] or [https]. *)
Lemma validateURL_scheme (rawURL : string) (u : url.URL) :
  url.Parse (addProtocol rawURL) = Some u ->
  url.Scheme u = "http" \/ url.Scheme u = "https".
Proof.
  destruct (addProtocol_cases rawURL) as [t [E|E]]; rewrite E; intros P.
  - left. apply (Parse_keeps_scheme "http" t); auto.
  - right. apply (Parse_keeps_scheme "https" t); auto.
Qed.

(** C8, as the code has it. [validateURL] fails with [EmptyURL] for the
    empty string and for no other; a non-empty string that starts with
    neither [http://] nor [https://] is parsed with [https://] before it,
    another one as it is; the function fails with [MalformedURL] exactly
    when [url.Parse] rejects that string and accepts otherwise. Nothing of
    the parsed URL is looked at: what is accepted has the scheme [http] or
    [https], by the prefix, and a host is not asked for. *)
Theorem validateURL_spec (rawURL : string) :
  validateURL "" = Some EmptyURL
  /\ (rawURL <> "" ->
      (GoString.HasPrefix rawURL "http://" = false ->
       GoString.HasPrefix rawURL "https://" = false ->
       addProtocol rawURL = "https://" ++ rawURL)
      /\ (GoString.HasPrefix rawURL "http://" = true
          \/ GoString.HasPrefix rawURL "https://" = true ->
          addProtocol rawURL = rawURL)
      /\ (validateURL rawURL = Some MalformedURL
          <-> url.Parse (addProtocol rawURL) = None)
      /\ (validateURL rawURL = None
          <-> is_Some (url.Parse (addProtocol rawURL)))
      /\ validateURL rawURL <> Some EmptyURL
      /\ (forall u, url.Parse (addProtocol rawURL) = Some u ->
          url.Scheme u = "http" \/ url.Scheme u = "https")).
Proof.
  split; [reflexivity|]. intros Hne.
  split; [apply addProtocol_missing|].
  split; [apply addProtocol_present|].
  rewrite (validateURL_nonempty _ Hne).
  split; [|split; [|split]].
  - destruct (url.Parse (addProtocol rawURL)) as [u|];
      split; try discriminate; auto.
  - destruct (url.Parse (addProtocol rawURL)) as [u|]; split; try discriminate; eauto.
    intros [u H]. discriminate.
  - destruct (url.Parse (addProtocol rawURL)) as [u|]; discriminate.
  - apply validateURL_scheme.
Qed.

(** C8 as stated fails at ["https://"]: the parser accepts it with an
    empty host, so the string is not a URL with scheme and host, and yet
    [validateURL] does not fail. *)
Lemma validateURL_accepts_empty_host :
  addProtocol "https://" = "https://"
  /\ (exists u, url.Parse "https://" = Some u
               /\ url.Scheme u = "https" /\ url.Host u = "")
  /\ spec_structurallyValid (addProtocol "https://") = false
  /\ validateURL "https://" = None
  /\ ~ (validateURL "https://" = Some MalformedURL
        <-> spec_structurallyValid (addProtocol "https://") = false).
Proof.
  split; [reflexivity|].
  split; [eexists; split; [reflexivity|split; reflexivity]|].
  split; [reflexivity|]. split; [reflexivity|].
  intros [_ H]. specialize (H eq_refl). vm_compute in H. discriminate.
Qed.

(** *** Runes and bytes *)

Lemma isAlnum_high (r : Z) : 128 <= r -> isAlnum r = false.
Proof.
  intros H. unfold isAlnum.
  apply not_true_is_false. intros A.
  repeat (apply orb_true_iff in A as [A|A]);
    apply andb_true_iff in A as [_ A]; apply Z.leb_le in A; lia.
Qed.

Lemma lor_high (a b : Z) :
  0 <= a -> 0 <= b -> 128 <= a \/ 128 <= b -> 128 <= Z.lor a b.
Proof.
  intros Ha Hb H.
  assert (L : 7 <= Z.log2 (Z.lor a b)).
  { rewrite Z.log2_lor by assumption.
    destruct H as [H|H]; apply Z.log2_le_mono in H;
      change (Z.log2 128) with 7 in H; lia. }
  destruct (Z.le_gt_cases (Z.lor a b) 0) as [N|P].
  - rewrite Z.log2_nonpos in L by exact N. lia.
  - pose proof (Z.log2_spec _ P) as [S _].
    assert (2 ^ 7 <= 2 ^ Z.log2 (Z.lor a b)) by (apply Z.pow_le_mono_r; lia).
    change (2 ^ 7) with 128 in *. lia.
Qed.

Lemma lead_spec (b0 : Z) (sz : nat) (lo hi : Z) :
  Utf8.lead b0 = Some (sz, lo, hi) ->
  (sz = 2%nat /\ 194 <= b0 <= 223)
  \/ (sz = 3%nat /\ (b0 = 224 /\ lo = 160 /\ hi = 191 \/ 225 <= b0 <= 239))
  \/ (sz = 4%nat /\ (b0 = 240 /\ lo = 144 /\ hi = 191 \/ 241 <= b0 <= 244)).
Proof.
  unfold Utf8.lead.
  repeat match goal with
  | |- context [if ?c then _ else _] =>
    let E := fresh "E" in destruct c eqn:E
  end; intros [= <- <- <-];
  repeat match goal with
  | E : (_ && _)%bool = true |- _ => apply andb_true_iff in E as [? ?]
  | E : (_ <=? _) = true |- _ => apply Z.leb_le in E
  | E : (_ =? _) = true |- _ => apply Z.eqb_eq in E
  end; lia.
Qed.

Ltac bits_to_arith :=
  rewrite ?Z.shiftl_mul_pow2 by lia;
  change 31 with (Z.ones 5); change 15 with (Z.ones 4); change 7 with (Z.ones 3);
  change 63 with (Z.ones 6);
  rewrite ?Z.land_ones by lia;
  change (2 ^ 3) with 8; change (2 ^ 4) with 16; change (2 ^ 5) with 32;
  change (2 ^ 6) with 64; change (2 ^ 12) with 4096; change (2 ^ 18) with 262144.

Ltac lia_mod := Z.to_euclidean_division_equations; lia.

Ltac lor_nonneg := repeat (apply Z.lor_nonneg; split); lia_mod.

(** A sequence that starts with a byte outside ASCII decodes to a rune
    outside ASCII. *)
Lemma DecodeRune_high (b0 : Z) (rest : list Z) :
  128 <= b0 -> 128 <= fst (Utf8.DecodeRune (b0 :: rest)).
Proof.
  intros H. unfold Utf8.DecodeRune, Utf8.cont, Utf8.RuneError.
  replace (b0 <? 128) with false by (symmetry; apply Z.ltb_ge; lia).
  destruct (Utf8.lead b0) as [[[sz lo] hi]|] eqn:Lead; [|simpl; lia].
  apply lead_spec in Lead.
  destruct rest as [|b1 rest1]; [simpl; lia|].
  destruct ((b1 <? lo) || (hi <? b1))%bool eqn:B1; [simpl; lia|].
  apply orb_false_iff in B1 as [B1 B1']. apply Z.ltb_ge in B1, B1'.
  destruct Lead as [[-> R]|[[-> R]|[-> R]]]; simpl Nat.leb; cbv iota.
  - simpl. bits_to_arith. apply lor_high; [lia_mod|lia_mod|left; lia_mod].
  - destruct rest1 as [|b2 rest2]; [simpl; lia|].
    destruct (negb _); [simpl; lia|]. simpl. bits_to_arith.
    apply lor_high; [lor_nonneg|lia_mod|left].
    apply lor_high; [lia_mod|lia_mod|]. lia_mod.
  - destruct rest1 as [|b2 rest2]; [simpl; lia|].
    destruct (negb _); [simpl; lia|].
    destruct rest2 as [|b3 rest3]; [simpl; lia|].
    destruct (negb _); [simpl; lia|]. simpl. bits_to_arith.
    apply lor_high; [lor_nonneg|lia_mod|left].
    apply lor_high; [lor_nonneg|lia_mod|left].
    apply lor_high; [lia_mod|lia_mod|]. lia_mod.
Qed.

Lemma runes_from_alnum (fuel : nat) (bs : list Z) :
  (List.length bs <= fuel)%nat ->
  forallb isAlnum (Utf8.runes_from fuel bs) = forallb isAlnum bs.
Proof.
  revert bs. induction fuel as [|fuel IH]; intros bs L.
  - destruct bs; [reflexivity|simpl in L; lia].
  - destruct bs as [|b0 rest]; [reflexivity|].
    cbn [Utf8.runes_from].
    destruct (Z.lt_ge_cases b0 128) as [A|A].
    + unfold Utf8.DecodeRune. apply Z.ltb_lt in A. rewrite A.
      change (skipn 1 (b0 :: rest)) with rest.
      cbn [forallb]. rewrite IH; [reflexivity|]. simpl in L. lia.
    + pose proof (DecodeRune_high b0 rest A) as R.
      destruct (Utf8.DecodeRune (b0 :: rest)) as [r w]. simpl in R.
      cbn [forallb]. rewrite (isAlnum_high r R), (isAlnum_high b0) by lia.
      reflexivity.
Qed.

(** The loop over the runes of a code finds a character that is not
    alphanumeric exactly when some byte of the code is not. *)
Lemma runes_alnum_bytes (s : string) :
  forallb isAlnum (Utf8.runes s) = forallb isAlnum (GoString.bytes s).
Proof. unfold Utf8.runes. apply runes_from_alnum. lia. Qed.

(** C9. [validateShortCode] checks the length (in bytes, Go's [len])
    and then the characters, in the order the specification lists them. A
    code whose length is outside 4..20 fails with [BadLength]; a code of a
    length within 4..20 that has a character outside a-z, A-Z, 0-9 fails
    with [NonAlphanumeric]; a code with such a character is rejected
    whatever its length; a code is accepted exactly when its length is
    within 4..20 and all its characters are in that set; some character is
    outside the set exactly when some byte is. A [CreateShortURL] whose
    request carries a custom code (a short code other than the empty
    string, which the source takes for none) that fails the validation
    fails, with the error of the validation when the URL is valid, and
    leaves the map as it is. *)
Theorem validateShortCode_spec (shortCode : string) :
  (GoString.len shortCode < 4 \/ 20 < GoString.len shortCode ->
   validateShortCode shortCode = Some BadLength)
  /\ (4 <= GoString.len shortCode <= 20 ->
      forallb isAlnum (Utf8.runes shortCode) = false ->
      validateShortCode shortCode = Some NonAlphanumeric)
  /\ (forallb isAlnum (Utf8.runes shortCode) = false ->
      validateShortCode shortCode = Some BadLength
      \/ validateShortCode shortCode = Some NonAlphanumeric)
  /\ (4 <= GoString.len shortCode <= 20 ->
      forallb isAlnum (Utf8.runes shortCode) = true ->
      validateShortCode shortCode = None)
  /\ (validateShortCode shortCode = None ->
      4 <= GoString.len shortCode <= 20
      /\ forallb isAlnum (Utf8.runes shortCode) = true)
  /\ forallb isAlnum (Utf8.runes shortCode)
     = forallb isAlnum (GoString.bytes shortCode)
  /\ (forall rfc3339 req now draws s e,
      req_ShortCode req = shortCode -> shortCode <> "" ->
      validateShortCode shortCode = Some e ->
      (exists e', CreateShortURL rfc3339 req now draws s = Some (Err e', s))
      /\ (validateURL (URL req) = None ->
          CreateShortURL rfc3339 req now draws s
          = Some (Err (InvalidShortCode e), s))).
Proof.
  assert (In_range : 4 <= GoString.len shortCode <= 20 ->
                     forallb isAlnum (Utf8.runes shortCode) = false ->
                     validateShortCode shortCode = Some NonAlphanumeric).
  { intros L A. rewrite validateShortCode_in_range by exact L.
    now apply checkAlnum_Some. }
  split; [apply validateShortCode_length|].
  split; [exact In_range|].
  split; [|split; [|split; [|split; [apply runes_alnum_bytes|]]]].
  - intros A.
    destruct (Z.lt_ge_cases (GoString.len shortCode) 4) as [L1|L1].
    { left. apply validateShortCode_length. now left. }
    destruct (Z.lt_ge_cases 20 (GoString.len shortCode)) as [L2|L2].
    { left. apply validateShortCode_length. now right. }
    right. apply In_range; [lia|exact A].
  - intros L A. rewrite validateShortCode_in_range by exact L.
    now apply checkAlnum_None.
  - intros V.
    assert (R : 4 <= GoString.len shortCode <= 20).
    { destruct (Z.lt_ge_cases (GoString.len shortCode) 4) as [L1|L1].
      - rewrite validateShortCode_length in V by (now left). discriminate.
      - destruct (Z.lt_ge_cases 20 (GoString.len shortCode)) as [L2|L2]; [|lia].
        rewrite validateShortCode_length in V by (now right). discriminate. }
    split; [exact R|].
    rewrite validateShortCode_in_range in V by exact R.
    now apply checkAlnum_None.
  - intros rfc3339 req now draws s e <- Hne V. unfold CreateShortURL.
    unfold chooseShortCode. apply is_empty_false in Hne.
    destruct (validateURL (URL req)).
    + split; [eauto|discriminate].
    + rewrite Hne, V. split; [eauto|reflexivity].
Qed.

Section CreateProps.

Variable rfc3339 : time.Time -> string.

(** C7, as the code has it. After a successful [CreateShortURL] the
    validity in effect is the request's when that is positive and 30 when it
    is 0 (absent) or negative; the map has one new entry, under a code that
    was not in it, with the counter at 0, an empty history, [CreatedAt] the
    reading of the clock and [ExpiresAt] that instant plus the validity as a
    [time.Duration]; the response carries the code and the rendering of
    [ExpiresAt]. While the validity is at most 153722867 minutes the
    duration is exact, so [ExpiresAt] is [CreatedAt] plus that many minutes
    and strictly later. *)
Theorem CreateShortURL_record (req : CreateShortURLRequest) (now : time.Time)
    (draws : list draw) (s s' : URLService) (resp : CreateShortURLResponse) :
  CreateShortURL rfc3339 req now draws s = Some (Ok resp, s') ->
  let validity := effectiveValidity req in
  (0 < Validity req -> validity = Validity req)
  /\ (Validity req <= 0 -> validity = 30)
  /\ exists code shortURL,
       urls s !! code = None
       /\ s' = {| urls := <[code := shortURL]> (urls s) |}
       /\ urls s' !! code = Some shortURL
       /\ ShortCode shortURL = code
       /\ ClickCount shortURL = 0
       /\ ClickHistory shortURL = []
       /\ CreatedAt shortURL = now
       /\ ExpiresAt shortURL = time.Add now (time.minutes validity)
       /\ (validity <= 153722867 ->
           ExpiresAt shortURL = CreatedAt shortURL + validity * 60000000000
           /\ CreatedAt shortURL < ExpiresAt shortURL)
       /\ ShortLink resp = "http://localhost:3000/" ++ code
       /\ Expiry resp = rfc3339 (ExpiresAt shortURL).
Proof.
  intros H validity.
  assert (Hpos : 0 < validity).
  { unfold validity, effectiveValidity.
    destruct (Validity req <=? 0) eqn:E; [lia|]. apply Z.leb_gt in E. lia. }
  split; [|split].
  - intros P. unfold validity, effectiveValidity.
    apply Z.leb_gt in P. now rewrite P.
  - intros P. unfold validity, effectiveValidity.
    apply Z.leb_le in P. now rewrite P.
  - apply CreateShortURL_Ok in H.
    destruct H as (code & _ & _ & Fresh & -> & ->).
    exists code, (newShortURL code req validity now).
    split; [exact Fresh|]. split; [reflexivity|].
    split; [simpl; apply lookup_insert_eq|].
    repeat (split; [reflexivity|]).
    split; [|split; reflexivity].
    intros B. simpl. unfold time.Add.
    rewrite minutes_exact by lia. split; lia.
Qed.

(** C10. A request whose [ShortCode] is the empty string is not validated
    as a custom code (the empty code would fail with [BadLength]); when the
    URL is valid, the code is that of the first draw of four random bytes
    whose code is not in the map: 8 characters, all of them lowercase
    hexadecimal digits, and the new entry is stored under it. Whatever the
    draws, such a call that returns returns success. *)
Theorem CreateShortURL_generated (req : CreateShortURLRequest) (now : time.Time)
    (s : URLService) (pre post : list draw) (d : draw) :
  req_ShortCode req = "" ->
  validateURL (URL req) = None ->
  Forall (fun d' => shortCodeExists s (draw_code d') = true) pre ->
  shortCodeExists s (draw_code d) = false ->
  let code := draw_code d in
  let shortURL := newShortURL code req (effectiveValidity req) now in
  CreateShortURL rfc3339 req now (pre ++ d :: post)%list s
    = Some (Ok (response rfc3339 shortURL),
            {| urls := <[code := shortURL]> (urls s) |})
  /\ String.length code = 8%nat
  /\ string_forallb isLowerHex code = true
  /\ urls s !! code = None
  /\ validateShortCode (req_ShortCode req) = Some BadLength
  /\ (forall draws res s1,
      CreateShortURL rfc3339 req now draws s = Some (res, s1) ->
      exists resp, res = Ok resp).
Proof.
  intros E V Hpre Hd code shortURL.
  split; [|split; [|split; [|split; [|split]]]].
  - unfold CreateShortURL, chooseShortCode. rewrite V, E. simpl.
    rewrite (generateShortCode_first s pre post d Hpre Hd). reflexivity.
  - apply draw_code_length.
  - apply draw_code_hex.
  - now apply shortCodeExists_false.
  - rewrite E. reflexivity.
  - intros draws res s1. unfold CreateShortURL, chooseShortCode.
    rewrite V, E. simpl.
    destruct (generateShortCode draws s); simpl; [|discriminate].
    intros [= <- _]. eauto.
Qed.

End CreateProps.

(** C7 as stated fails for a validity of 153722868 minutes. The request
    succeeds; the validity in effect is the request's, the counter is 0 and
    the history empty, [CreatedAt] is the reading of the clock. The product
    [time.Duration(validity) * time.Minute] does not fit [int64] and wraps
    around to a negative duration: [ExpiresAt] lies before [CreatedAt], and
    the code is expired at the instant of its creation. *)
Lemma CreateShortURL_validity_wraps :
  let req := {| URL := "https://a.com"; Validity := 153722868;
                req_ShortCode := "abcd" |} in
  let now := 1700000000000000000 in
  let shortURL := newShortURL "abcd" req 153722868 now in
  let s' := {| urls := <["abcd" := shortURL]> ∅ |} in
  effectiveValidity req = 153722868
  /\ CreateShortURL sample_rfc3339 req now [] NewURLService
     = Some (Ok (response sample_rfc3339 shortURL), s')
  /\ urls s' !! "abcd" = Some shortURL
  /\ CreatedAt shortURL = now
  /\ 153722868 * 60000000000 > max_int
  /\ time.minutes 153722868 = -9223371993709551616
  /\ ExpiresAt shortURL = now - 9223371993709551616
  /\ ExpiresAt shortURL < CreatedAt shortURL
  /\ GetOriginalURL "abcd" now s' = (Err Expired, s').
Proof. cbv zeta. repeat split; reflexivity. Qed.


(** ** The counter and the history *)

Lemma wrap64_succ (x : Z) : wrap64 (wrap64 x + 1) = wrap64 (x + 1).
Proof.
  unfold wrap64.
  replace ((x + 2 ^ 63) mod 2 ^ 64 - 2 ^ 63 + 1 + 2 ^ 63)
    with ((x + 2 ^ 63) mod 2 ^ 64 + 1) by lia.
  rewrite Z.add_mod_idemp_l by lia.
  f_equal. f_equal. lia.
Qed.

Lemma count_ok_new (code : string) (req : CreateShortURLRequest) (validity : Z)
    (now : time.Time) : count_ok (newShortURL code req validity now).
Proof. reflexivity. Qed.

Lemma count_ok_clicked (shortURL : ShortURL) (click : Click) :
  count_ok shortURL -> count_ok (clicked shortURL click).
Proof.
  unfold count_ok, clicked. simpl. intros ->.
  rewrite wrap64_succ, length_app. simpl. f_equal. lia.
Qed.

Lemma count_ok_exact (shortURL : ShortURL) :
  count_ok shortURL ->
  Z.of_nat (List.length (ClickHistory shortURL)) <= max_int ->
  ClickCount shortURL = Z.of_nat (List.length (ClickHistory shortURL)).
Proof.
  unfold count_ok. intros -> B. apply wrap64_small.
  unfold min_int, max_int in *. lia.
Qed.

Lemma NewURLService_ok : registry_ok NewURLService.
Proof. intros code u L. simpl in L. rewrite lookup_empty in L. discriminate. Qed.

Lemma clicked_all_history (cs : list Click) (shortURL : ShortURL) :
  ClickHistory (fold_left clicked cs shortURL) = (ClickHistory shortURL ++ cs)%list
  /\ ShortCode (fold_left clicked cs shortURL) = ShortCode shortURL
  /\ OriginalURL (fold_left clicked cs shortURL) = OriginalURL shortURL
  /\ CreatedAt (fold_left clicked cs shortURL) = CreatedAt shortURL
  /\ ExpiresAt (fold_left clicked cs shortURL) = ExpiresAt shortURL.
Proof.
  revert shortURL. induction cs as [|c cs IH]; intros u; simpl.
  - rewrite app_nil_r. auto.
  - destruct (IH (clicked u c)) as (-> & -> & -> & -> & ->). simpl.
    rewrite <- app_assoc. auto.
Qed.

Lemma clicked_all_ok (cs : list Click) (shortURL : ShortURL) :
  count_ok shortURL -> count_ok (fold_left clicked cs shortURL).
Proof.
  revert shortURL. induction cs as [|c cs IH]; intros u H; simpl; [exact H|].
  apply IH. now apply count_ok_clicked.
Qed.

Section RunFacts.

Variable rfc3339 : time.Time -> string.

Lemma apply_op_ok (o : op) (s : URLService) :
  registry_ok s -> registry_ok (apply_op rfc3339 o s).
Proof.
  intros Hs. destruct o as [req now draws|c now|c source location now|c]; simpl.
  - destruct (CreateShortURL rfc3339 req now draws s) as [[[resp|e] s']|] eqn:C.
    + apply CreateShortURL_Ok in C. destruct C as (code & _ & _ & _ & _ & ->).
      intros k u. simpl. rewrite lookup_insert. case_decide.
      * intros [= <-]. apply count_ok_new.
      * apply Hs.
    + apply CreateShortURL_Err in C. now subst.
    + exact Hs.
  - unfold GetOriginalURL. destruct (urls s !! c); [|exact Hs].
    destruct (time.After now _); exact Hs.
  - unfold RecordClick. destruct (urls s !! c) as [u|] eqn:L; [|exact Hs].
    intros k u'. simpl. rewrite lookup_insert. case_decide.
    + intros [= <-]. apply (count_ok_clicked u). eapply Hs; eauto.
    + apply Hs.
  - unfold GetStats. destruct (urls s !! c); exact Hs.
Qed.

Lemma run_ok (ops : list op) (s : URLService) :
  registry_ok s -> registry_ok (run rfc3339 ops s).
Proof.
  revert s. induction ops as [|o ops IH]; intros s Hs; simpl; [exact Hs|].
  apply IH. now apply apply_op_ok.
Qed.

(** One call, seen from an entry of the map: only a [RecordClick] on its
    code changes it. *)
Lemma apply_op_lookup (o : op) (s : URLService) (code : string) (shortURL : ShortURL) :
  urls s !! code = Some shortURL ->
  urls (apply_op rfc3339 o s) !! code
  = Some (fold_left clicked (clicks_on code [o]) shortURL).
Proof.
  intros L. destruct o as [req now draws|c now|c source location now|c]; simpl.
  - destruct (CreateShortURL rfc3339 req now draws s) as [[[resp|e] s']|] eqn:C.
    + apply CreateShortURL_Ok in C. destruct C as (k & _ & _ & Fresh & _ & ->).
      simpl. rewrite lookup_insert_ne; [exact L|]. intros ->. congruence.
    + apply CreateShortURL_Err in C. now subst.
    + exact L.
  - unfold GetOriginalURL. destruct (urls s !! c); [|exact L].
    destruct (time.After now _); exact L.
  - destruct (String.eqb_spec c code) as [->|Hne].
    + rewrite (RecordClick_present _ _ _ _ _ _ L). simpl.
      apply lookup_insert_eq.
    + unfold RecordClick. destruct (urls s !! c) as [u|]; [|exact L].
      simpl. now rewrite lookup_insert_ne.
  - unfold GetStats. destruct (urls s !! c); exact L.
Qed.

Lemma clicks_on_cons (code : string) (o : op) (ops : list op) :
  clicks_on code (o :: ops) = (clicks_on code [o] ++ clicks_on code ops)%list.
Proof.
  destruct o as [req now draws|c now|c source location now|c]; simpl; auto.
  destruct (String.eqb c code); reflexivity.
Qed.

Lemma run_lookup (ops : list op) (s : URLService) (code : string) (shortURL : ShortURL) :
  urls s !! code = Some shortURL ->
  urls (run rfc3339 ops s) !! code
  = Some (fold_left clicked (clicks_on code ops) shortURL).
Proof.
  revert s shortURL. induction ops as [|o ops IH]; intros s u L.
  - exact L.
  - rewrite clicks_on_cons, fold_left_app. simpl.
    apply IH. now apply apply_op_lookup.
Qed.

(** C5. In every registry that a sequence of calls builds from the empty
    one, the counter of every entry agrees with its history: it is the
    length of the history in [int], so equal to it for every length an
    [int] holds. And from a registry where the entry of a code has no click
    yet, after any sequence of calls of which [n] are [RecordClick] on that
    code, [GetStats] reports [n] clicks and the [n] clicks of these calls,
    in the order of the calls. *)
Theorem clickCount_is_history_length :
  (forall ops code shortURL,
     urls (run rfc3339 ops NewURLService) !! code = Some shortURL ->
     ClickCount shortURL = wrap64 (Z.of_nat (List.length (ClickHistory shortURL)))
     /\ (Z.of_nat (List.length (ClickHistory shortURL)) <= max_int ->
         ClickCount shortURL = Z.of_nat (List.length (ClickHistory shortURL))))
  /\ (forall s code shortURL ops,
     urls s !! code = Some shortURL ->
     ClickCount shortURL = 0 -> ClickHistory shortURL = [] ->
     let n := List.length (clicks_on code ops) in
     Z.of_nat n <= max_int ->
     GetStats code (run rfc3339 ops s)
     = (Ok {| TotalClicks := Z.of_nat n;
              stats_CreatedAt := CreatedAt shortURL;
              stats_ExpiresAt := ExpiresAt shortURL;
              Clicks := clicks_on code ops |}, run rfc3339 ops s)).
Proof.
  split.
  - intros ops code u L.
    assert (Hok : count_ok u).
    { eapply (run_ok ops NewURLService NewURLService_ok); eauto. }
    split; [exact Hok|]. now apply count_ok_exact.
  - intros s code u ops L C0 H0 n B.
    pose proof (run_lookup ops s code u L) as R.
    rewrite (GetStats_present _ _ _ R). f_equal. unfold stats_of.
    destruct (clicked_all_history (clicks_on code ops) u) as (Hh & _ & _ & Hc & He).
    assert (Hok : count_ok (fold_left clicked (clicks_on code ops) u)).
    { apply clicked_all_ok. unfold count_ok. now rewrite C0, H0. }
    unfold count_ok in Hok. rewrite Hh, H0 in Hok. simpl in Hok.
    rewrite Hh, H0, Hc, He, Hok. simpl.
    rewrite wrap64_small; [reflexivity|].
    unfold min_int, max_int in *. lia.
Qed.

End RunFacts.

(** ** Custom codes and collisions *)

Section CollisionFacts.

Variable rfc3339 : time.Time -> string.

(** Without interference, a request for a custom code that is in the map
    fails with the collision error and the registry stays as it is. *)
Lemma CreateShortURL_collision (req : CreateShortURLRequest) (now : time.Time)
    (draws : list draw) (s : URLService) :
  req_ShortCode req <> "" ->
  validateURL (URL req) = None ->
  validateShortCode (req_ShortCode req) = None ->
  is_Some (urls s !! req_ShortCode req) ->
  CreateShortURL rfc3339 req now draws s = Some (Err CodeCollision, s).
Proof.
  intros Hne V C P. unfold CreateShortURL, chooseShortCode.
  apply is_empty_false in Hne. apply shortCodeExists_true in P.
  now rewrite V, Hne, C, P.
Qed.

(** The registry after a successful call holds, under the new code, the
    URL of the request as it came, and resolving the code returns it. *)
Lemma CreateShortURL_stores_request_URL (req : CreateShortURLRequest)
    (now : time.Time) (draws : list draw) (s s' : URLService)
    (resp : CreateShortURLResponse) :
  CreateShortURL rfc3339 req now draws s = Some (Ok resp, s') ->
  exists code shortURL,
    ShortLink resp = "http://localhost:3000/" ++ code
    /\ urls s' !! code = Some shortURL
    /\ OriginalURL shortURL = URL req
    /\ forall now', now' <= ExpiresAt shortURL ->
         GetOriginalURL code now' s' = (Ok (URL req), s').
Proof.
  intros H. apply CreateShortURL_Ok in H.
  destruct H as (code & _ & _ & _ & -> & ->).
  exists code, (newShortURL code req (effectiveValidity req) now).
  set (s1 := {| urls := <[code := newShortURL code req (effectiveValidity req) now]>
                          (urls s) |}).
  assert (L : urls s1 !! code
              = Some (newShortURL code req (effectiveValidity req) now)).
  { simpl. apply lookup_insert_eq. }
  repeat split; auto.
  intros now' E. unfold GetOriginalURL, time.After. rewrite L.
  apply Z.ltb_ge in E. now rewrite E.
Qed.

(** C1, on the code. The request for ["example.com"] succeeds: the URL
    passes validation with [https://] before it. The entry stored has
    ["example.com"] as its [OriginalURL], and resolving the code returns
    ["example.com"], which is not the string that was validated. *)
Theorem CreateShortURL_example_com_stored_raw :
  let req := {| URL := "example.com"; Validity := 60; req_ShortCode := "abcd" |} in
  let now := 1700000000000000000 in
  let shortURL := newShortURL "abcd" req 60 now in
  let s' := {| urls := <["abcd" := shortURL]> ∅ |} in
  GoString.HasPrefix (URL req) "http://" = false
  /\ GoString.HasPrefix (URL req) "https://" = false
  /\ addProtocol (URL req) = "https://example.com"
  /\ CreateShortURL rfc3339 req now [] NewURLService
     = Some (Ok (response rfc3339 shortURL), s')
  /\ OriginalURL shortURL = "example.com"
  /\ GetOriginalURL "abcd" now s' = (Ok "example.com", s')
  /\ "example.com" <> addProtocol (URL req).
Proof.
  cbv zeta. repeat split; try reflexivity.
  intros H. vm_compute in H. discriminate.
Qed.

(** C4, on the code. Two callers ask for the custom code ["abcd"], the
    registry is empty. Each runs its existence check, under the read lock,
    before the other stores; then the first takes the write lock, stores and
    returns success, and the second does the same. Both calls succeed and
    the entry of the first, which had returned, is replaced by that of the
    second. *)
Theorem CreateShortURL_custom_code_race :
  let reqA := {| URL := "https://a.com"; Validity := 60; req_ShortCode := "abcd" |} in
  let reqB := {| URL := "https://b.com"; Validity := 60; req_ShortCode := "abcd" |} in
  let entryA := newShortURL "abcd" reqA 60 1000 in
  let entryB := newShortURL "abcd" reqB 60 2000 in
  let c0 := Conc.start [Conc.AtCreate reqA 1000 []; Conc.AtCreate reqB 2000 []]
              NewURLService in
  let c1 := Conc.run_sched rfc3339 [0; 0; 0; 0; 1; 1; 1; 1; 0; 0; 0]%nat c0 in
  let c2 := Conc.run_sched rfc3339 [1; 1; 1]%nat c1 in
  Conc.callers c1
    = [Conc.CreateReturned (Ok (response rfc3339 entryA)); Conc.AtStoreLock entryB]
  /\ urls (Conc.service (Conc.mem c1)) !! "abcd" = Some entryA
  /\ Conc.callers c2
    = [Conc.CreateReturned (Ok (response rfc3339 entryA));
       Conc.CreateReturned (Ok (response rfc3339 entryB))]
  /\ urls (Conc.service (Conc.mem c2)) !! "abcd" = Some entryB
  /\ entryA <> entryB.
Proof.
  cbv zeta. repeat split; try (vm_compute; reflexivity).
  intros H. apply (f_equal OriginalURL) in H. vm_compute in H. discriminate.
Qed.

End CollisionFacts.

(** ** A caller that runs alone does what the method does *)

Section Solo.

Variable rfc3339 : time.Time -> string.

Abbreviation steps := (Conc.steps rfc3339).
Abbreviation step := (Conc.step rfc3339).

Abbreviation quiet := Conc.quiet.

Lemma steps_stuck (n : nat) (t : Conc.caller) (m : Conc.shared) :
  step t m = None -> steps n t m = (t, m).
Proof. intros H. destruct n; simpl; [reflexivity|]. now rewrite H. Qed.

Lemma steps_add (n k : nat) (t : Conc.caller) (m : Conc.shared) :
  steps (n + k) t m = steps k (fst (steps n t m)) (snd (steps n t m)).
Proof.
  revert t m. induction n as [|n IH]; intros t m; simpl; [reflexivity|].
  destruct (step t m) as [[t' m']|] eqn:E; [apply IH|].
  simpl. symmetry. now apply steps_stuck.
Qed.

Lemma steps_then (n k : nat) (t t' t'' : Conc.caller) (m m' m'' : Conc.shared) :
  steps n t m = (t', m') -> steps k t' m' = (t'', m'') ->
  steps (n + k) t m = (t'', m'').
Proof. intros H1 H2. rewrite steps_add, H1. exact H2. Qed.

Lemma URLService_eta (s : URLService) : {| urls := urls s |} = s.
Proof. now destruct s. Qed.

(** The loop of [generateShortCode]: four steps a turn. *)
Lemma generate_solo (req : CreateShortURLRequest) (now : time.Time)
    (draws : list draw) (s : URLService) (code : string) :
  GoString.is_empty (req_ShortCode req) = true ->
  generateShortCode draws s = Some code ->
  exists n,
    steps n (Conc.AtGenerate req now draws) (quiet s)
    = (Conc.AtStoreLock (newShortURL code req (effectiveValidity req) now), quiet s).
Proof.
  intros E. induction draws as [|d draws IH]; simpl; [discriminate|].
  destruct (shortCodeExists s (draw_code d)) eqn:X; simpl; intros G.
  - destruct (IH G) as [n Hn]. exists (4 + n)%nat.
    apply steps_then with (t' := Conc.AtGenerate req now draws) (m' := quiet s);
      [|exact Hn].
    simpl. rewrite X, E. reflexivity.
  - injection G as <-. exists 4%nat. simpl. rewrite X, E. reflexivity.
Qed.

Lemma store_solo (shortURL : ShortURL) (s : URLService) :
  steps 3 (Conc.AtStoreLock shortURL) (quiet s)
  = (Conc.CreateReturned (Ok (response rfc3339 shortURL)),
     quiet {| urls := <[ShortCode shortURL := shortURL]> (urls s) |}).
Proof. reflexivity. Qed.

(** [CreateShortURL] *)
Lemma create_solo (req : CreateShortURLRequest) (now : time.Time)
    (draws : list draw) (s s' : URLService) (res : result CreateShortURLResponse) :
  CreateShortURL rfc3339 req now draws s = Some (res, s') ->
  exists n,
    steps n (Conc.AtCreate req now draws) (quiet s)
    = (Conc.CreateReturned res, quiet s').
Proof.
  unfold CreateShortURL, chooseShortCode.
  destruct (validateURL (URL req)) as [err|] eqn:V.
  { intros [= <- <-]. exists 1%nat. simpl. now rewrite V. }
  destruct (GoString.is_empty (req_ShortCode req)) eqn:E.
  - destruct (generateShortCode draws s) as [code|] eqn:G; simpl; [|discriminate].
    intros [= <- <-].
    destruct (generate_solo req now draws s code E G) as [n Hn].
    exists (1 + (n + 3))%nat.
    eapply steps_then; [simpl; rewrite V, E; reflexivity|].
    eapply steps_then; [exact Hn|]. apply store_solo.
  - destruct (validateShortCode (req_ShortCode req)) as [err|] eqn:C.
    { intros [= <- <-]. exists 1%nat. simpl. now rewrite V, E, C. }
    destruct (shortCodeExists s (req_ShortCode req)) eqn:X.
    + intros [= <- <-]. exists 4%nat. simpl. rewrite V, E, C. simpl.
      rewrite X, E. reflexivity.
    + intros [= <- <-]. exists (4 + 3)%nat.
      eapply steps_then; [simpl; rewrite V, E, C; simpl; rewrite X, E; reflexivity|].
      exact (store_solo
               (newShortURL (req_ShortCode req) req (effectiveValidity req) now) s).
Qed.

(** [GetOriginalURL] *)
Lemma resolve_solo (shortCode : string) (now : time.Time) (s : URLService) :
  steps 3 (Conc.AtResolve shortCode now) (quiet s)
  = (Conc.ResolveReturned (fst (GetOriginalURL shortCode now s)),
     quiet (snd (GetOriginalURL shortCode now s))).
Proof.
  unfold GetOriginalURL. simpl.
  destruct (urls s !! shortCode) as [u|]; [|reflexivity].
  destruct (time.After now (ExpiresAt u)); reflexivity.
Qed.

(** [GetStats] *)
Lemma stats_solo (shortCode : string) (s : URLService) :
  steps 3 (Conc.AtStats shortCode) (quiet s)
  = (Conc.StatsReturned (fst (GetStats shortCode s)),
     quiet (snd (GetStats shortCode s))).
Proof.
  unfold GetStats. simpl.
  destruct (urls s !! shortCode) as [u|]; reflexivity.
Qed.

Lemma alter_twice_clicked (code : string) (click : Click) (shortURL : ShortURL)
    (us : gmap string ShortURL) :
  us !! code = Some shortURL ->
  alter (Conc.appendClick click) code (alter Conc.incrCount code us)
  = <[code := clicked shortURL click]> us.
Proof.
  intros L. apply map_eq. intros k.
  rewrite lookup_insert. case_decide as D.
  - subst k. rewrite !lookup_alter_eq, L. reflexivity.
  - rewrite !lookup_alter_ne by exact D. reflexivity.
Qed.

(** [RecordClick] *)
Lemma click_solo (shortCode source location : string) (now : time.Time)
    (s : URLService) :
  exists n,
    steps n (Conc.AtClick shortCode source location now) (quiet s)
    = (Conc.ClickReturned (fst (RecordClick shortCode source location now s)),
       quiet (snd (RecordClick shortCode source location now s))).
Proof.
  destruct (urls s !! shortCode) as [u|] eqn:L.
  - exists 5%nat. rewrite (RecordClick_present _ _ _ _ _ _ L). simpl.
    rewrite L. unfold Conc.with_urls, quiet. simpl.
    now rewrite (alter_twice_clicked _ _ _ _ L).
  - exists 3%nat. rewrite (RecordClick_absent _ _ _ _ _ L). simpl.
    rewrite L. unfold quiet. now destruct s.
Qed.

End Solo.

(** ** Callers side by side: the lock and the entries *)

Section Exclusion.

Variable rfc3339 : time.Time -> string.

Import Conc.

Lemma count_insert (p : caller -> bool) (l : list caller) (i : nat) (t t' : caller) :
  l !! i = Some t ->
  (count p (<[i := t']> l) + Nat.b2n (p t) = count p l + Nat.b2n (p t'))%nat.
Proof.
  revert i. induction l as [|x l IH]; intros i L; [discriminate|].
  destruct i as [|i]; simpl in *.
  - injection L as ->. unfold Nat.b2n. destruct (p t), (p t'); lia.
  - specialize (IH i L). destruct (p x); lia.
Qed.

Lemma count_one (p : caller -> bool) (l : list caller) (i : nat) (t : caller) :
  l !! i = Some t -> p t = true -> (1 <= count p l)%nat.
Proof.
  revert i. induction l as [|x l IH]; intros i L P; [discriminate|].
  destruct i as [|i]; simpl in *.
  - injection L as ->. rewrite P. lia.
  - specialize (IH i L P). lia.
Qed.

Lemma count_two (p : caller -> bool) (l : list caller) (i j : nat) (t t' : caller) :
  i <> j -> l !! i = Some t -> l !! j = Some t' -> p t = true -> p t' = true ->
  (2 <= count p l)%nat.
Proof.
  revert i j. induction l as [|x l IH]; intros i j N Li Lj Pt Pt'; [discriminate|].
  destruct i as [|i], j as [|j]; simpl in *; try congruence.
  - injection Li as ->. rewrite Pt. pose proof (count_one p l j t' Lj Pt'). lia.
  - injection Lj as ->. rewrite Pt'. pose proof (count_one p l i t Li Pt). lia.
  - assert (N' : i <> j) by congruence.
    specialize (IH i j N' Li Lj Pt Pt'). lia.
Qed.

Lemma count_entering (ts : list caller) :
  forallb entering ts = true -> count reading ts = 0%nat /\ count writing ts = 0%nat.
Proof.
  induction ts as [|t ts IH]; simpl; [auto|].
  intros H. apply andb_true_iff in H as [E H]. destruct (IH H) as [-> ->].
  destruct t; simpl in *; try discriminate; auto.
Qed.

(** What a step does to the lock and to the place of the caller. *)
Lemma step_lock (t t' : caller) (m m' : shared) :
  step rfc3339 t m = Some (t', m') ->
  (mutex m' = mutex m /\ reading t' = reading t /\ writing t' = writing t)
  \/ (writer (mutex m) = false
      /\ mutex m' = {| readers := S (readers (mutex m)); writer := false |}
      /\ reading t = false /\ reading t' = true
      /\ writing t = false /\ writing t' = false)
  \/ (mutex m' = RUnlock (mutex m)
      /\ reading t = true /\ reading t' = false
      /\ writing t = false /\ writing t' = false)
  \/ (writer (mutex m) = false /\ readers (mutex m) = 0%nat
      /\ mutex m' = {| readers := 0; writer := true |}
      /\ reading t = false /\ reading t' = false
      /\ writing t = false /\ writing t' = true)
  \/ (mutex m' = Unlock (mutex m)
      /\ reading t = false /\ reading t' = false
      /\ writing t = true /\ writing t' = false).
Proof.
  unfold step, RLock, Lock. intros H.
  destruct (writer (mutex m)) eqn:W;
    destruct (readers (mutex m) =? 0)%nat eqn:R0;
    try apply Nat.eqb_eq in R0;
    destruct t; simpl in H;
    repeat match type of H with
    | context [match ?x with _ => _ end] => destruct x eqn:?
    end;
    try discriminate; injection H as <- <-; simpl;
    first [ left; repeat split; reflexivity
          | right; left; repeat split; reflexivity
          | right; right; left; repeat split; reflexivity
          | right; right; right; left; repeat split; solve [reflexivity | assumption]
          | right; right; right; right; repeat split; reflexivity ].
Qed.

(** Only a caller that holds the write lock changes the map. *)
Lemma step_service (t t' : caller) (m m' : shared) :
  step rfc3339 t m = Some (t', m') -> writing t = false -> service m' = service m.
Proof.
  unfold step. intros H.
  destruct t; simpl in H;
    repeat match type of H with
    | context [match ?x with _ => _ end] => destruct x eqn:?
    end;
    try discriminate; injection H as <- <-; simpl; try reflexivity; discriminate.
Qed.

Lemma sched_step_lock_inv (i : nat) (c : config) :
  lock_inv c -> lock_inv (sched_step rfc3339 i c).
Proof.
  intros [Hr Hw Ha]. unfold sched_step.
  destruct (callers c !! i) as [t|] eqn:L; [|now constructor].
  destruct (step rfc3339 t (mem c)) as [[t' m']|] eqn:S; [|now constructor].
  pose proof (count_insert reading _ _ _ t' L) as Cr.
  pose proof (count_insert writing _ _ _ t' L) as Cw.
  unfold Nat.b2n in Cr, Cw.
  destruct (step_lock _ _ _ _ S) as [(M & R & W)|[(W0 & M & R & R' & W & W')|
    [(M & R & R' & W & W')|[(W0 & R0 & M & R & R' & W & W')|(M & R & R' & W & W')]]]].
  - rewrite R, W in *.
    constructor; simpl; rewrite M.
    + destruct (reading t); lia.
    + rewrite <- Hw. destruct (writing t); lia.
    + exact Ha.
  - rewrite R, R', W, W' in *. rewrite W0 in Hw.
    constructor; simpl; rewrite M; simpl; try lia; discriminate.
  - rewrite R, R', W, W' in *.
    constructor; simpl; rewrite M; unfold RUnlock; simpl.
    + lia.
    + rewrite <- Hw. lia.
    + intros E. rewrite (Ha E). reflexivity.
  - rewrite R, R', W, W' in *. rewrite W0 in Hw.
    constructor; simpl; rewrite M; simpl; lia.
  - rewrite R, R', W, W' in *.
    constructor; simpl; rewrite M; unfold Unlock; simpl; [lia| |discriminate].
    destruct (writer (mutex (mem c))); lia.
Qed.

Lemma run_sched_lock_inv (sched : list nat) (c : config) :
  lock_inv c -> lock_inv (run_sched rfc3339 sched c).
Proof.
  revert c. induction sched as [|i sched IH]; intros c H; simpl; [exact H|].
  apply IH. now apply sched_step_lock_inv.
Qed.

Lemma start_lock_inv (ts : list caller) (s : URLService) :
  forallb entering ts = true -> lock_inv (start ts s).
Proof.
  intros H. destruct (count_entering ts H) as [Hr Hw].
  constructor; simpl; auto.
Qed.

(** Two callers are never inside together when one of them writes. *)
Lemma lock_inv_exclusion (c : config) (i j : nat) (t t' : caller) :
  lock_inv c -> i <> j ->
  callers c !! i = Some t -> callers c !! j = Some t' ->
  writing t = true -> writing t' = false /\ reading t' = false.
Proof.
  intros [Hr Hw Ha] N Li Lj Wt. split.
  - destruct (writing t') eqn:Wt'; [|reflexivity].
    pose proof (count_two writing _ _ _ _ _ N Li Lj Wt Wt').
    destruct (writer (mutex (mem c))); lia.
  - destruct (reading t') eqn:Rt'; [|reflexivity].
    pose proof (count_one writing _ _ _ Li Wt).
    pose proof (count_one reading _ _ _ Lj Rt').
    destruct (writer (mutex (mem c))); [|lia].
    specialize (Ha eq_refl). lia.
Qed.


(** What a caller that does not hold the write lock can move to. *)
Lemma step_not_writing (t t' : caller) (m m' : shared) :
  step rfc3339 t m = Some (t', m') -> writing t = false ->
  match t' with
  | AtClickIncr _ _ | AtClickAppend _ _ => False
  | AtStoreLock u => count_ok u
  | AtStore u => t = AtStoreLock u
  | AtStatsRUnlock (Ok st) =>
    exists code u, t = AtStatsRead code
      /\ urls (service m) !! code = Some u /\ st = stats_of u
  | StatsReturned (Ok st) => t = AtStatsRUnlock (Ok st)
  | _ => True
  end.
Proof.
  unfold step. intros H.
  destruct t; simpl in H;
    repeat match type of H with
    | context [match ?x with _ => _ end] => destruct x eqn:?
    end;
    try discriminate; injection H as <- <-; simpl; intros W;
    try discriminate; try exact I; try reflexivity; try apply count_ok_new.
  - eauto.
  - destruct res; auto.
Qed.

Lemma stats_of_ok (u : ShortURL) :
  count_ok u ->
  TotalClicks (stats_of u) = wrap64 (Z.of_nat (List.length (Clicks (stats_of u)))).
Proof. intros H. exact H. Qed.

(** With a caller reading, nobody writes. *)
Lemma lock_inv_reader (c : config) (i j : nat) (t t' : caller) :
  lock_inv c -> callers c !! i = Some t -> reading t = true ->
  callers c !! j = Some t' -> writing t' = false.
Proof.
  intros [Hr Hw Ha] Li Rt Lj.
  destruct (writing t') eqn:Wt'; [|reflexivity].
  pose proof (count_one reading _ _ _ Li Rt).
  pose proof (count_one writing _ _ _ Lj Wt').
  destruct (writer (mutex (mem c))); [|lia].
  specialize (Ha eq_refl). lia.
Qed.

Ltac split_at j i F1 F2 Lj :=
  let N := fresh "N" in
  destruct (decide (j = i)) as [->|N];
  [rewrite F2 in Lj | rewrite F1 in Lj by exact N].

Lemma sched_step_data_inv (i : nat) (c : config) :
  lock_inv c -> data_inv c -> data_inv (sched_step rfc3339 i c).
Proof.
  intros HL HD. unfold sched_step.
  destruct (callers c !! i) as [t|] eqn:L; [|exact HD].
  destruct (step rfc3339 t (mem c)) as [[t' m']|] eqn:S; [|exact HD].
  assert (F2 : <[i := t']> (callers c) !! i = Some t').
  { apply list_lookup_insert_eq. eapply lookup_lt_Some; eauto. }
  assert (F1 : forall j, j <> i -> <[i := t']> (callers c) !! j = callers c !! j).
  { intros j N. apply list_lookup_insert_ne. congruence. }
  destruct HD as [Hfound Hhalf Hentries Hstores Hstats].
  destruct (writing t) eqn:Wt.
  - (* the caller holds the write lock: nobody else is inside *)
    assert (X : forall j t'', j <> i -> callers c !! j = Some t'' ->
                writing t'' = false).
    { intros j t'' N Lj. eapply (lock_inv_exclusion c i j); eauto. }
    assert (NoAppend : forall j code click, j <> i ->
                callers c !! j <> Some (AtClickAppend code click)).
    { intros j code click N Lj. pose proof (X _ _ N Lj). discriminate. }
    assert (Gfound : forall us : gmap string ShortURL, (forall code click, t' <> AtClickIncr code click) ->
              forall j code click,
                <[i := t']> (callers c) !! j = Some (AtClickIncr code click) ->
                is_Some (us !! code)).
    { intros us Ht' j code click Lj. split_at j i F1 F2 Lj.
      - injection Lj as ->. now destruct (Ht' code click).
      - pose proof (X _ _ N Lj). discriminate. }
    assert (Ghalf : forall us : gmap string ShortURL, (forall code click, t' <> AtClickAppend code click) ->
              forall j code click,
                <[i := t']> (callers c) !! j = Some (AtClickAppend code click) ->
                exists u, us !! code = Some u
                  /\ ClickCount u = wrap64 (Z.of_nat (List.length (ClickHistory u)) + 1)).
    { intros us Ht' j code click Lj. split_at j i F1 F2 Lj.
      - injection Lj as ->. now destruct (Ht' code click).
      - pose proof (X _ _ N Lj). discriminate. }
    assert (Gstores : forall j u,
              <[i := t']> (callers c) !! j = Some (AtStoreLock u)
              \/ <[i := t']> (callers c) !! j = Some (AtStore u) ->
              (forall u', t' <> AtStoreLock u' /\ t' <> AtStore u') -> count_ok u).
    { intros j u [Lj|Lj] Ht'; split_at j i F1 F2 Lj;
        try (injection Lj as ->; now destruct (Ht' u) as [? ?]);
        apply (Hstores j); auto. }
    assert (Gstats : forall j st,
              <[i := t']> (callers c) !! j = Some (AtStatsRUnlock (Ok st))
              \/ <[i := t']> (callers c) !! j = Some (StatsReturned (Ok st)) ->
              (forall r, t' <> AtStatsRUnlock r /\ t' <> StatsReturned r) ->
              TotalClicks st = wrap64 (Z.of_nat (List.length (Clicks st)))).
    { intros j st [Lj|Lj] Ht'; split_at j i F1 F2 Lj;
        try (injection Lj as ->; now destruct (Ht' (Ok st)) as [? ?]);
        apply (Hstats j); auto. }
    assert (Gentries : forall code u,
              urls (service (mem c)) !! code = Some u ->
              (forall click, t <> AtClickAppend code click) -> count_ok u).
    { intros code u Lu Ht. apply (Hentries code u Lu).
      intros j click Lj. destruct (decide (j = i)) as [->|N].
      - rewrite L in Lj. injection Lj as ->. now apply (Ht click).
      - now apply (NoAppend j code click N). }
    destruct t; try discriminate Wt; simpl in S.
    + (* AtStore *)
      injection S as <- <-. constructor; simpl.
      * apply Gfound. discriminate.
      * apply Ghalf. discriminate.
      * intros code u. rewrite lookup_insert. case_decide.
        { intros [= <-] _. apply (Hstores i). now right. }
        intros Lu _. apply (Gentries code u Lu). discriminate.
      * intros j u H. apply (Gstores j u H). split; discriminate.
      * intros j st H. apply (Gstats j st H). split; discriminate.
    + (* AtStoreUnlock *)
      injection S as <- <-. constructor; simpl.
      * apply Gfound. discriminate.
      * apply Ghalf. discriminate.
      * intros code u Lu _. apply (Gentries code u Lu). discriminate.
      * intros j u H. apply (Gstores j u H). split; discriminate.
      * intros j st H. apply (Gstats j st H). split; discriminate.
    + (* AtClickLookup *)
      destruct (urls (service (mem c)) !! shortCode) as [u0|] eqn:L0;
        injection S as <- <-; constructor; simpl.
      * intros j code click' Lj. split_at j i F1 F2 Lj.
        { injection Lj as <- <-. eauto. }
        pose proof (X _ _ N Lj). discriminate.
      * apply Ghalf. discriminate.
      * intros code u Lu _. apply (Gentries code u Lu). discriminate.
      * intros j u H. apply (Gstores j u H). split; discriminate.
      * intros j st H. apply (Gstats j st H). split; discriminate.
      * apply Gfound. discriminate.
      * apply Ghalf. discriminate.
      * intros code u Lu _. apply (Gentries code u Lu). discriminate.
      * intros j u H. apply (Gstores j u H). split; discriminate.
      * intros j st H. apply (Gstats j st H). split; discriminate.
    + (* AtClickIncr *)
      injection S as <- <-. constructor; simpl.
      * apply Gfound. discriminate.
      * intros j code click' Lj. split_at j i F1 F2 Lj.
        2:{ pose proof (X _ _ N Lj). discriminate. }
        injection Lj as <- <-.
        destruct (Hfound i shortCode click L) as [u Lu].
        exists (incrCount u). rewrite lookup_alter_eq, Lu. split; [reflexivity|].
        simpl. rewrite (Gentries shortCode u Lu) by discriminate.
        apply wrap64_succ.
      * intros code u. destruct (decide (code = shortCode)) as [->|Nk].
        { intros _ Hno. now destruct (Hno i click). }
        rewrite lookup_alter_ne by congruence.
        intros Lu _. apply (Gentries code u Lu). discriminate.
      * intros j u H. apply (Gstores j u H). split; discriminate.
      * intros j st H. apply (Gstats j st H). split; discriminate.
    + (* AtClickAppend *)
      injection S as <- <-. constructor; simpl.
      * intros j code click' Lj. split_at j i F1 F2 Lj; [discriminate|].
        pose proof (X _ _ N Lj). discriminate.
      * apply Ghalf. discriminate.
      * intros code u. destruct (decide (code = shortCode)) as [->|Nk].
        { rewrite lookup_alter_eq.
          destruct (Hhalf i shortCode click L) as (u0 & Lu0 & Hu0).
          rewrite Lu0. simpl. intros [= <-] _. unfold count_ok. simpl.
          rewrite Hu0, length_app. simpl. f_equal. lia. }
        rewrite lookup_alter_ne by congruence.
        intros Lu _. apply (Gentries code u Lu). congruence.
      * intros j u H. apply (Gstores j u H). split; discriminate.
      * intros j st H. apply (Gstats j st H). split; discriminate.
    + (* AtClickUnlock *)
      injection S as <- <-. constructor; simpl.
      * apply Gfound. discriminate.
      * apply Ghalf. discriminate.
      * intros code u Lu _. apply (Gentries code u Lu). discriminate.
      * intros j u H. apply (Gstores j u H). split; discriminate.
      * intros j st H. apply (Gstats j st H). split; discriminate.
  - (* the caller does not hold the write lock: the map stays *)
    pose proof (step_service _ _ _ _ S Wt) as Sv.
    pose proof (step_not_writing _ _ _ _ S Wt) as Cl.
    constructor; simpl; rewrite ?Sv.
    + intros j code click Lj. split_at j i F1 F2 Lj.
      * injection Lj as ->. destruct Cl.
      * eapply Hfound; eauto.
    + intros j code click Lj. split_at j i F1 F2 Lj.
      * injection Lj as ->. destruct Cl.
      * eapply Hhalf; eauto.
    + intros code u Lu Hno. apply (Hentries code u Lu).
      intros j click Lj. destruct (decide (j = i)) as [->|N].
      * rewrite L in Lj. injection Lj as ->. discriminate Wt.
      * apply (Hno j click). now rewrite F1.
    + intros j u [Lj|Lj]; split_at j i F1 F2 Lj.
      * injection Lj as ->. exact Cl.
      * apply (Hstores j); auto.
      * injection Lj as ->. simpl in Cl. subst t. apply (Hstores i); auto.
      * apply (Hstores j); auto.
    + intros j st [Lj|Lj]; split_at j i F1 F2 Lj.
      * injection Lj as ->. destruct Cl as (code & u & -> & Lu & ->).
        apply stats_of_ok, (Hentries code u Lu).
        intros k click Lk.
        pose proof (lock_inv_reader c i k _ _ HL L eq_refl Lk). discriminate.
      * apply (Hstats j); auto.
      * injection Lj as ->. simpl in Cl. subst t. apply (Hstats i); auto.
      * apply (Hstats j); auto.
Qed.

Lemma start_data_inv (ts : list caller) (s : URLService) :
  forallb entering ts = true -> registry_ok s -> data_inv (start ts s).
Proof.
  intros H Hs.
  assert (E : forall i t, ts !! i = Some t -> entering t = true).
  { intros i t Li. rewrite forallb_forall in H. apply H.
    apply list_elem_of_In. eapply list_elem_of_lookup_2; eauto. }
  constructor; simpl.
  - intros i code click Li. apply E in Li. discriminate.
  - intros i code click Li. apply E in Li. discriminate.
  - intros code u Lu _. eapply Hs; eauto.
  - intros i u [Li|Li]; apply E in Li; discriminate.
  - intros i st [Li|Li]; apply E in Li; discriminate.
Qed.

Lemma run_sched_inv (sched : list nat) (c : config) :
  lock_inv c -> data_inv c ->
  lock_inv (run_sched rfc3339 sched c) /\ data_inv (run_sched rfc3339 sched c).
Proof.
  revert c. induction sched as [|i sched IH]; intros c HL HD; simpl; [auto|].
  apply IH; [now apply sched_step_lock_inv|now apply sched_step_data_inv].
Qed.

(** The invariants hold in every configuration that a schedule reaches
    from callers at the entries of their methods. *)
Lemma reachable_inv (ts : list caller) (s : URLService) (sched : list nat) :
  forallb entering ts = true -> registry_ok s ->
  lock_inv (run_sched rfc3339 sched (start ts s))
  /\ data_inv (run_sched rfc3339 sched (start ts s)).
Proof.
  intros E Hs. apply run_sched_inv; [now apply start_lock_inv|now apply start_data_inv].
Qed.

(** While a caller holds the write lock no other caller is inside. *)
Lemma write_lock_excludes (ts : list caller) (s : URLService) (sched : list nat)
    (i j : nat) (t t' : caller) :
  forallb entering ts = true ->
  i <> j ->
  callers (run_sched rfc3339 sched (start ts s)) !! i = Some t ->
  callers (run_sched rfc3339 sched (start ts s)) !! j = Some t' ->
  writing t = true -> writing t' = false /\ reading t' = false.
Proof.
  intros E N Li Lj W.
  eapply lock_inv_exclusion; eauto.
  apply run_sched_lock_inv. now apply start_lock_inv.
Qed.

(** No statistics show a click half recorded. *)
Lemma stats_never_torn (ts : list caller) (s : URLService) (sched : list nat)
    (i : nat) (st : ShortURLStats) :
  forallb entering ts = true -> registry_ok s ->
  callers (run_sched rfc3339 sched (start ts s)) !! i = Some (StatsReturned (Ok st)) ->
  TotalClicks st = wrap64 (Z.of_nat (List.length (Clicks st))).
Proof.
  intros E Hs Li. destruct (reachable_inv ts s sched E Hs) as [_ HD].
  apply (stats_ok _ HD i). now right.
Qed.

(** With the write lock free, every entry agrees with its history. *)
Lemma unlocked_registry_ok (ts : list caller) (s : URLService) (sched : list nat) :
  forallb entering ts = true -> registry_ok s ->
  writer (mutex (mem (run_sched rfc3339 sched (start ts s)))) = false ->
  registry_ok (service (mem (run_sched rfc3339 sched (start ts s)))).
Proof.
  intros E Hs W. destruct (reachable_inv ts s sched E Hs) as [HL HD].
  intros code u Lu. apply (entries_ok _ HD code u Lu).
  intros k click Lk.
  pose proof (count_one writing _ _ _ Lk eq_refl) as C.
  rewrite (writers_counted _ HL), W in C. lia.
Qed.

(** C3. For a code in the map [RecordClick] succeeds whatever the clock
    says (there is no comparison with [ExpiresAt]): the entry gets one more
    [Click], with the reading of the clock, the source and the location, at
    the end of its history, its counter is incremented (in [int]), its other
    fields and the other entries stay. For a code that is not in the map it
    fails with [NotFound] and the registry stays as it is. The update is
    atomic: the steps of the method, run alone, do what is said above; they
    lie between one [Lock] and its [Unlock], and under every schedule of
    concurrent callers no other caller is inside its own critical section
    while one holds the write lock, so that no statistics ever show a
    counter that disagrees with the history. *)
Theorem RecordClick_spec (shortCode source location : string) (now : time.Time)
    (s : URLService) :
  (forall shortURL, urls s !! shortCode = Some shortURL ->
     let click := {| Timestamp := now; Source := source; Location := location |} in
     exists shortURL',
       RecordClick shortCode source location now s
         = (None, {| urls := <[shortCode := shortURL']> (urls s) |})
       /\ ClickHistory shortURL' = (ClickHistory shortURL ++ [click])%list
       /\ ClickCount shortURL' = wrap64 (ClickCount shortURL + 1)
       /\ (min_int <= ClickCount shortURL < max_int ->
           ClickCount shortURL' = ClickCount shortURL + 1)
       /\ ShortCode shortURL' = ShortCode shortURL
       /\ OriginalURL shortURL' = OriginalURL shortURL
       /\ CreatedAt shortURL' = CreatedAt shortURL
       /\ ExpiresAt shortURL' = ExpiresAt shortURL)
  /\ (urls s !! shortCode = None ->
      RecordClick shortCode source location now s = (Some NotFound, s))
  /\ (exists n,
      steps rfc3339 n (AtClick shortCode source location now) (quiet s)
      = (ClickReturned (fst (RecordClick shortCode source location now s)),
         quiet (snd (RecordClick shortCode source location now s))))
  /\ (forall ts s0 sched i j t t',
      forallb entering ts = true -> i <> j ->
      callers (run_sched rfc3339 sched (start ts s0)) !! i = Some t ->
      callers (run_sched rfc3339 sched (start ts s0)) !! j = Some t' ->
      writing t = true -> writing t' = false /\ reading t' = false)
  /\ (forall ts s0 sched i st,
      forallb entering ts = true -> registry_ok s0 ->
      callers (run_sched rfc3339 sched (start ts s0)) !! i
        = Some (StatsReturned (Ok st)) ->
      TotalClicks st = wrap64 (Z.of_nat (List.length (Clicks st)))).
Proof.
  split; [|split; [|split; [|split]]].
  - unfold RecordClick. intros u L. rewrite L. eexists. split; [reflexivity|]. simpl.
    split; [reflexivity|]. split; [reflexivity|].
    split; [|repeat split].
    intros H. apply wrap64_small. unfold max_int, min_int in *. lia.
  - apply RecordClick_absent.
  - apply click_solo.
  - apply write_lock_excludes.
  - apply stats_never_torn.
Qed.

End Exclusion.

(** ** The statements at concrete inputs *)

Lemma GetOriginalURL_spec_witness :
  let shortURL :=
    {| ShortCode := "abcd"; OriginalURL := "https://a.com"; CreatedAt := 0;
       ExpiresAt := 100; ClickCount := 0; ClickHistory := [] |} in
  let s := {| urls := <["abcd" := shortURL]> ∅ |} in
  urls s !! "abcd" = Some shortURL
  /\ GetOriginalURL "abcd" 101 s = (Err Expired, s)
  /\ GetOriginalURL "abcd" 100 s = (Ok "https://a.com", s)
  /\ GetOriginalURL "wxyz" 100 s = (Err NotFound, s).
Proof.
  intros shortURL s.
  split; [reflexivity|].
  split; [|split].
  - refine (proj1 (proj1 (proj2 (proj2 (GetOriginalURL_spec "abcd" 101 s))
                            shortURL eq_refl) _)).
    simpl. lia.
  - refine (proj2 (proj2 (proj2 (GetOriginalURL_spec "abcd" 100 s))
                     shortURL eq_refl) _).
    simpl. lia.
  - refine (proj1 (proj2 (GetOriginalURL_spec "wxyz" 100 s)) _). reflexivity.
Defined.

Lemma RecordClick_spec_witness :
  let shortURL :=
    {| ShortCode := "abcd"; OriginalURL := "https://a.com"; CreatedAt := 0;
       ExpiresAt := 100; ClickCount := 0; ClickHistory := [] |} in
  let s := {| urls := <["abcd" := shortURL]> ∅ |} in
  urls s !! "abcd" = Some shortURL
  /\ (exists shortURL',
        RecordClick "abcd" "direct" "unknown" 500 s
          = (None, {| urls := <["abcd" := shortURL']> (urls s) |})
        /\ ClickHistory shortURL'
           = [{| Timestamp := 500; Source := "direct"; Location := "unknown" |}]
        /\ ClickCount shortURL' = 1)
  /\ RecordClick "wxyz" "direct" "unknown" 500 s = (Some NotFound, s).
Proof.
  intros shortURL s. split; [reflexivity|]. split.
  - destruct (proj1 (RecordClick_spec sample_rfc3339 "abcd" "direct" "unknown" 500 s)
                shortURL eq_refl)
      as (u & H1 & H2 & _ & H3 & _).
    exists u. split; [exact H1|]. split; [exact H2|].
    apply H3. simpl. unfold min_int, max_int. lia.
  - refine (proj1 (proj2 (RecordClick_spec sample_rfc3339 "wxyz" "direct" "unknown" 500 s)) _).
    reflexivity.
Defined.

Lemma GetStats_spec_witness :
  let shortURL :=
    {| ShortCode := "abcd"; OriginalURL := "https://a.com"; CreatedAt := 0;
       ExpiresAt := 100; ClickCount := 0; ClickHistory := [] |} in
  let s := {| urls := <["abcd" := shortURL]> ∅ |} in
  urls s !! "abcd" = Some shortURL
  /\ GetStats "abcd" s
     = (Ok {| TotalClicks := 0; stats_CreatedAt := 0; stats_ExpiresAt := 100;
              Clicks := [] |}, s)
  /\ GetStats "wxyz" s = (Err NotFound, s).
Proof.
  intros shortURL s. split; [reflexivity|]. split.
  - exact (proj1 (proj2 (proj2 (GetStats_spec sample_rfc3339 "abcd" s)))
             shortURL eq_refl).
  - refine (proj1 (GetStats_spec sample_rfc3339 "wxyz" s) _). reflexivity.
Defined.

Lemma validateURL_spec_witness :
  "a b" <> ""
  /\ addProtocol "a b" = "https://a b"
  /\ url.Parse (addProtocol "a b") = None
  /\ validateURL "a b" = Some MalformedURL.
Proof.
  split; [discriminate|]. split; [|split].
  - refine (proj1 (proj2 (validateURL_spec "a b") _) _ _);
      [discriminate|reflexivity|reflexivity].
  - reflexivity.
  - refine (proj2 (proj1 (proj2 (proj2 (proj2 (validateURL_spec "a b") _)))) _);
      [discriminate|reflexivity].
Defined.

Lemma validateShortCode_spec_witness :
  let req := {| URL := "b.com"; Validity := 0; req_ShortCode := "abc" |} in
  4 <= GoString.len "abc#123" <= 20
  /\ forallb isAlnum (Utf8.runes "abc#123") = false
  /\ validateShortCode "abc#123" = Some NonAlphanumeric
  /\ GoString.len "abc" < 4
  /\ validateShortCode "abc" = Some BadLength
  /\ CreateShortURL sample_rfc3339 req 0 [] NewURLService
     = Some (Err (InvalidShortCode BadLength), NewURLService).
Proof.
  intros req.
  split; [vm_compute; split; discriminate|].
  split; [reflexivity|].
  split; [|split; [|split]].
  - refine (proj1 (proj2 (validateShortCode_spec "abc#123")) _ _);
      [vm_compute; split; discriminate|reflexivity].
  - reflexivity.
  - refine (proj1 (validateShortCode_spec "abc") _). left. reflexivity.
  - refine (proj2 (proj2 (proj2 (proj2 (proj2 (proj2 (proj2
              (validateShortCode_spec "abc")))))) sample_rfc3339 req 0 []
              NewURLService BadLength eq_refl _ eq_refl) eq_refl).
    discriminate.
Defined.

Lemma CreateShortURL_record_witness :
  let req := {| URL := "https://a.com"; Validity := 60; req_ShortCode := "abcd" |} in
  let shortURL := newShortURL "abcd" req 60 1700000000000000000 in
  let s' := {| urls := <["abcd" := shortURL]> ∅ |} in
  CreateShortURL sample_rfc3339 req 1700000000000000000 [] NewURLService
    = Some (Ok (response sample_rfc3339 shortURL), s')
  /\ 0 < Validity req
  /\ effectiveValidity req = Validity req.
Proof.
  intros req shortURL s'. split; [reflexivity|]. split; [reflexivity|].
  refine (proj1 (CreateShortURL_record sample_rfc3339 req 1700000000000000000 []
                   NewURLService s' (response sample_rfc3339 shortURL) eq_refl) _).
  reflexivity.
Defined.

Lemma CreateShortURL_generated_witness :
  let req := {| URL := "https://a.com"; Validity := 0; req_ShortCode := "" |} in
  let taken := (Byte.x00, Byte.x00, Byte.x00, Byte.x00) in
  let free := (Byte.xde, Byte.xad, Byte.xbe, Byte.xef) in
  let s :=
    {| urls := <["00000000" :=
                   {| ShortCode := "00000000"; OriginalURL := "https://b.com";
                      CreatedAt := 0; ExpiresAt := 100; ClickCount := 0;
                      ClickHistory := [] |}]> ∅ |} in
  req_ShortCode req = ""
  /\ validateURL (URL req) = None
  /\ Forall (fun d' => shortCodeExists s (draw_code d') = true) [taken]
  /\ shortCodeExists s (draw_code free) = false
  /\ CreateShortURL sample_rfc3339 req 5 [taken; free] s
     = Some (Ok (response sample_rfc3339 (newShortURL "deadbeef" req 30 5)),
             {| urls := <["deadbeef" := newShortURL "deadbeef" req 30 5]> (urls s) |}).
Proof.
  intros req taken free s.
  assert (Htaken : Forall (fun d' => shortCodeExists s (draw_code d') = true) [taken]).
  { repeat constructor. }
  split; [reflexivity|]. split; [reflexivity|].
  split; [exact Htaken|]. split; [reflexivity|].
  exact (proj1 (CreateShortURL_generated sample_rfc3339 req 5 s [taken] [] free
                  eq_refl eq_refl Htaken eq_refl)).
Defined.

Lemma clickCount_is_history_length_witness :
  let req := {| URL := "https://a.com"; Validity := 60; req_ShortCode := "abcd" |} in
  let shortURL := newShortURL "abcd" req 60 0 in
  let s := {| urls := <["abcd" := shortURL]> ∅ |} in
  let ops := [OpRecordClick "abcd" "direct" "unknown" 10;
              OpStats "abcd";
              OpRecordClick "wxyz" "direct" "unknown" 15;
              OpRecordClick "abcd" "https://google.com" "unknown" 20] in
  urls s !! "abcd" = Some shortURL
  /\ GetStats "abcd" (run sample_rfc3339 ops s)
     = (Ok {| TotalClicks := 2;
              stats_CreatedAt := 0;
              stats_ExpiresAt := 3600000000000;
              Clicks := [{| Timestamp := 10; Source := "direct";
                            Location := "unknown" |};
                         {| Timestamp := 20; Source := "https://google.com";
                            Location := "unknown" |}] |},
        run sample_rfc3339 ops s).
Proof.
  intros req shortURL s ops. split; [reflexivity|].
  refine (proj2 (clickCount_is_history_length sample_rfc3339) s "abcd" shortURL ops
            eq_refl eq_refl eq_refl _).
  vm_compute. discriminate.
Defined.

(** * Further properties *)

(** ** The registry over a run of calls *)

Lemma link_inj (a b : string) :
  "http://localhost:3000/" ++ a = "http://localhost:3000/" ++ b -> a = b.
Proof.
  cbv beta iota fix delta [String.append]. intros H. now injection H.
Qed.

Lemma hex_is_alnum (a : ascii) :
  isLowerHex a = true -> isAlnum (GoString.byte_val a) = true.
Proof.
  unfold isLowerHex, isAlnum. intros H.
  apply orb_true_iff in H as [H|H]; apply andb_true_iff in H as [H1 H2];
    apply Z.leb_le in H1, H2.
  - apply orb_true_iff. right. apply andb_true_iff. split; apply Z.leb_le; lia.
  - apply orb_true_iff. left. apply orb_true_iff. left.
    apply andb_true_iff. split; apply Z.leb_le; lia.
Qed.

Lemma hex_string_alnum (s : string) :
  string_forallb isLowerHex s = true ->
  forallb isAlnum (GoString.bytes s) = true.
Proof.
  induction s as [|a s IH]; simpl; [reflexivity|].
  intros H. apply andb_true_iff in H as [Ha Hs].
  rewrite (hex_is_alnum a Ha). simpl. now apply IH.
Qed.

(** A generated code passes the validation of custom codes. *)
Lemma draw_code_valid (d : draw) : validateShortCode (draw_code d) = None.
Proof.
  rewrite validateShortCode_in_range.
  - apply checkAlnum_None. rewrite runes_alnum_bytes.
    apply hex_string_alnum, draw_code_hex.
  - unfold GoString.len. rewrite draw_code_length. lia.
Qed.

Lemma validateShortCode_None (code : string) :
  validateShortCode code = None ->
  4 <= GoString.len code <= 20
  /\ forallb isAlnum (GoString.bytes code) = true.
Proof.
  intros H.
  assert (R : 4 <= GoString.len code <= 20).
  { destruct (Z.lt_ge_cases (GoString.len code) 4) as [A|A].
    - rewrite validateShortCode_length in H by auto. discriminate.
    - destruct (Z.lt_ge_cases 20 (GoString.len code)) as [B|B]; [|lia].
      rewrite validateShortCode_length in H by auto. discriminate. }
  split; [exact R|].
  rewrite validateShortCode_in_range in H by exact R.
  rewrite <- runes_alnum_bytes. now apply checkAlnum_None.
Qed.

Lemma validateURL_Some (rawURL : string) (e : error) :
  validateURL rawURL = Some e ->
  e = EmptyURL /\ rawURL = "" \/ e = MalformedURL /\ rawURL <> "".
Proof.
  unfold validateURL. destruct (GoString.is_empty rawURL) eqn:E.
  - apply is_empty_true in E. intros [= <-]. now left.
  - apply is_empty_false in E.
    destruct (url.Parse (addProtocol rawURL)); [discriminate|].
    intros [= <-]. now right.
Qed.

Lemma checkAlnum_Some_inv (rs : list Z) (e : error) :
  checkAlnum rs = Some e -> e = NonAlphanumeric.
Proof.
  induction rs as [|c rs IH]; simpl; [discriminate|].
  destruct (isAlnum c); simpl; [exact IH|]. now intros [= <-].
Qed.

Lemma validateShortCode_Some (code : string) (e : error) :
  validateShortCode code = Some e -> e = BadLength \/ e = NonAlphanumeric.
Proof.
  unfold validateShortCode.
  destruct ((GoString.len code <? 4) || (GoString.len code >? 20))%bool.
  - intros [= <-]. now left.
  - intros H. right. eapply checkAlnum_Some_inv; eauto.
Qed.

Lemma prefix_append (p s : string) : String.prefix p (p ++ s) = true.
Proof.
  induction p as [|a p IH].
  - change ("" ++ s) with s. destruct s; reflexivity.
  - change (String a p ++ s) with (String a (p ++ s)). cbn [String.prefix].
    destruct (Ascii.ascii_dec a a); [exact IH|congruence].
Qed.

Section RegistryFacts.

Variable rfc3339 : time.Time -> string.

(** X1. Over any sequence of calls an entry is never removed and never
    replaced: it stays under its code with the same code, URL, creation
    and expiry instants, and its history is the old one followed by the
    clicks that the calls of [RecordClick] on its code carry, in their
    order. *)
Theorem entry_persists (ops : list op) (s : URLService) (code : string)
    (shortURL : ShortURL) :
  urls s !! code = Some shortURL ->
  exists shortURL',
    urls (run rfc3339 ops s) !! code = Some shortURL'
    /\ ShortCode shortURL' = ShortCode shortURL
    /\ OriginalURL shortURL' = OriginalURL shortURL
    /\ CreatedAt shortURL' = CreatedAt shortURL
    /\ ExpiresAt shortURL' = ExpiresAt shortURL
    /\ ClickHistory shortURL'
       = (ClickHistory shortURL ++ clicks_on code ops)%list.
Proof.
  intros L. exists (fold_left clicked (clicks_on code ops) shortURL).
  split; [now apply run_lookup|].
  destruct (clicked_all_history (clicks_on code ops) shortURL)
    as (H1 & H2 & H3 & H4 & H5).
  repeat split; assumption.
Qed.

Lemma chooseShortCode_valid (req : CreateShortURLRequest) (draws : list draw)
    (s : URLService) (code : string) :
  chooseShortCode req draws s = Some (Ok code) -> validateShortCode code = None.
Proof.
  unfold chooseShortCode.
  destruct (GoString.is_empty (req_ShortCode req)).
  - destruct (generateShortCode draws s) as [c|] eqn:G; simpl; [|discriminate].
    intros [= <-]. apply generateShortCode_Some in G.
    destruct G as (_ & d & _ & _ & -> & _). apply draw_code_valid.
  - destruct (validateShortCode (req_ShortCode req)) eqn:V; [discriminate|].
    destruct (shortCodeExists s (req_ShortCode req)); [discriminate|].
    now intros [= <-].
Qed.

Lemma apply_op_keys_ok (o : op) (s : URLService) :
  keys_ok s -> keys_ok (apply_op rfc3339 o s).
Proof.
  intros Hs. destruct o as [req now draws|c now|c source location now|c]; simpl.
  - destruct (CreateShortURL rfc3339 req now draws s) as [[[resp|e] s']|] eqn:C.
    + apply CreateShortURL_Ok in C. destruct C as (code & _ & Ch & _ & _ & ->).
      intros k u. simpl. rewrite lookup_insert. case_decide.
      * intros [= <-]. subst k. split; [reflexivity|].
        eapply chooseShortCode_valid; eauto.
      * apply Hs.
    + apply CreateShortURL_Err in C. now subst.
    + exact Hs.
  - unfold GetOriginalURL. destruct (urls s !! c); [|exact Hs].
    destruct (time.After now _); exact Hs.
  - unfold RecordClick. destruct (urls s !! c) as [u|] eqn:L; [|exact Hs].
    intros k u'. simpl. rewrite lookup_insert. case_decide.
    + intros [= <-]. subst k. simpl. apply (Hs c u L).
    + apply Hs.
  - unfold GetStats. destruct (urls s !! c); exact Hs.
Qed.

Lemma run_keys_ok (ops : list op) (s : URLService) :
  keys_ok s -> keys_ok (run rfc3339 ops s).
Proof.
  revert s. induction ops as [|o ops IH]; intros s Hs; simpl; [exact Hs|].
  apply IH. now apply apply_op_keys_ok.
Qed.

(** X2. In every registry that a sequence of calls builds from the empty
    one, an entry sits under the code it carries, and every code, custom
    or generated, is one that [validateShortCode] accepts: 4 to 20 bytes,
    all of them ASCII letters or digits. *)
Theorem registry_keys_valid (ops : list op) (code : string) (shortURL : ShortURL) :
  urls (run rfc3339 ops NewURLService) !! code = Some shortURL ->
  ShortCode shortURL = code
  /\ validateShortCode code = None
  /\ 4 <= GoString.len code <= 20
  /\ forallb isAlnum (GoString.bytes code) = true.
Proof.
  intros L.
  assert (K : keys_ok (run rfc3339 ops NewURLService)).
  { apply run_keys_ok. intros k u Lk. simpl in Lk.
    rewrite lookup_empty in Lk. discriminate. }
  destruct (K code shortURL L) as [K1 K2].
  split; [exact K1|]. split; [exact K2|]. now apply validateShortCode_None.
Qed.

(** X3. A code past its expiry is never free again. Whatever calls
    follow, resolving it at that instant or later fails with [Expired], a
    request for it as a custom code fails with the collision error, and no
    successful create returns it. *)
Theorem expired_code_stays_taken (ops : list op) (s : URLService) (code : string)
    (shortURL : ShortURL) (now now' : time.Time) :
  urls s !! code = Some shortURL ->
  ExpiresAt shortURL < now -> now <= now' ->
  GetOriginalURL code now' (run rfc3339 ops s)
    = (Err Expired, run rfc3339 ops s)
  /\ (forall req now'' draws,
      req_ShortCode req = code -> code <> "" ->
      validateURL (URL req) = None -> validateShortCode code = None ->
      CreateShortURL rfc3339 req now'' draws (run rfc3339 ops s)
        = Some (Err CodeCollision, run rfc3339 ops s))
  /\ (forall req now'' draws resp s',
      CreateShortURL rfc3339 req now'' draws (run rfc3339 ops s)
        = Some (Ok resp, s') ->
      ShortLink resp <> "http://localhost:3000/" ++ code).
Proof.
  intros L E T.
  pose proof (run_lookup rfc3339 ops s code shortURL L) as L'.
  destruct (clicked_all_history (clicks_on code ops) shortURL)
    as (_ & _ & _ & _ & E').
  split; [|split].
  - unfold GetOriginalURL, time.After. rewrite L', E'.
    replace (ExpiresAt shortURL <? now') with true; [reflexivity|].
    symmetry. apply Z.ltb_lt. lia.
  - intros req now'' draws <- Hne V C.
    apply CreateShortURL_collision; auto; rewrite L'; eauto.
  - intros req now'' draws resp s' C.
    apply CreateShortURL_Ok in C. destruct C as (k & _ & _ & Fresh & -> & _).
    simpl. intros H. apply link_inj in H. congruence.
Qed.



(** X6. The failures of [CreateShortURL]. A call that fails leaves the
    registry as it is and carries one of five messages, by the first check
    that fails: the URL (empty, or rejected by the parser), then the format
    of the custom code (length, then characters), then the collision. *)
Theorem CreateShortURL_errors (req : CreateShortURLRequest) (now : time.Time)
    (draws : list draw) (s s' : URLService) (e : error) :
  CreateShortURL rfc3339 req now draws s = Some (Err e, s') ->
  s' = s
  /\ (e = "invalid URL: URL cannot be empty"
        /\ URL req = ""
      \/ e = "invalid URL: invalid URL format"
        /\ validateURL (URL req) = Some MalformedURL
      \/ e = "invalid shortcode: shortcode must be 4-20 characters"
        /\ validateURL (URL req) = None
        /\ req_ShortCode req <> ""
        /\ validateShortCode (req_ShortCode req) = Some BadLength
      \/ e = "invalid shortcode: shortcode must be alphanumeric"
        /\ validateURL (URL req) = None
        /\ validateShortCode (req_ShortCode req) = Some NonAlphanumeric
      \/ e = "shortcode already exists"
        /\ validateURL (URL req) = None
        /\ validateShortCode (req_ShortCode req) = None
        /\ is_Some (urls s !! req_ShortCode req)).
Proof.
  intros C. split; [eapply CreateShortURL_Err; eauto|].
  revert C. unfold CreateShortURL.
  destruct (validateURL (URL req)) as [e0|] eqn:V.
  - intros [= <- _].
    destruct (validateURL_Some _ _ V) as [[-> U]|[-> U]]; [left|right; left]; auto.
  - destruct (chooseShortCode req draws s) as [[code|e1]|] eqn:Ch; try discriminate.
    intros [= <- _]. apply chooseShortCode_Err in Ch.
    destruct Ch as [Hne [(-> & Vc & P)|(e2 & Vc & ->)]].
    + do 4 right. auto.
    + destruct (validateShortCode_Some _ _ Vc) as [-> | ->].
      * right; right; left. auto.
      * right; right; right; left. auto.
Qed.

(** X7. The string [validateURL] parses is a fixed point of the
    normalization: it starts with [http://] or [https://], adding the
    protocol to it changes nothing, and [validateURL] gives the same verdict
    on it as on the URL it came from. *)
Theorem addProtocol_idempotent (rawURL : string) :
  addProtocol (addProtocol rawURL) = addProtocol rawURL
  /\ (GoString.HasPrefix (addProtocol rawURL) "http://" = true
      \/ GoString.HasPrefix (addProtocol rawURL) "https://" = true)
  /\ (rawURL <> "" -> validateURL (addProtocol rawURL) = validateURL rawURL).
Proof.
  assert (P : GoString.HasPrefix (addProtocol rawURL) "http://" = true
              \/ GoString.HasPrefix (addProtocol rawURL) "https://" = true).
  { unfold addProtocol, GoString.HasPrefix.
    destruct (String.prefix "http://" rawURL) eqn:P1; simpl; [now left|].
    destruct (String.prefix "https://" rawURL) eqn:P2; simpl; [now right|].
    right. apply prefix_append. }
  assert (I : addProtocol (addProtocol rawURL) = addProtocol rawURL).
  { now apply addProtocol_present. }
  split; [exact I|]. split; [exact P|].
  intros Hne.
  assert (Hne' : addProtocol rawURL <> "").
  { intros E. rewrite E in P. destruct P; discriminate. }
  rewrite (validateURL_nonempty _ Hne), (validateURL_nonempty _ Hne'), I.
  reflexivity.
Qed.

(** X9. In a run of calls no two successful creates return the same short
    link: the code of the first is still in the map when the second picks
    its own. *)
Theorem links_unique (req1 req2 : CreateShortURLRequest) (now1 now2 : time.Time)
    (draws1 draws2 : list draw) (ops : list op) (s s1 s3 : URLService)
    (resp1 resp2 : CreateShortURLResponse) :
  CreateShortURL rfc3339 req1 now1 draws1 s = Some (Ok resp1, s1) ->
  CreateShortURL rfc3339 req2 now2 draws2 (run rfc3339 ops s1) = Some (Ok resp2, s3) ->
  ShortLink resp1 <> ShortLink resp2.
Proof.
  intros C1 C2.
  apply CreateShortURL_Ok in C1. destruct C1 as (k1 & _ & _ & _ & -> & ->).
  apply CreateShortURL_Ok in C2. destruct C2 as (k2 & _ & _ & Fresh & -> & _).
  simpl. intros H. apply link_inj in H. subst k2.
  rewrite (run_lookup rfc3339 ops _ k1 (newShortURL k1 req1 (effectiveValidity req1) now1))
    in Fresh; [discriminate|].
  simpl. apply lookup_insert_eq.
Qed.

End RegistryFacts.

(** X8. Clicks on different codes do not interfere: recorded in either
    order they leave the same registry, and each call has the result it has
    without the other. *)
Theorem RecordClick_commute (a b sa la sb lb : string) (na nb : time.Time)
    (s : URLService) :
  a <> b ->
  snd (RecordClick b sb lb nb (snd (RecordClick a sa la na s)))
  = snd (RecordClick a sa la na (snd (RecordClick b sb lb nb s)))
  /\ fst (RecordClick b sb lb nb (snd (RecordClick a sa la na s)))
     = fst (RecordClick b sb lb nb s)
  /\ fst (RecordClick a sa la na (snd (RecordClick b sb lb nb s)))
     = fst (RecordClick a sa la na s).
Proof.
  intros N. unfold RecordClick.
  destruct (urls s !! a) as [ua|] eqn:La; destruct (urls s !! b) as [ub|] eqn:Lb;
    simpl; rewrite ?lookup_insert_ne by congruence; rewrite ?La, ?Lb; simpl;
    repeat split; try reflexivity.
  f_equal. apply insert_insert_ne. congruence.
Qed.

(** ** Progress under concurrent callers *)

Section Liveness.

Variable rfc3339 : time.Time -> string.

Import Conc.

Lemma count_pos (p : caller -> bool) (l : list caller) :
  (0 < count p l)%nat -> exists i t, l !! i = Some t /\ p t = true.
Proof.
  induction l as [|x l IH]; simpl; [lia|].
  destruct (p x) eqn:P.
  - intros _. exists 0%nat, x. auto.
  - intros H. destruct IH as (i & t & L & Pt); [lia|].
    exists (S i), t. auto.
Qed.

Lemma count_none (p : caller -> bool) (l : list caller) :
  (forall i t, l !! i = Some t -> p t = false) -> count p l = 0%nat.
Proof.
  induction l as [|x l IH]; intros H; simpl; [reflexivity|].
  rewrite (H 0%nat x eq_refl). rewrite IH; [reflexivity|].
  intros i t L. apply (H (S i) t L).
Qed.

(** Inside a critical section a caller never waits. *)
Lemma inside_moves (t : caller) (m : shared) :
  reading t = true \/ writing t = true -> is_Some (step rfc3339 t m).
Proof.
  intros [H|H]; destruct t; try discriminate H; simpl;
    repeat match goal with
    | |- context [match ?x with _ => _ end] => destruct x
    end; eauto.
Qed.

Lemma count_zero (p : caller -> bool) (l : list caller) (i : nat) (t : caller) :
  count p l = 0%nat -> l !! i = Some t -> p t = false.
Proof.
  intros C L. destruct (p t) eqn:P; [|reflexivity].
  pose proof (count_one p l i t L P). lia.
Qed.

(** With the lock free, a caller that is neither inside a critical
    section, nor returned, nor out of draws can take its step. *)
Lemma outside_moves (t : caller) (m : shared) :
  mutex m = unlocked ->
  reading t = false -> writing t = false ->
  returned t = false -> out_of_draws t = false ->
  is_Some (step rfc3339 t m).
Proof.
  intros U R W Rt D. unfold step, RLock, Lock. rewrite U.
  destruct t; try discriminate; simpl;
    repeat match goal with
    | |- context [match ?x with _ => _ end] => destruct x
    end; try discriminate; eauto.
Qed.

(** X10. No deadlock, also under the rule of [sync.RWMutex] that a
    waiting writer keeps new readers out. Under every schedule of callers
    that start at the entries of their methods, as long as some call has
    not returned (and is not a generation loop left without draws), one of
    three holds. Some caller is inside a critical section and can take its
    step, which acquires no lock. Or nobody is inside, the lock is free,
    and every caller about to call [Lock] can take it, whichever of them
    is first in line. Or nobody is inside, the lock is free, no caller is
    about to call [Lock], so that no writer waits, and the call that has
    not returned can take its step. No method asks for a lock while it
    holds one. *)
Theorem no_deadlock (ts : list caller) (s : URLService) (sched : list nat)
    (i : nat) (t : caller) :
  forallb entering ts = true ->
  let c := run_sched rfc3339 sched (start ts s) in
  callers c !! i = Some t ->
  returned t = false -> out_of_draws t = false ->
  (exists j t',
     callers c !! j = Some t'
     /\ (reading t' = true \/ writing t' = true)
     /\ at_lock t' = false /\ at_rlock t' = false
     /\ is_Some (step rfc3339 t' (mem c)))
  \/ (mutex (mem c) = unlocked
      /\ (exists j t', callers c !! j = Some t' /\ at_lock t' = true)
      /\ (forall j t', callers c !! j = Some t' -> at_lock t' = true ->
                       is_Some (step rfc3339 t' (mem c))))
  \/ (mutex (mem c) = unlocked
      /\ (forall j t', callers c !! j = Some t' -> at_lock t' = false)
      /\ is_Some (step rfc3339 t (mem c))).
Proof.
  intros E c L R D.
  pose proof (run_sched_lock_inv rfc3339 sched _ (start_lock_inv ts s E)) as HL.
  fold c in HL.
  assert (Inside : forall j t', callers c !! j = Some t' ->
            reading t' = true \/ writing t' = true ->
            exists j t',
              callers c !! j = Some t'
              /\ (reading t' = true \/ writing t' = true)
              /\ at_lock t' = false /\ at_rlock t' = false
              /\ is_Some (step rfc3339 t' (mem c))).
  { intros j t' Lj In'. exists j, t'. split; [exact Lj|]. split; [exact In'|].
    split; [|split].
    - destruct In' as [X|X]; destruct t'; try discriminate X; reflexivity.
    - destruct In' as [X|X]; destruct t'; try discriminate X; reflexivity.
    - now apply inside_moves. }
  destruct (Nat.eq_dec (count reading (callers c)) 0%nat) as [Cr|Cr].
  2:{ left. destruct (count_pos reading (callers c)) as (j & t' & Lj & Rt); [lia|].
      eapply Inside; eauto. }
  destruct (Nat.eq_dec (count writing (callers c)) 0%nat) as [Cw|Cw].
  2:{ left. destruct (count_pos writing (callers c)) as (j & t' & Lj & Wt); [lia|].
      eapply Inside; eauto. }
  assert (U : mutex (mem c) = unlocked).
  { pose proof (readers_counted _ HL) as Hr. pose proof (writers_counted _ HL) as Hw.
    rewrite Cr in Hr. rewrite Cw in Hw.
    destruct (mutex (mem c)) as [r w]. simpl in *. subst r.
    destruct w; [discriminate|reflexivity]. }
  assert (Out : forall j t', callers c !! j = Some t' ->
            reading t' = false /\ writing t' = false).
  { intros j t' Lj. split; eapply count_zero; eauto. }
  right.
  destruct (Nat.eq_dec (count at_lock (callers c)) 0%nat) as [Ca|Ca].
  - right. split; [exact U|]. split.
    + intros j t' Lj. eapply count_zero; eauto.
    + destruct (Out i t L) as [Rd Wr]. now apply outside_moves.
  - left. split; [exact U|]. split.
    + destruct (count_pos at_lock (callers c)) as (j & t' & Lj & A); [lia|]. eauto.
    + intros j t' Lj A. destruct (Out j t' Lj) as [Rd Wr].
      apply outside_moves; auto; destruct t'; try discriminate A; reflexivity.
Qed.

(** X11. Every lock taken is given back. Under every schedule, once each
    caller has returned or has not yet taken its first step, the mutex has
    no reader and no writer, and the counter of every entry agrees with its
    history. *)
Theorem lock_released (ts : list caller) (s : URLService) (sched : list nat) :
  forallb entering ts = true -> registry_ok s ->
  (forall i t, callers (run_sched rfc3339 sched (start ts s)) !! i = Some t ->
     returned t = true \/ entering t = true) ->
  mutex (mem (run_sched rfc3339 sched (start ts s))) = unlocked
  /\ registry_ok (service (mem (run_sched rfc3339 sched (start ts s)))).
Proof.
  intros E Hs H.
  pose proof (run_sched_lock_inv rfc3339 sched _ (start_lock_inv ts s E)) as HL.
  assert (W : writer (mutex (mem (run_sched rfc3339 sched (start ts s)))) = false
              /\ readers (mutex (mem (run_sched rfc3339 sched (start ts s)))) = 0%nat).
  { set (c := run_sched rfc3339 sched (start ts s)) in *.
    assert (Cr : count reading (callers c) = 0%nat).
    { apply count_none. intros i t L.
      destruct (H i t L) as [X|X]; destruct t; auto; discriminate. }
    assert (Cw : count writing (callers c) = 0%nat).
    { apply count_none. intros i t L.
      destruct (H i t L) as [X|X]; destruct t; auto; discriminate. }
    pose proof (readers_counted _ HL) as R. pose proof (writers_counted _ HL) as Wc.
    rewrite Cr in R. rewrite Cw in Wc.
    split; [|exact R]. destruct (writer (mutex (mem c))); [discriminate|reflexivity]. }
  destruct W as [W R]. split.
  - destruct (mutex (mem (run_sched rfc3339 sched (start ts s)))) as [r w].
    simpl in *. subst. reflexivity.
  - now apply unlocked_registry_ok.
Qed.

Lemma step_keeps_codes (t t' : caller) (m m' : shared) (code : string) :
  step rfc3339 t m = Some (t', m') ->
  is_Some (urls (service m) !! code) -> is_Some (urls (service m') !! code).
Proof.
  unfold step. intros H P.
  destruct t; simpl in H;
    repeat match type of H with
    | context [match ?x with _ => _ end] => destruct x eqn:?
    end; try discriminate; injection H as <- <-; simpl; auto.
  - apply lookup_insert_is_Some'. auto.
  - apply lookup_alter_is_Some. auto.
  - apply lookup_alter_is_Some. auto.
Qed.

(** X12. Under every schedule of concurrent callers a code that is in the
    registry stays in it: no step of any method deletes an entry. *)
Theorem codes_never_freed (sched : list nat) (c : config) (code : string) :
  is_Some (urls (service (mem c)) !! code) ->
  is_Some (urls (service (mem (run_sched rfc3339 sched c))) !! code).
Proof.
  revert c. induction sched as [|i sched IH]; intros c P; simpl; [exact P|].
  apply IH. unfold sched_step.
  destruct (callers c !! i) as [t|]; [|exact P].
  destruct (step rfc3339 t (mem c)) as [[t' m']|] eqn:S; [|exact P].
  simpl. eapply step_keeps_codes; eauto.
Qed.

End Liveness.

(** ** The handlers *)

Lemma TrimPrefix_slash (code : string) : TrimPrefix ("/" ++ code) "/" = code.
Proof. destruct code; reflexivity. Qed.

Lemma TrimPrefix_shorturls (code : string) :
  TrimPrefix ("/shorturls/" ++ code) "/shorturls/" = code.
Proof. destruct code; reflexivity. Qed.

Lemma RedirectURL_reserved (r : HttpRequest) (now1 now2 : time.Time) (s : URLService) :
  reserved (TrimPrefix (URLPath r) "/") = true ->
  URLHandler.RedirectURL r now1 now2 s = (Nothing, s).
Proof. unfold URLHandler.RedirectURL, reserved. now intros ->. Qed.

Lemma RedirectURL_absent (r : HttpRequest) (now1 now2 : time.Time) (s : URLService) :
  reserved (TrimPrefix (URLPath r) "/") = false ->
  urls s !! TrimPrefix (URLPath r) "/" = None ->
  URLHandler.RedirectURL r now1 now2 s = (not_found_or_expired, s).
Proof.
  unfold URLHandler.RedirectURL, reserved, GetOriginalURL. now intros -> ->.
Qed.

Lemma RedirectURL_expired (r : HttpRequest) (now1 now2 : time.Time) (s : URLService)
    (shortURL : ShortURL) :
  reserved (TrimPrefix (URLPath r) "/") = false ->
  urls s !! TrimPrefix (URLPath r) "/" = Some shortURL ->
  ExpiresAt shortURL < now1 ->
  URLHandler.RedirectURL r now1 now2 s = (not_found_or_expired, s).
Proof.
  unfold URLHandler.RedirectURL, reserved, GetOriginalURL, time.After.
  intros -> -> H. apply Z.ltb_lt in H. now rewrite H.
Qed.

Lemma RedirectURL_live (r : HttpRequest) (now1 now2 : time.Time) (s : URLService)
    (shortURL : ShortURL) :
  reserved (TrimPrefix (URLPath r) "/") = false ->
  urls s !! TrimPrefix (URLPath r) "/" = Some shortURL ->
  now1 <= ExpiresAt shortURL ->
  URLHandler.RedirectURL r now1 now2 s
  = (HttpRedirect (OriginalURL shortURL) 301,
     {| urls := <[TrimPrefix (URLPath r) "/" := clicked shortURL (click_of r now2)]>
                  (urls s) |}).
Proof.
  unfold URLHandler.RedirectURL, reserved, GetOriginalURL, time.After.
  intros -> L H. rewrite L. apply Z.ltb_ge in H. rewrite H.
  now rewrite (RecordClick_present _ _ _ _ _ _ L).
Qed.

Lemma handler_GetStats_present (q : HttpRequest) (s : URLService) (code : string)
    (shortURL : ShortURL) :
  URLPath q = "/shorturls/" ++ code -> code <> "" ->
  urls s !! code = Some shortURL ->
  URLHandler.GetStats q s = (Json 200 (JsonStats (stats_of shortURL)), s).
Proof.
  intros P N L. unfold URLHandler.GetStats.
  rewrite P, TrimPrefix_shorturls.
  apply is_empty_false in N. rewrite N.
  now rewrite (GetStats_present _ _ _ L).
Qed.

(** X13. The four answers of [RedirectURL]. For the path words
    [shorturls] and [health] it writes nothing at all; for a code that is
    not in the map, and for one past its expiry, it answers 404 with one and
    the same message and records nothing; otherwise it redirects with 301 to
    the stored URL and the entry gets one click, whose source is the
    [Referer] header, or [direct] without one, and whose location is
    [unknown]. *)
Theorem RedirectURL_cases (r : HttpRequest) (now1 now2 : time.Time) (s : URLService) :
  let shortCode := TrimPrefix (URLPath r) "/" in
  (reserved shortCode = true ->
     URLHandler.RedirectURL r now1 now2 s = (Nothing, s))
  /\ (reserved shortCode = false -> urls s !! shortCode = None ->
     URLHandler.RedirectURL r now1 now2 s = (not_found_or_expired, s))
  /\ (forall shortURL,
     reserved shortCode = false -> urls s !! shortCode = Some shortURL ->
     (ExpiresAt shortURL < now1 ->
        URLHandler.RedirectURL r now1 now2 s = (not_found_or_expired, s))
     /\ (now1 <= ExpiresAt shortURL ->
        URLHandler.RedirectURL r now1 now2 s
        = (HttpRedirect (OriginalURL shortURL) 301,
           {| urls := <[shortCode := clicked shortURL (click_of r now2)]> (urls s) |}))).
Proof.
  intros shortCode.
  split; [apply RedirectURL_reserved|].
  split; [apply RedirectURL_absent|].
  intros u R L. split; [now apply RedirectURL_expired|now apply RedirectURL_live].
Qed.

(** X14. [RedirectURL] changes the registry exactly when it redirects: a
    request that is answered with 404, or with nothing, records no click,
    and every redirect records one. *)
Theorem RedirectURL_click_iff_redirect (r : HttpRequest) (now1 now2 : time.Time)
    (s : URLService) :
  (exists target, fst (URLHandler.RedirectURL r now1 now2 s) = HttpRedirect target 301)
  <-> snd (URLHandler.RedirectURL r now1 now2 s) <> s.
Proof.
  set (shortCode := TrimPrefix (URLPath r) "/").
  destruct (reserved shortCode) eqn:R.
  { rewrite RedirectURL_reserved by exact R. simpl.
    split; [intros [t H]; discriminate|congruence]. }
  destruct (urls s !! shortCode) as [u|] eqn:L.
  2:{ rewrite RedirectURL_absent by auto. simpl.
      split; [intros [t H]; discriminate|congruence]. }
  destruct (Z.lt_ge_cases (ExpiresAt u) now1) as [H|H].
  { rewrite (RedirectURL_expired _ _ _ _ u) by auto. simpl.
    split; [intros [t X]; discriminate|congruence]. }
  rewrite (RedirectURL_live _ _ _ _ u) by auto. simpl. split; [|eauto].
  intros _ X. apply (f_equal (fun s => urls s !! shortCode)) in X. simpl in X.
  fold shortCode in X.
  rewrite lookup_insert_eq, L in X. injection X as X.
  apply (f_equal (fun u => List.length (ClickHistory u))) in X. simpl in X.
  rewrite length_app in X. simpl in X. lia.
Qed.

(** X15. The answers of the statistics handler. It never changes the
    registry; without a code after [/shorturls/] it answers 400, for a code
    that is not in the map 404 with the message of the service, and for a
    code in the map 200 with the statistics of the entry, whether the entry
    has expired or not. *)
Theorem handler_GetStats_cases (q : HttpRequest) (s : URLService) :
  let shortCode := TrimPrefix (URLPath q) "/shorturls/" in
  snd (URLHandler.GetStats q s) = s
  /\ (shortCode = "" ->
      fst (URLHandler.GetStats q s)
      = Json 400 (JsonError {| Error := "Bad Request";
                               Message := "Shortcode is required" |}))
  /\ (shortCode <> "" -> urls s !! shortCode = None ->
      fst (URLHandler.GetStats q s)
      = Json 404 (JsonError {| Error := "Not Found";
                               Message := "shortcode not found" |}))
  /\ (forall shortURL,
      shortCode <> "" -> urls s !! shortCode = Some shortURL ->
      fst (URLHandler.GetStats q s)
      = Json 200 (JsonStats {| TotalClicks := ClickCount shortURL;
                               stats_CreatedAt := CreatedAt shortURL;
                               stats_ExpiresAt := ExpiresAt shortURL;
                               Clicks := ClickHistory shortURL |})).
Proof.
  intros shortCode. unfold URLHandler.GetStats. fold shortCode.
  unfold GetStats.
  split; [|split; [|split]].
  - destruct (GoString.is_empty shortCode); [reflexivity|].
    destruct (urls s !! shortCode); reflexivity.
  - intros E. apply is_empty_true in E. now rewrite E.
  - intros N L. apply is_empty_false in N. now rewrite N, L.
  - intros u N L. apply is_empty_false in N. now rewrite N, L.
Qed.

(** X16. An expired link is closed to visitors and open to statistics:
    for a code past its expiry the redirect handler answers 404 and records
    nothing, while the statistics handler still answers 200 with the
    counter and the whole history of the entry. *)
Theorem expired_link_stats_still_served (get q : HttpRequest) (now1 now2 : time.Time)
    (s : URLService) (code : string) (shortURL : ShortURL) :
  urls s !! code = Some shortURL ->
  ExpiresAt shortURL < now1 ->
  reserved code = false -> code <> "" ->
  URLPath get = "/" ++ code -> URLPath q = "/shorturls/" ++ code ->
  URLHandler.RedirectURL get now1 now2 s = (not_found_or_expired, s)
  /\ URLHandler.GetStats q s = (Json 200 (JsonStats (stats_of shortURL)), s).
Proof.
  intros L E R N Pg Pq. split.
  - apply (RedirectURL_expired _ _ _ _ shortURL);
      rewrite ?Pg, ?TrimPrefix_slash; auto.
  - now apply (handler_GetStats_present q s code).
Qed.

Lemma redirect_all_lookup (hits : list (HttpRequest * time.Time * time.Time))
    (s : URLService) (code : string) (shortURL : ShortURL) :
  reserved code = false ->
  urls s !! code = Some shortURL ->
  Forall (fun '(r, now1, _) => URLPath r = "/" ++ code /\ now1 <= ExpiresAt shortURL)
         hits ->
  urls (redirect_all hits s) !! code
  = Some (fold_left clicked (map (fun '(r, _, now2) => click_of r now2) hits)
                    shortURL).
Proof.
  intros R. revert s shortURL.
  induction hits as [|[[r now1] now2] hits IH]; intros s u L F; simpl; [exact L|].
  apply Forall_cons in F as [[P T] F].
  unfold redirect_all in IH.
  rewrite (RedirectURL_live r now1 now2 s u);
    rewrite ?P, ?TrimPrefix_slash; auto.
  simpl. apply IH.
  - simpl. apply lookup_insert_eq.
  - exact F.
Qed.

(** X17. Every redirect is counted. After any number of redirects of a
    live link the statistics handler reports all of them: the clicks of the
    requests, in their order, after the history there was, and a counter
    equal to the length of that list (in [int]). *)
Theorem redirects_counted (hits : list (HttpRequest * time.Time * time.Time))
    (q : HttpRequest) (s : URLService) (code : string) (shortURL : ShortURL) :
  reserved code = false -> code <> "" ->
  urls s !! code = Some shortURL -> count_ok shortURL ->
  Forall (fun '(r, now1, _) => URLPath r = "/" ++ code /\ now1 <= ExpiresAt shortURL)
         hits ->
  URLPath q = "/shorturls/" ++ code ->
  let clicks := map (fun '(r, _, now2) => click_of r now2) hits in
  URLHandler.GetStats q (redirect_all hits s)
  = (Json 200 (JsonStats
       {| TotalClicks :=
            wrap64 (Z.of_nat (List.length (ClickHistory shortURL)
                              + List.length hits));
          stats_CreatedAt := CreatedAt shortURL;
          stats_ExpiresAt := ExpiresAt shortURL;
          Clicks := (ClickHistory shortURL ++ clicks)%list |}),
     redirect_all hits s).
Proof.
  intros R N L C F P clicks.
  pose proof (redirect_all_lookup hits s code shortURL R L F) as L'.
  fold clicks in L'.
  rewrite (handler_GetStats_present q _ code _ P N L').
  destruct (clicked_all_history clicks shortURL) as (H1 & _ & _ & H4 & H5).
  pose proof (clicked_all_ok clicks shortURL C) as C'.
  unfold stats_of. rewrite C', H1, H4, H5.
  rewrite length_app. unfold clicks at 1. rewrite length_map.
  reflexivity.
Qed.

Section HandlerFacts.

Variable rfc3339 : time.Time -> string.
Variable Unmarshal : string -> option CreateShortURLRequest.

(** X18. The words [RedirectURL] passes over are codes the service
    accepts. [shorturls] and [health] pass [validateShortCode], a create
    with one of them as custom code succeeds and returns a link, and
    [RedirectURL] answers a request for that link with nothing: no
    redirect, no error and no click. *)
Theorem reserved_words_are_valid_codes (shortCode : string) :
  reserved shortCode = true ->
  validateShortCode shortCode = None
  /\ (forall req now draws s,
      req_ShortCode req = shortCode -> validateURL (URL req) = None ->
      urls s !! shortCode = None ->
      exists resp s',
        CreateShortURL rfc3339 req now draws s = Some (Ok resp, s')
        /\ ShortLink resp = "http://localhost:3000/" ++ shortCode
        /\ is_Some (urls s' !! shortCode)
        /\ forall r now1 now2,
             URLPath r = "/" ++ shortCode ->
             URLHandler.RedirectURL r now1 now2 s' = (Nothing, s')).
Proof.
  intros R.
  assert (V : validateShortCode shortCode = None).
  { unfold reserved in R. apply orb_true_iff in R as [R|R];
      apply String.eqb_eq in R; subst; reflexivity. }
  assert (Hne : GoString.is_empty shortCode = false).
  { unfold reserved in R. apply orb_true_iff in R as [R|R];
      apply String.eqb_eq in R; subst; reflexivity. }
  split; [exact V|].
  intros req now draws s <- U L.
  eexists. eexists. split.
  - unfold CreateShortURL, chooseShortCode.
    rewrite U, Hne, V. apply shortCodeExists_false in L. rewrite L. reflexivity.
  - split; [reflexivity|]. split; [simpl; rewrite lookup_insert_eq; eauto|].
    intros r now1 now2 P. apply RedirectURL_reserved.
    rewrite P, TrimPrefix_slash. exact R.
Qed.

(** The messages of a failed create of the service, for a URL that is not
    empty. *)
Lemma CreateShortURL_Err_message (req : CreateShortURLRequest) (now : time.Time)
    (draws : list draw) (s s' : URLService) (e : error) :
  CreateShortURL rfc3339 req now draws s = Some (Err e, s') ->
  URL req <> "" ->
  In e ["invalid URL: invalid URL format";
        "invalid shortcode: shortcode must be 4-20 characters";
        "invalid shortcode: shortcode must be alphanumeric";
        "shortcode already exists"].
Proof.
  unfold CreateShortURL. intros C N.
  destruct (validateURL (URL req)) as [e0|] eqn:V.
  - injection C as <- _.
    destruct (validateURL_Some _ _ V) as [[_ U]|[-> _]]; [contradiction|].
    simpl. auto.
  - destruct (chooseShortCode req draws s) as [[code|e1]|] eqn:Ch; try discriminate.
    injection C as <- _. apply chooseShortCode_Err in Ch.
    destruct Ch as [_ [(-> & _)|(e2 & Vc & ->)]]; [simpl; auto|].
    destruct (validateShortCode_Some _ _ Vc) as [-> | ->]; simpl; auto.
Qed.

(** X19. The answers of the create handler, in both directions. For
    another method than POST it answers 405 in plain text; for a body that
    cannot be read, a body that does not decode, and an empty URL it
    answers 400 with a message of its own, the last before the service
    sees the request; otherwise it answers what the service does: 201 with
    the response of a successful create and the registry of the service,
    400 with the message of a failed one, which is one of four, and the
    registry as it was. Hence it answers 201 exactly when the method is
    POST, the body is read and decoded, the URL is not empty and the
    service succeeds, and every other answer leaves the registry as it is:
    405, or 400 with one of seven messages, the message of the service for
    an empty URL not among them. *)
Theorem handler_CreateShortURL_cases (r : HttpRequest) (now : time.Time)
    (draws : list draw) (s : URLService) :
  let bad message :=
    Json 400 (JsonError {| Error := "Bad Request"; Message := message |}) in
  let answer := URLHandler.CreateShortURL rfc3339 Unmarshal r now draws s in
  (Method r <> "POST" -> answer = Some (HttpError "Method not allowed" 405, s))
  /\ (Method r = "POST" -> Body r = None ->
      answer = Some (bad "Failed to read request body", s))
  /\ (forall body,
      Method r = "POST" -> Body r = Some body ->
      (Unmarshal body = None -> answer = Some (bad "Invalid JSON", s))
      /\ (forall req,
          Unmarshal body = Some req ->
          (URL req = "" -> answer = Some (bad "URL is required", s))
          /\ (URL req <> "" ->
              (forall resp s',
                 CreateShortURL rfc3339 req now draws s = Some (Ok resp, s') ->
                 answer = Some (Json 201 (JsonCreated resp), s'))
              /\ (forall e s',
                  CreateShortURL rfc3339 req now draws s = Some (Err e, s') ->
                  answer = Some (bad e, s)
                  /\ s' = s
                  /\ In e ["invalid URL: invalid URL format";
                           "invalid shortcode: shortcode must be 4-20 characters";
                           "invalid shortcode: shortcode must be alphanumeric";
                           "shortcode already exists"])
              /\ (CreateShortURL rfc3339 req now draws s = None ->
                  answer = None))))
  /\ (forall w s',
      answer = Some (w, s') ->
      (exists body req resp,
         Method r = "POST" /\ Body r = Some body /\ Unmarshal body = Some req
         /\ URL req <> ""
         /\ CreateShortURL rfc3339 req now draws s = Some (Ok resp, s')
         /\ w = Json 201 (JsonCreated resp))
      \/ (s' = s
          /\ (forall resp, w <> Json 201 (JsonCreated resp))
          /\ (Method r <> "POST" /\ w = HttpError "Method not allowed" 405
              \/ exists message,
                   Method r = "POST"
                   /\ w = bad message
                   /\ In message
                        ["Failed to read request body"; "Invalid JSON";
                         "URL is required"; "invalid URL: invalid URL format";
                         "invalid shortcode: shortcode must be 4-20 characters";
                         "invalid shortcode: shortcode must be alphanumeric";
                         "shortcode already exists"]))).
Proof.
  intros bad answer. subst bad answer. cbv beta.
  unfold URLHandler.CreateShortURL, URLHandler.sendErrorResponse.
  change (StatusText 400) with "Bad Request".
  split; [|split; [|split]].
  - intros M. apply String.eqb_neq in M. now rewrite M.
  - intros M B. apply String.eqb_eq in M. now rewrite M, B.
  - intros body M B. apply String.eqb_eq in M. rewrite M, B. simpl. split.
    + now intros ->.
    + intros req ->. split.
      * intros E. apply is_empty_true in E. now rewrite E.
      * intros E. pose proof E as E'. apply is_empty_false in E'. rewrite E'.
        split; [|split].
        -- now intros resp s' ->.
        -- intros e s' C. rewrite C.
           pose proof (CreateShortURL_Err rfc3339 _ _ _ _ _ _ C) as ->.
           split; [reflexivity|]. split; [reflexivity|].
           exact (CreateShortURL_Err_message _ _ _ _ _ _ C E).
        -- now intros ->.
  - intros w s'.
    destruct (String.eqb_spec (Method r) "POST") as [M|M]; simpl.
    2:{ intros [= <- <-]. right. split; [reflexivity|].
        split; [discriminate|]. left. auto. }
    destruct (Body r) as [body|] eqn:B.
    2:{ intros [= <- <-]. right. split; [reflexivity|]. split; [discriminate|].
        right. eexists. split; [exact M|]. split; [reflexivity|]. simpl. auto. }
    destruct (Unmarshal body) as [req|] eqn:U.
    2:{ intros [= <- <-]. right. split; [reflexivity|]. split; [discriminate|].
        right. eexists. split; [exact M|]. split; [reflexivity|]. simpl. auto. }
    destruct (GoString.is_empty (URL req)) eqn:E.
    { intros [= <- <-]. right. split; [reflexivity|]. split; [discriminate|].
      right. eexists. split; [exact M|]. split; [reflexivity|]. simpl. auto. }
    apply is_empty_false in E.
    destruct (CreateShortURL rfc3339 req now draws s) as [[[resp|e] s1]|] eqn:C;
      [| |discriminate]; intros [= <- <-].
    + left. exists body, req, resp. auto 10.
    + right. pose proof (CreateShortURL_Err rfc3339 _ _ _ _ _ _ C) as ->.
      split; [reflexivity|]. split; [discriminate|].
      right. exists e. split; [exact M|]. split; [reflexivity|].
      pose proof (CreateShortURL_Err_message _ _ _ _ _ _ C E) as K.
      simpl in K. simpl. intuition.
Qed.

(** X20. From the create to the statistics, through the handlers. When
    the create handler has answered 201 with a link, then for a request for
    the path of that link, up to the expiry (for a validity of at most
    153722867 minutes) and for a code other than the two words the
    redirect handler passes over, the redirect handler calls
    [http.Redirect] with the status 301 and, as the target, the URL of the
    request body as it was sent, with no protocol added; the statistics
    handler then reports one click, the one of that request. The statement
    is about the arguments of the call of [http.Redirect]; the [Location]
    header that [net/http] makes of the target is not part of it. *)
Theorem handler_create_then_redirect (post get q : HttpRequest)
    (now now1 now2 : time.Time) (draws : list draw) (s s' : URLService)
    (resp : CreateShortURLResponse) (body code : string)
    (req : CreateShortURLRequest) :
  URLHandler.CreateShortURL rfc3339 Unmarshal post now draws s
    = Some (Json 201 (JsonCreated resp), s') ->
  Body post = Some body -> Unmarshal body = Some req ->
  ShortLink resp = "http://localhost:3000/" ++ code ->
  reserved code = false ->
  effectiveValidity req <= 153722867 ->
  now1 <= now + effectiveValidity req * 60000000000 ->
  URLPath get = "/" ++ code ->
  URLPath q = "/shorturls/" ++ code ->
  exists s'',
    URLHandler.RedirectURL get now1 now2 s'
      = (HttpRedirect (URL req) 301, s'')
    /\ URLHandler.GetStats q s''
       = (Json 200 (JsonStats
            {| TotalClicks := 1;
               stats_CreatedAt := now;
               stats_ExpiresAt := now + effectiveValidity req * 60000000000;
               Clicks := [click_of get now2] |}), s'').
Proof.
  unfold URLHandler.CreateShortURL, URLHandler.sendErrorResponse.
  intros H Hb Hu Hl R B T Pg Pq. revert H.
  destruct (negb (Method post =? "POST")%string); [discriminate|].
  rewrite Hb, Hu.
  destruct (GoString.is_empty (URL req)); [discriminate|].
  destruct (CreateShortURL rfc3339 req now draws s) as [[[resp'|e] s1]|] eqn:C;
    [|discriminate|discriminate].
  intros [= -> ->].
  assert (Hpos : 0 < effectiveValidity req).
  { unfold effectiveValidity.
    destruct (Validity req <=? 0) eqn:E; [lia|]. apply Z.leb_gt in E. lia. }
  pose proof C as C'. apply CreateShortURL_Ok in C'.
  destruct C' as (code' & _ & Ch & _ & -> & ->).
  simpl in Hl. apply link_inj in Hl. subst code'.
  assert (N : code <> "").
  { intros ->. apply chooseShortCode_valid in Ch. discriminate Ch. }
  set (u := newShortURL code req (effectiveValidity req) now).
  assert (X : ExpiresAt u = now + effectiveValidity req * 60000000000).
  { unfold u, newShortURL, time.Add. simpl. now rewrite minutes_exact by lia. }
  assert (Lu : urls {| urls := <[code := u]> (urls s) |} !! code = Some u).
  { simpl. apply lookup_insert_eq. }
  eexists. split.
  - rewrite (RedirectURL_live get now1 now2 _ u).
    + rewrite Pg, TrimPrefix_slash. reflexivity.
    + rewrite Pg, TrimPrefix_slash. exact R.
    + rewrite Pg, TrimPrefix_slash. exact Lu.
    + lia.
  - rewrite (handler_GetStats_present q _ code (clicked u (click_of get now2)) Pq N).
    + change (stats_of (clicked u (click_of get now2)))
        with {| TotalClicks := wrap64 (0 + 1);
                stats_CreatedAt := now;
                stats_ExpiresAt := ExpiresAt u;
                Clicks := [click_of get now2] |}.
      rewrite X. reflexivity.
    + simpl. apply lookup_insert_eq.
Qed.

End HandlerFacts.

(** ** Clicks under concurrent callers *)

Section Clicks.

Variable rfc3339 : time.Time -> string.

Import Conc.

Lemma perm_exchange {A : Type} (h h' f f' a b : list A) :
  (f' ++ a)%list ≡ₚ (f ++ b)%list -> (h' ++ b)%list = (h ++ a)%list ->
  (h' ++ f')%list ≡ₚ (h ++ f)%list.
Proof.
  intros Q E. apply (Permutation_app_inv_r (a ++ b)%list).
  transitivity (h' ++ (f' ++ a) ++ b)%list.
  { rewrite <- !app_assoc. reflexivity. }
  rewrite Q.
  transitivity ((h' ++ b) ++ f ++ b)%list.
  { rewrite <- !app_assoc. apply Permutation_app_head.
    rewrite !app_assoc. apply Permutation_app_tail, Permutation_app_comm. }
  rewrite E. rewrite <- !app_assoc. apply Permutation_app_head.
  rewrite !app_assoc. apply Permutation_app_tail, Permutation_app_comm.
Qed.

Lemma pending_insert (code : string) (l : list caller) (i : nat) (t t' : caller) :
  l !! i = Some t ->
  (flat_map (pending code) (<[i := t']> l) ++ pending code t)%list
  ≡ₚ (flat_map (pending code) l ++ pending code t')%list.
Proof.
  revert i. induction l as [|x l IH]; intros i L; [discriminate|].
  destruct i as [|i]; simpl in *.
  - injection L as ->.
    rewrite (Permutation_app_comm (pending code t' ++ flat_map (pending code) l)
                                  (pending code t)).
    rewrite <- !app_assoc. apply Permutation_app_head, Permutation_app_comm.
  - rewrite <- !app_assoc. apply Permutation_app_head. now apply IH.
Qed.

Lemma pending_returned (code : string) (l : list caller) :
  (forall i t, l !! i = Some t -> returned t = true) ->
  flat_map (pending code) l = [].
Proof.
  induction l as [|x l IH]; intros H; simpl; [reflexivity|].
  rewrite IH by (intros i t L; apply (H (S i) t L)).
  pose proof (H 0%nat x eq_refl) as R.
  destruct x; try discriminate R; reflexivity.
Qed.

Lemma keeps_entering (code : string) (t : caller) :
  entering t = true -> keeps code t = true.
Proof. destruct t; simpl; auto; discriminate. Qed.

(** What a step does to the entry under [code], for a caller that is not
    about to store under it. *)
Lemma step_click (code : string) (t t' : caller) (m m' : shared) (u : ShortURL) :
  step rfc3339 t m = Some (t', m') ->
  urls (service m) !! code = Some u ->
  keeps code t = true ->
  exists u',
    urls (service m') !! code = Some u'
    /\ keeps code t' = true
    /\ (ClickHistory u' ++ pending code t')%list
       = (ClickHistory u ++ pending code t)%list.
Proof.
  unfold step. intros H L K.
  destruct t; simpl in H, K.
  - (* AtCreate *)
    destruct (validateURL (URL req)); [injection H as <- <-; eauto|].
    destruct (GoString.is_empty (req_ShortCode req)); [injection H as <- <-; eauto|].
    destruct (validateShortCode (req_ShortCode req)); injection H as <- <-; eauto.
  - destruct draws; [discriminate|]. injection H as <- <-; eauto.
  - destruct (RLock (mutex m)); [|discriminate]. injection H as <- <-; eauto.
  - injection H as <- <-. exists u. split; [exact L|]. split; [|reflexivity].
    simpl. destruct (String.eqb_spec shortCode code) as [->|N]; simpl; [|reflexivity].
    apply shortCodeExists_true. eauto.
  - destruct (GoString.is_empty (req_ShortCode req)), found; simpl in H;
      injection H as <- <-; simpl; rewrite ?orb_false_r in K; eauto.
  - destruct (Lock (mutex m)); [|discriminate]. injection H as <- <-; eauto.
  - injection H as <- <-. exists u. simpl. split; [|auto].
    apply negb_true_iff in K. apply String.eqb_neq in K.
    now rewrite lookup_insert_ne.
  - injection H as <- <-; eauto.
  - discriminate.
  - destruct (RLock (mutex m)); [|discriminate]. injection H as <- <-; eauto.
  - injection H as <- <-; eauto.
  - destruct found as [x|]; [destruct (time.After now (ExpiresAt x))|];
      injection H as <- <-; eauto.
  - discriminate.
  - destruct (Lock (mutex m)); [|discriminate]. injection H as <- <-; eauto.
  - destruct (String.eqb_spec shortCode code) as [->|N].
    + rewrite L in H. injection H as <- <-. exists u. simpl.
      rewrite String.eqb_refl. auto.
    + destruct (urls (service m) !! shortCode); injection H as <- <-;
        exists u; simpl; apply String.eqb_neq in N; rewrite ?N; auto.
  - injection H as <- <-. simpl.
    destruct (String.eqb_spec shortCode code) as [->|N].
    + exists (incrCount u). rewrite lookup_alter_eq, L. auto.
    + exists u. rewrite lookup_alter_ne by exact N. auto.
  - injection H as <- <-. simpl.
    destruct (String.eqb_spec shortCode code) as [->|N].
    + exists (appendClick click u). rewrite lookup_alter_eq, L. simpl.
      rewrite app_nil_r. auto.
    + exists u. rewrite lookup_alter_ne by exact N. auto.
  - injection H as <- <-; eauto.
  - discriminate.
  - destruct (RLock (mutex m)); [|discriminate]. injection H as <- <-; eauto.
  - destruct (urls (service m) !! shortCode); injection H as <- <-; eauto.
  - injection H as <- <-; eauto.
  - discriminate.
Qed.

Lemma sched_step_click (code : string) (i : nat) (c : config) (u : ShortURL)
    (all : list Click) :
  urls (service (mem c)) !! code = Some u ->
  (forall j t, callers c !! j = Some t -> keeps code t = true) ->
  (ClickHistory u ++ flat_map (pending code) (callers c))%list ≡ₚ all ->
  exists u',
    urls (service (mem (sched_step rfc3339 i c))) !! code = Some u'
    /\ (forall j t, callers (sched_step rfc3339 i c) !! j = Some t ->
          keeps code t = true)
    /\ (ClickHistory u'
        ++ flat_map (pending code) (callers (sched_step rfc3339 i c)))%list ≡ₚ all.
Proof.
  intros L K P. unfold sched_step.
  destruct (callers c !! i) as [t|] eqn:Li; [|eauto].
  destruct (step rfc3339 t (mem c)) as [[t' m']|] eqn:S; [|eauto].
  destruct (step_click code t t' (mem c) m' u S L (K i t Li)) as (u' & L' & K' & E).
  exists u'. simpl. split; [exact L'|]. split.
  - intros j x Lj. destruct (decide (i = j)) as [<-|N].
    + rewrite list_lookup_insert_eq in Lj by (eapply lookup_lt_Some; eauto).
      now injection Lj as <-.
    + rewrite list_lookup_insert_ne in Lj by exact N. eauto.
  - rewrite <- P.
    apply (perm_exchange _ _ _ _ (pending code t) (pending code t'));
      [now apply pending_insert|exact E].
Qed.

Lemma run_sched_click (code : string) (sched : list nat) (c : config) (u : ShortURL)
    (all : list Click) :
  urls (service (mem c)) !! code = Some u ->
  (forall j t, callers c !! j = Some t -> keeps code t = true) ->
  (ClickHistory u ++ flat_map (pending code) (callers c))%list ≡ₚ all ->
  exists u',
    urls (service (mem (run_sched rfc3339 sched c))) !! code = Some u'
    /\ (ClickHistory u'
        ++ flat_map (pending code) (callers (run_sched rfc3339 sched c)))%list ≡ₚ all.
Proof.
  revert c u. induction sched as [|i sched IH]; intros c u L K P; simpl; [eauto|].
  destruct (sched_step_click code i c u all L K P) as (u1 & L1 & K1 & P1).
  apply (IH _ u1 L1 K1 P1).
Qed.

(** X21. No click on an existing code is lost, whatever runs beside it.
    Under every schedule of concurrent callers of any of the four methods,
    at every moment, the history of a code that was in the registry at the
    start, together with the clicks that callers of [RecordClick] have
    still to append to it, holds exactly the clicks of the old history and
    of all calls of [RecordClick] on the code; once every call has returned
    the history holds them all. No create replaces the entry. *)
Theorem clicks_never_lost (ts : list caller) (s : URLService) (sched : list nat)
    (code : string) (shortURL : ShortURL) :
  forallb entering ts = true ->
  urls s !! code = Some shortURL ->
  exists shortURL',
    urls (service (mem (run_sched rfc3339 sched (start ts s)))) !! code
      = Some shortURL'
    /\ (ClickHistory shortURL'
        ++ flat_map (pending code)
                    (callers (run_sched rfc3339 sched (start ts s))))%list
       ≡ₚ (ClickHistory shortURL ++ flat_map (pending code) ts)%list
    /\ ((forall i t, callers (run_sched rfc3339 sched (start ts s)) !! i = Some t ->
           returned t = true) ->
        ClickHistory shortURL'
        ≡ₚ (ClickHistory shortURL ++ flat_map (pending code) ts)%list).
Proof.
  intros E L.
  destruct (run_sched_click code sched (start ts s) shortURL
              (ClickHistory shortURL ++ flat_map (pending code) ts)%list)
    as (u' & L' & P').
  - exact L.
  - intros j t Lj. apply keeps_entering.
    rewrite forallb_forall in E. apply E. simpl in Lj.
    eapply list_elem_of_In, list_elem_of_lookup_2; eauto.
  - reflexivity.
  - exists u'. split; [exact L'|]. split; [exact P'|].
    intros R. rewrite (pending_returned code _ R), app_nil_r in P'. exact P'.
Qed.

End Clicks.

(** ** The generated codes *)

Lemma fromHexChar_digits (b : Byte.byte) :
  let v := Z.of_N (Byte.to_N b) in
  16 * fromHexChar (hex.digit (Z.shiftr v 4)) + fromHexChar (hex.digit (Z.land v 15))
  = v.
Proof. destruct b; reflexivity. Qed.

Lemma hex_byte_inj (a b : Byte.byte) :
  hex.digit (Z.shiftr (Z.of_N (Byte.to_N a)) 4)
    = hex.digit (Z.shiftr (Z.of_N (Byte.to_N b)) 4) ->
  hex.digit (Z.land (Z.of_N (Byte.to_N a)) 15)
    = hex.digit (Z.land (Z.of_N (Byte.to_N b)) 15) ->
  a = b.
Proof.
  intros H L.
  pose proof (fromHexChar_digits a) as A. pose proof (fromHexChar_digits b) as B.
  cbv zeta in A, B. rewrite H, L in A. rewrite B in A.
  apply N2Z.inj in A. apply (f_equal Byte.of_N) in A.
  rewrite !Byte.of_to_N in A. now injection A.
Qed.

(** X22. The generated code loses nothing of the random bytes: two
    different draws of four bytes give two different codes, so the
    generation has 2^32 codes to pick from, and the loop tries a code twice
    only when the random source repeats itself. *)
Theorem draw_code_distinct (d d' : draw) :
  d <> d' -> draw_code d <> draw_code d'.
Proof.
  intros N H. apply N. revert H.
  destruct d as [[[a0 a1] a2] a3], d' as [[[b0 b1] b2] b3].
  unfold draw_code, draw_bytes. cbn [hex.EncodeToString].
  set (f := fun b => hex.digit (Z.shiftr (Z.of_N (Byte.to_N b)) 4)).
  set (g := fun b => hex.digit (Z.land (Z.of_N (Byte.to_N b)) 15)).
  change (GoString.take 8 (String (f a0) (String (g a0) (String (f a1) (String (g a1)
            (String (f a2) (String (g a2) (String (f a3) (String (g a3) ""))))))))
          = GoString.take 8 (String (f b0) (String (g b0) (String (f b1) (String (g b1)
            (String (f b2) (String (g b2) (String (f b3) (String (g b3) ""))))))))
          -> (a0, a1, a2, a3) = (b0, b1, b2, b3)).
  cbv [GoString.take].
  intros H. injection H as H0 H1 H2 H3 H4 H5 H6 H7.
  subst f g. cbv beta in *.
  rewrite (hex_byte_inj a0 b0), (hex_byte_inj a1 b1), (hex_byte_inj a2 b2),
    (hex_byte_inj a3 b3); auto.
Qed.

(** ** The further statements at concrete inputs *)

Lemma entry_persists_witness :
  let shortURL :=
    {| ShortCode := "abcd"; OriginalURL := "https://a.com"; CreatedAt := 0;
       ExpiresAt := 100; ClickCount := 0; ClickHistory := [] |} in
  let s := {| urls := <["abcd" := shortURL]> ∅ |} in
  let ops :=
    [OpRecordClick "abcd" "direct" "unknown" 10;
     OpCreate {| URL := "https://b.com"; Validity := 0; req_ShortCode := "abcd" |}
              20 [];
     OpRecordClick "abcd" "https://google.com" "unknown" 500] in
  urls s !! "abcd" = Some shortURL
  /\ exists shortURL',
       urls (run sample_rfc3339 ops s) !! "abcd" = Some shortURL'
       /\ OriginalURL shortURL' = "https://a.com"
       /\ ExpiresAt shortURL' = 100
       /\ ClickHistory shortURL'
          = [{| Timestamp := 10; Source := "direct"; Location := "unknown" |};
             {| Timestamp := 500; Source := "https://google.com";
                Location := "unknown" |}].
Proof.
  intros shortURL s ops. split; [reflexivity|].
  destruct (entry_persists sample_rfc3339 ops s "abcd" shortURL eq_refl)
    as (u & L & _ & H2 & _ & H4 & H5).
  exists u. split; [exact L|]. split; [exact H2|]. split; [exact H4|exact H5].
Defined.

Lemma registry_keys_valid_witness :
  let req := {| URL := "https://a.com"; Validity := 0; req_ShortCode := "" |} in
  let ops := [OpCreate req 5 [(Byte.xde, Byte.xad, Byte.xbe, Byte.xef)]] in
  let shortURL := newShortURL "deadbeef" req 30 5 in
  urls (run sample_rfc3339 ops NewURLService) !! "deadbeef" = Some shortURL
  /\ ShortCode shortURL = "deadbeef"
  /\ validateShortCode "deadbeef" = None
  /\ 4 <= GoString.len "deadbeef" <= 20
  /\ forallb isAlnum (GoString.bytes "deadbeef") = true.
Proof.
  intros req ops shortURL.
  assert (L : urls (run sample_rfc3339 ops NewURLService) !! "deadbeef"
              = Some shortURL).
  { vm_compute. reflexivity. }
  split; [exact L|].
  exact (registry_keys_valid sample_rfc3339 ops "deadbeef" shortURL L).
Defined.

Lemma expired_code_stays_taken_witness :
  let shortURL :=
    {| ShortCode := "abcd"; OriginalURL := "https://a.com"; CreatedAt := 0;
       ExpiresAt := 100; ClickCount := 0; ClickHistory := [] |} in
  let s := {| urls := <["abcd" := shortURL]> ∅ |} in
  let ops := [OpRecordClick "abcd" "direct" "unknown" 200; OpStats "abcd"] in
  urls s !! "abcd" = Some shortURL
  /\ ExpiresAt shortURL < 101
  /\ 101 <= 150
  /\ GetOriginalURL "abcd" 150 (run sample_rfc3339 ops s)
     = (Err Expired, run sample_rfc3339 ops s).
Proof.
  intros shortURL s ops.
  assert (E : ExpiresAt shortURL < 101) by (simpl; lia).
  assert (T : 101 <= 150) by lia.
  split; [reflexivity|]. split; [exact E|]. split; [exact T|].
  exact (proj1 (expired_code_stays_taken sample_rfc3339 ops s "abcd" shortURL
                  101 150 eq_refl E T)).
Defined.


Lemma CreateShortURL_errors_witness :
  let req := {| URL := "https://a.com"; Validity := 0; req_ShortCode := "ab#" |} in
  CreateShortURL sample_rfc3339 req 0 [] NewURLService
    = Some (Err "invalid shortcode: shortcode must be 4-20 characters",
            NewURLService)
  /\ validateURL (URL req) = None
  /\ validateShortCode (req_ShortCode req) = Some BadLength.
Proof.
  intros req. split; [reflexivity|].
  destruct (CreateShortURL_errors sample_rfc3339 req 0 [] NewURLService NewURLService
              "invalid shortcode: shortcode must be 4-20 characters" eq_refl)
    as [_ [[H _]|[[H _]|[(_ & V & _ & C)|[[H _]|[H _]]]]]];
    try discriminate H.
  split; [exact V|exact C].
Defined.

Lemma addProtocol_idempotent_witness :
  "example.com" <> ""
  /\ addProtocol (addProtocol "example.com") = addProtocol "example.com"
  /\ validateURL (addProtocol "example.com") = validateURL "example.com".
Proof.
  assert (N : "example.com" <> "") by discriminate.
  split; [exact N|]. split.
  - exact (proj1 (addProtocol_idempotent "example.com")).
  - exact (proj2 (proj2 (addProtocol_idempotent "example.com")) N).
Defined.

Lemma links_unique_witness :
  let req1 := {| URL := "https://a.com"; Validity := 60; req_ShortCode := "abcd" |} in
  let req2 := {| URL := "https://a.com"; Validity := 0; req_ShortCode := "" |} in
  let u1 := newShortURL "abcd" req1 60 0 in
  let u2 := newShortURL "deadbeef" req2 30 50 in
  let s1 := {| urls := <["abcd" := u1]> ∅ |} in
  let ops := [OpRecordClick "abcd" "direct" "unknown" 10] in
  let draws := [(Byte.xde, Byte.xad, Byte.xbe, Byte.xef)] in
  let s3 := {| urls := <["deadbeef" := u2]> (urls (run sample_rfc3339 ops s1)) |} in
  CreateShortURL sample_rfc3339 req1 0 [] NewURLService
    = Some (Ok (response sample_rfc3339 u1), s1)
  /\ CreateShortURL sample_rfc3339 req2 50 draws (run sample_rfc3339 ops s1)
     = Some (Ok (response sample_rfc3339 u2), s3)
  /\ ShortLink (response sample_rfc3339 u1) <> ShortLink (response sample_rfc3339 u2).
Proof.
  intros req1 req2 u1 u2 s1 ops draws s3.
  assert (C1 : CreateShortURL sample_rfc3339 req1 0 [] NewURLService
               = Some (Ok (response sample_rfc3339 u1), s1)) by reflexivity.
  assert (C2 : CreateShortURL sample_rfc3339 req2 50 draws (run sample_rfc3339 ops s1)
               = Some (Ok (response sample_rfc3339 u2), s3)) by reflexivity.
  split; [exact C1|]. split; [exact C2|].
  exact (links_unique sample_rfc3339 req1 req2 0 50 [] draws ops NewURLService s1 s3
           (response sample_rfc3339 u1) (response sample_rfc3339 u2) C1 C2).
Defined.

Lemma RecordClick_commute_witness :
  let shortURL :=
    {| ShortCode := "abcd"; OriginalURL := "https://a.com"; CreatedAt := 0;
       ExpiresAt := 100; ClickCount := 0; ClickHistory := [] |} in
  let s := {| urls := <["abcd" := shortURL]> ∅ |} in
  "abcd" <> "wxyz"
  /\ snd (RecordClick "wxyz" "direct" "unknown" 2
            (snd (RecordClick "abcd" "direct" "unknown" 1 s)))
     = snd (RecordClick "abcd" "direct" "unknown" 1
              (snd (RecordClick "wxyz" "direct" "unknown" 2 s))).
Proof.
  intros shortURL s.
  assert (N : "abcd" <> "wxyz") by discriminate.
  split; [exact N|].
  exact (proj1 (RecordClick_commute "abcd" "wxyz" "direct" "unknown" "direct"
                  "unknown" 1 2 s N)).
Defined.

Lemma no_deadlock_witness :
  let ts := [Conc.AtClick "abcd" "direct" "unknown" 5; Conc.AtStats "abcd"] in
  let c := Conc.run_sched sample_rfc3339 [0%nat] (Conc.start ts NewURLService) in
  forallb Conc.entering ts = true
  /\ Conc.callers c !! 1%nat = Some (Conc.AtStats "abcd")
  /\ Conc.step sample_rfc3339 (Conc.AtStats "abcd") (Conc.mem c) = None
  /\ ((exists j t',
         Conc.callers c !! j = Some t'
         /\ (Conc.reading t' = true \/ Conc.writing t' = true)
         /\ at_lock t' = false /\ at_rlock t' = false
         /\ is_Some (Conc.step sample_rfc3339 t' (Conc.mem c)))
      \/ (Conc.mutex (Conc.mem c) = Conc.unlocked
          /\ (exists j t', Conc.callers c !! j = Some t' /\ at_lock t' = true)
          /\ (forall j t', Conc.callers c !! j = Some t' -> at_lock t' = true ->
                           is_Some (Conc.step sample_rfc3339 t' (Conc.mem c))))
      \/ (Conc.mutex (Conc.mem c) = Conc.unlocked
          /\ (forall j t', Conc.callers c !! j = Some t' -> at_lock t' = false)
          /\ is_Some (Conc.step sample_rfc3339 (Conc.AtStats "abcd") (Conc.mem c)))).
Proof.
  intros ts c. split; [reflexivity|]. split; [reflexivity|]. split; [reflexivity|].
  exact (no_deadlock sample_rfc3339 ts NewURLService [0%nat] 1 (Conc.AtStats "abcd")
           eq_refl eq_refl eq_refl eq_refl).
Defined.

Lemma lock_released_witness :
  let ts := [Conc.AtClick "abcd" "direct" "unknown" 5; Conc.AtStats "abcd"] in
  let c := Conc.run_sched sample_rfc3339 [0; 0; 0]%nat (Conc.start ts NewURLService) in
  forallb Conc.entering ts = true
  /\ Conc.callers c = [Conc.ClickReturned (Some NotFound); Conc.AtStats "abcd"]
  /\ Conc.mutex (Conc.mem c) = Conc.unlocked
  /\ registry_ok (Conc.service (Conc.mem c)).
Proof.
  intros ts c. split; [reflexivity|]. split; [reflexivity|].
  refine (lock_released sample_rfc3339 ts NewURLService [0; 0; 0]%nat
            eq_refl NewURLService_ok _).
  intros i t H.
  destruct i as [|[|i]].
  - left. injection H as <-. reflexivity.
  - right. injection H as <-. reflexivity.
  - discriminate H.
Defined.

Lemma codes_never_freed_witness :
  let shortURL :=
    {| ShortCode := "abcd"; OriginalURL := "https://a.com"; CreatedAt := 0;
       ExpiresAt := 100; ClickCount := 0; ClickHistory := [] |} in
  let s := {| urls := <["abcd" := shortURL]> ∅ |} in
  let req := {| URL := "https://b.com"; Validity := 0; req_ShortCode := "abcd" |} in
  let c := Conc.start [Conc.AtCreate req 200 []; Conc.AtClick "abcd" "direct" "unknown" 300] s in
  is_Some (urls (Conc.service (Conc.mem c)) !! "abcd")
  /\ is_Some (urls (Conc.service
                      (Conc.mem (Conc.run_sched sample_rfc3339
                                   [0; 1; 0; 1; 0; 1; 0; 1; 0; 1]%nat c)))
              !! "abcd").
Proof.
  intros shortURL s req c.
  assert (P : is_Some (urls (Conc.service (Conc.mem c)) !! "abcd")).
  { exists shortURL. reflexivity. }
  split; [exact P|].
  exact (codes_never_freed sample_rfc3339 [0; 1; 0; 1; 0; 1; 0; 1; 0; 1]%nat c "abcd" P).
Defined.

Lemma RedirectURL_cases_witness :
  let shortURL :=
    {| ShortCode := "abcd"; OriginalURL := "https://a.com"; CreatedAt := 0;
       ExpiresAt := 100; ClickCount := 0; ClickHistory := [] |} in
  let s := {| urls := <["abcd" := shortURL]> ∅ |} in
  let r := {| Method := "GET"; URLPath := "/abcd"; Body := None; Referer := "" |} in
  reserved "abcd" = false
  /\ urls s !! "abcd" = Some shortURL
  /\ URLHandler.RedirectURL r 100 101 s
     = (HttpRedirect "https://a.com" 301,
        {| urls := <["abcd" :=
                       clicked shortURL
                         {| Timestamp := 101; Source := "direct";
                            Location := "unknown" |}]> (urls s) |})
  /\ URLHandler.RedirectURL r 101 102 s = (not_found_or_expired, s).
Proof.
  intros shortURL s r. split; [reflexivity|]. split; [reflexivity|]. split.
  - refine (proj2 (proj2 (proj2 (RedirectURL_cases r 100 101 s))
                     shortURL eq_refl eq_refl) _).
    simpl. lia.
  - refine (proj1 (proj2 (proj2 (RedirectURL_cases r 101 102 s))
                     shortURL eq_refl eq_refl) _).
    simpl. lia.
Defined.

Lemma RedirectURL_click_iff_redirect_witness :
  let shortURL :=
    {| ShortCode := "abcd"; OriginalURL := "https://a.com"; CreatedAt := 0;
       ExpiresAt := 100; ClickCount := 0; ClickHistory := [] |} in
  let s := {| urls := <["abcd" := shortURL]> ∅ |} in
  let r := {| Method := "GET"; URLPath := "/abcd"; Body := None; Referer := "" |} in
  fst (URLHandler.RedirectURL r 100 101 s) = HttpRedirect "https://a.com" 301
  /\ snd (URLHandler.RedirectURL r 100 101 s) <> s.
Proof.
  intros shortURL s r. split; [reflexivity|].
  apply (proj1 (RedirectURL_click_iff_redirect r 100 101 s)).
  exists "https://a.com". reflexivity.
Defined.

Lemma handler_GetStats_cases_witness :
  let shortURL :=
    {| ShortCode := "abcd"; OriginalURL := "https://a.com"; CreatedAt := 0;
       ExpiresAt := 100; ClickCount := 0; ClickHistory := [] |} in
  let s := {| urls := <["abcd" := shortURL]> ∅ |} in
  let q := {| Method := "GET"; URLPath := "/shorturls/abcd"; Body := None;
              Referer := "" |} in
  let q' := {| Method := "GET"; URLPath := "/shorturls/wxyz"; Body := None;
               Referer := "" |} in
  fst (URLHandler.GetStats q s)
    = Json 200 (JsonStats {| TotalClicks := 0; stats_CreatedAt := 0;
                             stats_ExpiresAt := 100; Clicks := [] |})
  /\ fst (URLHandler.GetStats q' s)
     = Json 404 (JsonError {| Error := "Not Found";
                              Message := "shortcode not found" |}).
Proof.
  intros shortURL s q q'. split.
  - refine (proj2 (proj2 (proj2 (handler_GetStats_cases q s))) shortURL _ eq_refl).
    discriminate.
  - refine (proj1 (proj2 (proj2 (handler_GetStats_cases q' s))) _ eq_refl).
    discriminate.
Defined.

Lemma expired_link_stats_still_served_witness :
  let shortURL :=
    {| ShortCode := "abcd"; OriginalURL := "https://a.com"; CreatedAt := 0;
       ExpiresAt := 100; ClickCount := 1;
       ClickHistory := [{| Timestamp := 7; Source := "direct";
                           Location := "unknown" |}] |} in
  let s := {| urls := <["abcd" := shortURL]> ∅ |} in
  let get := {| Method := "GET"; URLPath := "/abcd"; Body := None; Referer := "" |} in
  let q := {| Method := "GET"; URLPath := "/shorturls/abcd"; Body := None;
              Referer := "" |} in
  ExpiresAt shortURL < 101
  /\ URLHandler.RedirectURL get 101 102 s = (not_found_or_expired, s)
  /\ URLHandler.GetStats q s = (Json 200 (JsonStats (stats_of shortURL)), s).
Proof.
  intros shortURL s get q.
  assert (E : ExpiresAt shortURL < 101) by (simpl; lia).
  assert (N : "abcd" <> "") by discriminate.
  split; [exact E|].
  exact (expired_link_stats_still_served get q 101 102 s "abcd" shortURL
           eq_refl E eq_refl N eq_refl eq_refl).
Defined.

Lemma redirects_counted_witness :
  let shortURL :=
    {| ShortCode := "abcd"; OriginalURL := "https://a.com"; CreatedAt := 0;
       ExpiresAt := 100; ClickCount := 0; ClickHistory := [] |} in
  let s := {| urls := <["abcd" := shortURL]> ∅ |} in
  let r1 := {| Method := "GET"; URLPath := "/abcd"; Body := None; Referer := "" |} in
  let r2 := {| Method := "GET"; URLPath := "/abcd"; Body := None;
               Referer := "https://google.com" |} in
  let q := {| Method := "GET"; URLPath := "/shorturls/abcd"; Body := None;
              Referer := "" |} in
  let hits := [(r1, 10, 11); (r2, 20, 21)] in
  count_ok shortURL
  /\ URLHandler.GetStats q (redirect_all hits s)
     = (Json 200 (JsonStats
          {| TotalClicks := 2;
             stats_CreatedAt := 0;
             stats_ExpiresAt := 100;
             Clicks := [{| Timestamp := 11; Source := "direct";
                           Location := "unknown" |};
                        {| Timestamp := 21; Source := "https://google.com";
                           Location := "unknown" |}] |}),
        redirect_all hits s).
Proof.
  intros shortURL s r1 r2 q hits.
  assert (C : count_ok shortURL) by reflexivity.
  assert (N : "abcd" <> "") by discriminate.
  assert (F : Forall (fun '(r, now1, _) =>
                        URLPath r = "/" ++ "abcd" /\ now1 <= ExpiresAt shortURL) hits).
  { repeat constructor; simpl; lia. }
  split; [exact C|].
  exact (redirects_counted hits q s "abcd" shortURL eq_refl N eq_refl C F eq_refl).
Defined.

Lemma reserved_words_are_valid_codes_witness :
  let req := {| URL := "https://a.com"; Validity := 0; req_ShortCode := "health" |} in
  reserved "health" = true
  /\ validateShortCode "health" = None
  /\ exists resp s',
       CreateShortURL sample_rfc3339 req 0 [] NewURLService = Some (Ok resp, s')
       /\ ShortLink resp = "http://localhost:3000/health"
       /\ is_Some (urls s' !! "health")
       /\ forall r now1 now2,
            URLPath r = "/health" ->
            URLHandler.RedirectURL r now1 now2 s' = (Nothing, s').
Proof.
  intros req. split; [reflexivity|]. split.
  - exact (proj1 (reserved_words_are_valid_codes sample_rfc3339 "health" eq_refl)).
  - exact (proj2 (reserved_words_are_valid_codes sample_rfc3339 "health" eq_refl)
             req 0 [] NewURLService eq_refl eq_refl eq_refl).
Defined.

Lemma handler_CreateShortURL_cases_witness :
  let post := {| Method := "POST"; URLPath := "/shorturls";
                 Body := Some "https://a.com"; Referer := "" |} in
  let empty := {| Method := "POST"; URLPath := "/shorturls"; Body := Some "";
                  Referer := "" |} in
  let get := {| Method := "GET"; URLPath := "/shorturls"; Body := None;
                Referer := "" |} in
  let req := {| URL := "https://a.com"; Validity := 60; req_ShortCode := "abcd" |} in
  let shortURL := newShortURL "abcd" req 60 0 in
  let s' := {| urls := <["abcd" := shortURL]> ∅ |} in
  URLHandler.CreateShortURL sample_rfc3339 sample_Unmarshal post 0 [] NewURLService
    = Some (Json 201 (JsonCreated (response sample_rfc3339 shortURL)), s')
  /\ URLHandler.CreateShortURL sample_rfc3339 sample_Unmarshal post 0 [] s'
     = Some (Json 400 (JsonError {| Error := "Bad Request";
                                    Message := "shortcode already exists" |}), s')
  /\ URLHandler.CreateShortURL sample_rfc3339 sample_Unmarshal empty 0 []
       NewURLService
     = Some (Json 400 (JsonError {| Error := "Bad Request";
                                    Message := "URL is required" |}),
             NewURLService)
  /\ URLHandler.CreateShortURL sample_rfc3339 sample_Unmarshal get 0 []
       NewURLService
     = Some (HttpError "Method not allowed" 405, NewURLService).
Proof.
  intros post empty get req shortURL s'.
  assert (N : URL req <> "") by discriminate.
  split; [|split; [|split]].
  - destruct (handler_CreateShortURL_cases sample_rfc3339 sample_Unmarshal post 0 []
                NewURLService) as (_ & _ & H & _).
    destruct (H "https://a.com" eq_refl eq_refl) as [_ H1].
    destruct (H1 req eq_refl) as [_ H2].
    destruct (H2 N) as [H3 _].
    exact (H3 (response sample_rfc3339 shortURL) s' eq_refl).
  - destruct (handler_CreateShortURL_cases sample_rfc3339 sample_Unmarshal post 0 []
                s') as (_ & _ & H & _).
    destruct (H "https://a.com" eq_refl eq_refl) as [_ H1].
    destruct (H1 req eq_refl) as [_ H2].
    destruct (H2 N) as (_ & H3 & _).
    exact (proj1 (H3 "shortcode already exists" s' eq_refl)).
  - destruct (handler_CreateShortURL_cases sample_rfc3339 sample_Unmarshal empty 0 []
                NewURLService) as (_ & _ & H & _).
    destruct (H "" eq_refl eq_refl) as [_ H1].
    destruct (H1 {| URL := ""; Validity := 60; req_ShortCode := "abcd" |} eq_refl)
      as [H2 _].
    exact (H2 eq_refl).
  - refine (proj1 (handler_CreateShortURL_cases sample_rfc3339 sample_Unmarshal get
                     0 [] NewURLService) _).
    discriminate.
Defined.

Lemma handler_create_then_redirect_witness :
  let post := {| Method := "POST"; URLPath := "/shorturls";
                 Body := Some "example.com"; Referer := "" |} in
  let get := {| Method := "GET"; URLPath := "/abcd"; Body := None;
                Referer := "https://news.example" |} in
  let q := {| Method := "GET"; URLPath := "/shorturls/abcd"; Body := None;
              Referer := "" |} in
  let req := {| URL := "example.com"; Validity := 60; req_ShortCode := "abcd" |} in
  let shortURL := newShortURL "abcd" req 60 0 in
  let s' := {| urls := <["abcd" := shortURL]> ∅ |} in
  URLHandler.CreateShortURL sample_rfc3339 sample_Unmarshal post 0 [] NewURLService
    = Some (Json 201 (JsonCreated (response sample_rfc3339 shortURL)), s')
  /\ exists s'',
       URLHandler.RedirectURL get 100 101 s' = (HttpRedirect "example.com" 301, s'')
       /\ URLHandler.GetStats q s''
          = (Json 200 (JsonStats
               {| TotalClicks := 1;
                  stats_CreatedAt := 0;
                  stats_ExpiresAt := 3600000000000;
                  Clicks := [{| Timestamp := 101; Source := "https://news.example";
                                Location := "unknown" |}] |}), s'').
Proof.
  intros post get q req shortURL s'. split; [reflexivity|].
  refine (handler_create_then_redirect sample_rfc3339 sample_Unmarshal post get q
            0 100 101 [] NewURLService s' (response sample_rfc3339 shortURL)
            "example.com" "abcd" req eq_refl eq_refl eq_refl eq_refl eq_refl
            _ _ eq_refl eq_refl).
  - vm_compute. discriminate.
  - vm_compute. discriminate.
Defined.

Lemma clicks_never_lost_witness :
  let shortURL :=
    {| ShortCode := "abcd"; OriginalURL := "https://a.com"; CreatedAt := 0;
       ExpiresAt := 100; ClickCount := 0; ClickHistory := [] |} in
  let s := {| urls := <["abcd" := shortURL]> ∅ |} in
  let req := {| URL := "https://b.com"; Validity := 0; req_ShortCode := "abcd" |} in
  let ts := [Conc.AtClick "abcd" "a" "unknown" 1;
             Conc.AtCreate req 2 [];
             Conc.AtClick "abcd" "b" "unknown" 3] in
  let sched := [1; 1; 2; 1; 1; 2; 2; 2; 2; 2; 0; 0; 0; 0; 0]%nat in
  forallb Conc.entering ts = true
  /\ urls s !! "abcd" = Some shortURL
  /\ Conc.callers (Conc.run_sched sample_rfc3339 sched (Conc.start ts s))
     = [Conc.ClickReturned None; Conc.CreateReturned (Err CodeCollision);
        Conc.ClickReturned None]
  /\ exists shortURL',
       urls (Conc.service (Conc.mem (Conc.run_sched sample_rfc3339 sched
                                       (Conc.start ts s)))) !! "abcd"
         = Some shortURL'
       /\ ClickHistory shortURL'
          ≡ₚ [{| Timestamp := 1; Source := "a"; Location := "unknown" |};
              {| Timestamp := 3; Source := "b"; Location := "unknown" |}].
Proof.
  intros shortURL s req ts sched.
  assert (C : Conc.callers (Conc.run_sched sample_rfc3339 sched (Conc.start ts s))
              = [Conc.ClickReturned None; Conc.CreateReturned (Err CodeCollision);
                 Conc.ClickReturned None]).
  { vm_compute. reflexivity. }
  split; [reflexivity|]. split; [reflexivity|]. split; [exact C|].
  destruct (clicks_never_lost sample_rfc3339 ts s sched "abcd" shortURL
              eq_refl eq_refl) as (u & L & _ & H).
  exists u. split; [exact L|]. apply H.
  intros i t Hi. rewrite C in Hi.
  destruct i as [|[|[|i]]]; try (injection Hi as <-; reflexivity).
  discriminate Hi.
Defined.

Lemma draw_code_distinct_witness :
  (Byte.x00, Byte.x00, Byte.x00, Byte.x00) <> (Byte.x00, Byte.x00, Byte.x00, Byte.x01)
  /\ draw_code (Byte.x00, Byte.x00, Byte.x00, Byte.x00)
     <> draw_code (Byte.x00, Byte.x00, Byte.x00, Byte.x01).
Proof.
  assert (N : (Byte.x00, Byte.x00, Byte.x00, Byte.x00)
              <> (Byte.x00, Byte.x00, Byte.x00, Byte.x01)) by discriminate.
  split; [exact N|].
  exact (draw_code_distinct _ _ N).
Defined.
